(** * weasyprint.pdf: post-processing of cairo's PDF output

    A shallow embedding of [weasyprint/pdf.py]: the token formatter
    ([PDFFormatter]), the dictionary view ([PDFDictionary]), the object
    store ([PDFFile]) and the bookmark hierarchy builder
    ([process_bookmarks]), followed by the properties of the
    specification that were checked against them.

    Conventions of the embedding.
    - A byte string is a [list ascii]; a text string is a list of code
      points.
    - A Python call either returns or raises: [outcome].  Methods of an
      object with mutable state are functions from the state to an outcome
      and the state afterwards (the state survives an exception).
    - [assert] statements are active (the interpreter runs without -O).
    - The interpreter is Python 3.7 or later: a [dict] iterates in
      insertion order, [int] accepts ASCII white space, a sign and single
      underscores between digits, and lone surrogates do not encode. *)

From Stdlib Require Import Ascii String Decimal DecimalString.
From Stdlib Require Import List ZArith NArith Lia Bool.
From Stdlib Require DecimalFacts DecimalPos.
Import ListNotations.

Open Scope Z_scope.

(** ** Outcomes of a Python call *)

Inductive exn : Set :=
| AssertionError
| AttributeError
| IndexError
| KeyError
| OSError
| StopIteration
| TypeError
| UnicodeEncodeError
| ValueError.

Inductive outcome (A : Type) : Type :=
| Return (a : A)
| Raise (e : exn).

Arguments Return {A} a.
Arguments Raise {A} e.

Definition obind {A B} (o : outcome A) (k : A -> outcome B) : outcome B :=
  match o with
  | Return a => k a
  | Raise e => Raise e
  end.

Declare Scope outcome_scope.
Delimit Scope outcome_scope with outcome.
Notation "x <- c ;; k" := (obind c (fun x => k))
  (at level 61, c at next level, right associativity) : outcome_scope.
Notation "' p <- c ;; k" := (obind c (fun x => match x with p => k end))
  (at level 61, p pattern, c at next level, right associativity)
  : outcome_scope.

Definition assert (b : bool) : outcome unit :=
  if b then Return tt else Raise AssertionError.

Definition returned {A} (o : outcome A) : bool :=
  match o with Return _ => true | Raise _ => false end.

(** A method of an object whose state is an [S]. *)
Definition stateful (S A : Type) : Type := S -> outcome A * S.

Definition sbind {S A B} (m : stateful S A) (k : A -> stateful S B)
  : stateful S B :=
  fun s =>
    match m s with
    | (Return a, s') => k a s'
    | (Raise e, s') => (Raise e, s')
    end.

Definition lift {S A} (o : outcome A) : stateful S A := fun s => (o, s).

Declare Scope stateful_scope.
Delimit Scope stateful_scope with stateful.
Notation "x <- c ;; k" := (sbind c (fun x => k))
  (at level 61, c at next level, right associativity) : stateful_scope.
Notation "' p <- c ;; k" := (sbind c (fun x => match x with p => k end))
  (at level 61, p pattern, c at next level, right associativity)
  : stateful_scope.
Notation "c ;; k" := (sbind c (fun _ => k))
  (at level 61, right associativity) : stateful_scope.

(** ** Byte strings and text *)

Definition bytes := list ascii.

(** A text string ([str]): its code points. *)
Definition text := list N.

Definition LF : ascii := "010"%char.
Definition backslash : ascii := "\"%char.

(** [bs] reads a literal of the source: the two characters backslash-n
    stand for a line feed, as they do in a Python literal; every other
    character stands for itself. *)
Fixpoint bs (s : string) : bytes :=
  match s with
  | EmptyString => []
  | String c s' =>
      match s' with
      | String "n"%char s'' =>
          if Ascii.eqb c backslash then LF :: bs s'' else c :: bs s'
      | _ => c :: bs s'
      end
  end.

Definition text_of_bytes (b : bytes) : text := map N_of_ascii b.

(** The same literals as text. *)
Definition ts (s : string) : text := text_of_bytes (bs s).

Fixpoint bytes_eqb (a b : bytes) : bool :=
  match a, b with
  | [], [] => true
  | x :: a', y :: b' => Ascii.eqb x y && bytes_eqb a' b'
  | _, _ => false
  end.

Fixpoint text_eqb (a b : text) : bool :=
  match a, b with
  | [], [] => true
  | x :: a', y :: b' => N.eqb x y && text_eqb a' b'
  | _, _ => false
  end.

(** [b.startswith(p)], with what follows the prefix. *)
Fixpoint strip_prefix (p b : bytes) : option bytes :=
  match p, b with
  | [], _ => Some b
  | x :: p', y :: b' => if Ascii.eqb x y then strip_prefix p' b' else None
  | _ :: _, [] => None
  end.

Definition startswith (b p : bytes) : bool :=
  match strip_prefix p b with Some _ => true | None => false end.

(** [b.endswith(p)] *)
Definition endswith (b p : bytes) : bool :=
  bytes_eqb (skipn (length b - length p) b) p && (length p <=? length b)%nat.

(** ** Python built-ins used by the module *)

Module Py.

Section Lists.
Context {A : Type}.

(** [l[i]]: a negative index counts from the end. *)
Definition index (l : list A) (i : Z) : outcome A :=
  let n := Z.of_nat (length l) in
  let j := if i <? 0 then i + n else i in
  if (0 <=? j) && (j <? n) then
    match nth_error l (Z.to_nat j) with
    | Some a => Return a
    | None => Raise IndexError
    end
  else Raise IndexError.

(** [del l[i:]]: the bound of a slice is clamped to [0 .. len(l)]. *)
Definition del_from (l : list A) (i : Z) : list A :=
  let n := Z.of_nat (length l) in
  let j := if i <? 0 then Z.max 0 (i + n) else Z.min i n in
  firstn (Z.to_nat j) l.

(** [l.pop()]: the last element and the list without it. *)
Definition pop (l : list A) : outcome (A * list A) :=
  match rev l with
  | [] => Raise IndexError
  | a :: r => Return (a, rev r)
  end.

(** [l.append(a)] *)
Definition append (l : list A) (a : A) : list A := l ++ [a].
End Lists.

Definition sum (l : list Z) : Z := fold_left Z.add l 0.

(** [b''.join(parts)] *)
Definition join (parts : list bytes) : bytes := concat parts.

(** ASCII white space, as [bytes.split], [bytes.strip] and [int] see it. *)
Definition is_space (c : ascii) : bool :=
  let n := nat_of_ascii c in
  ((9 <=? n) && (n <=? 13) || (n =? 32))%nat.

Definition is_digit (c : ascii) : bool :=
  let n := nat_of_ascii c in
  ((48 <=? n) && (n <=? 57))%nat.

Definition digit_value (c : ascii) : Z := Z.of_nat (nat_of_ascii c) - 48.

Fixpoint lstrip (b : bytes) : bytes :=
  match b with
  | c :: b' => if is_space c then lstrip b' else b
  | [] => []
  end.

(** [b.strip()] *)
Definition strip (b : bytes) : bytes := rev (lstrip (rev (lstrip b))).

(** [b.split()]: the maximal runs of bytes that are not white space.
    [word] is the run being read, backwards. *)
Fixpoint split_from (b : bytes) (word : option bytes) : list bytes :=
  match b with
  | [] => match word with Some w => [rev w] | None => [] end
  | c :: b' =>
      if is_space c then
        match word with
        | Some w => rev w :: split_from b' None
        | None => split_from b' None
        end
      else
        split_from b' (Some (c :: match word with Some w => w | None => [] end))
  end.

Definition split (b : bytes) : list bytes := split_from b None.

(** [b.split(sep)] for a separator that is not empty: the parts between
    the occurrences of [sep], found from left to right.  [part] is the
    part being read, backwards; [skip] counts the bytes that remain of
    the occurrence just found. *)
Fixpoint split_sep_from (sep b part : bytes) (skip : nat) : list bytes :=
  match b with
  | [] => [rev part]
  | c :: b' =>
      match skip with
      | S k => split_sep_from sep b' part k
      | O =>
          if startswith b sep then
            rev part :: split_sep_from sep b' [] (length sep - 1)
          else split_sep_from sep b' (c :: part) 0
      end
  end.

Definition split_sep (b sep : bytes) : list bytes :=
  split_sep_from sep b [] 0.

(** The digits of a decimal literal, with single underscores allowed
    between digits. *)
Fixpoint digits_value (b : bytes) (acc : Z) (after_digit : bool)
  : option Z :=
  match b with
  | [] => if after_digit then Some acc else None
  | c :: b' =>
      if is_digit c then digits_value b' (10 * acc + digit_value c) true
      else if Ascii.eqb c "_" && after_digit then digits_value b' acc false
      else None
  end.

(** [int(b)]: white space around, an optional sign, the digits. *)
Definition int (b : bytes) : outcome Z :=
  let b := strip b in
  let '(sign, digits) :=
    match b with
    | "-"%char :: d => (-1, d)
    | "+"%char :: d => (1, d)
    | _ => (1, b)
    end in
  match digits_value digits 0 false with
  | Some v => Return (sign * v)
  | None => Raise ValueError
  end.

(** [str(n)] for an integer, as ASCII bytes. *)
Definition str_int (z : Z) : bytes :=
  list_ascii_of_string (NilZero.string_of_int (Z.to_int z)).

(** [b.splitlines(True)] for line feeds only: the lines that iterating
    over a binary file yields, each with its line feed (the last one
    may lack it). *)
Fixpoint lines (b : bytes) : list bytes :=
  match b with
  | [] => []
  | c :: b' =>
      if Ascii.eqb c LF then [c] :: lines b'
      else
        match lines b' with
        | [] => [[c]]
        | l :: ls => (c :: l) :: ls
        end
  end.

(** [range(n)] *)
Definition range (n : Z) : list Z :=
  map Z.of_nat (seq 0 (Z.to_nat n)).

(** [enumerate(l, start)] *)
Fixpoint enumerate {A} (l : list A) (start : Z) : list (Z * A) :=
  match l with
  | [] => []
  | a :: l' => (start, a) :: enumerate l' (start + 1)
  end.

End Py.

(** ** Regular expressions

    The fragment of [re] that the module's patterns are written in:
    literal bytes, [c+] and [c+?] for a one-byte class [c], capturing
    groups that are not nested, and [$].  Matching is by backtracking,
    the first alternative tried being the one [re] tries first. *)

Module Re.

Inductive item : Type :=
| Lit (b : bytes)
| Plus (greedy : bool) (class : ascii -> bool)
| Open
| Close
| Dollar.

Definition pattern := list item.

(** [.] under [re.DOTALL], [.] without it, [\d] and [\w] on bytes. *)
Definition any (c : ascii) : bool := true.
Definition not_newline (c : ascii) : bool := negb (Ascii.eqb c LF).
Definition digit (c : ascii) : bool := Py.is_digit c.
Definition word (c : ascii) : bool :=
  let n := nat_of_ascii c in
  (Py.is_digit c || (65 <=? n) && (n <=? 90) || (97 <=? n) && (n <=? 122)
   || (n =? 95))%nat.

(** [$] without [re.MULTILINE]: the end of the string, or just before a
    line feed that ends it. *)
Definition at_end (s : bytes) : bool :=
  match s with
  | [] => true
  | [c] => Ascii.eqb c LF
  | _ => false
  end.

(** [match_here p s group groups]: match [p] at the start of [s].
    [group] holds, backwards, the bytes the open group has consumed;
    [groups] holds the closed groups, the last one first. *)
Fixpoint match_here (p : pattern) (s : bytes) (group : option bytes)
         (groups : list bytes) {struct p} : option (list bytes) :=
  match p with
  | [] => Some (rev groups)
  | Lit b :: p' =>
      match strip_prefix b s with
      | Some s' => match_here p' s' (option_map (app (rev b)) group) groups
      | None => None
      end
  | Plus greedy class :: p' =>
      (fix more (s : bytes) (group : option bytes) {struct s}
         : option (list bytes) :=
         match s with
         | [] => None
         | c :: s' =>
             if class c then
               let group := option_map (cons c) group in
               if greedy then
                 match more s' group with
                 | Some g => Some g
                 | None => match_here p' s' group groups
                 end
               else
                 match match_here p' s' group groups with
                 | Some g => Some g
                 | None => more s' group
                 end
             else None
         end) s group
  | Open :: p' => match_here p' s (Some []) groups
  | Close :: p' =>
      match group with
      | Some g => match_here p' s None (rev g :: groups)
      | None => None
      end
  | Dollar :: p' =>
      if at_end s then match_here p' s group groups else None
  end.

(** [p.search(s)]: the groups of the leftmost match, if there is one. *)
Fixpoint search (p : pattern) (s : bytes) : option (list bytes) :=
  match match_here p s None [] with
  | Some g => Some g
  | None =>
      match s with
      | [] => None
      | _ :: s' => search p s'
      end
  end.

End Re.

(** ** Text encodings *)

Module Codec.

Local Open Scope N_scope.
Local Open Scope outcome_scope.

(** [b.decode('latin1')] *)
Definition decode_latin1 (b : bytes) : text := text_of_bytes b.

(** [t.encode('latin1')] *)
Fixpoint encode_latin1 (t : text) : outcome bytes :=
  match t with
  | [] => Return []
  | c :: t' =>
      if c <? 256 then
        b <- encode_latin1 t' ;; Return (ascii_of_N c :: b)
      else Raise UnicodeEncodeError
  end.

Definition two_bytes (u : N) : bytes :=
  [ascii_of_N (u / 256); ascii_of_N (u mod 256)].

(** One code point in UTF-16, big endian.  A surrogate does not encode,
    and a text string holds nothing above U+10FFFF. *)
Definition encode_utf_16_be_char (c : N) : outcome bytes :=
  if c <? 0xD800 then Return (two_bytes c)
  else if c <? 0xE000 then Raise UnicodeEncodeError
  else if c <? 0x10000 then Return (two_bytes c)
  else if c <? 0x110000 then
    let v := c - 0x10000 in
    Return (two_bytes (0xD800 + v / 1024) ++ two_bytes (0xDC00 + v mod 1024))
  else Raise UnicodeEncodeError.

(** [t.encode('utf-16-be')] *)
Fixpoint encode_utf_16_be (t : text) : outcome bytes :=
  match t with
  | [] => Return []
  | c :: t' =>
      b <- encode_utf_16_be_char c ;;
      b' <- encode_utf_16_be t' ;;
      Return (b ++ b')
  end.

(** [t.translate(table)] for a table from code points to text. *)
Definition translate (table : list (N * text)) (t : text) : text :=
  flat_map
    (fun c =>
       match find (fun e => fst e =? c) table with
       | Some (_, replacement) => replacement
       | None => [c]
       end) t.

End Codec.

(** ** The token formatter *)

Module PDFFormatter.

Local Open Scope outcome_scope.

(** The values that the module formats. *)
Inductive value : Type :=
| Int (z : Z)
| Str (t : text)
| NoneValue.

Inductive field_name : Type :=
| Arg (n : nat)
| Kw (name : string).

(** The conversions that the module writes: none, and [!P]. *)
Inductive conversion : Type :=
| NoConversion
| P.

Inductive piece : Type :=
| Literal (c : ascii)
| Field (name : field_name) (conv : conversion) (spec : bytes).

(** *** Reading a format string

    Replacement fields are [{name}], [{name!c}], [{name:spec}] and
    [{name!c:spec}].  The module's format strings have no doubled
    braces and no nested fields; both are refused here. *)

Fixpoint name_and_rest (f : bytes) : bytes * bytes :=
  match f with
  | [] => ([], [])
  | c :: f' =>
      if Ascii.eqb c "!" || Ascii.eqb c ":" then ([], f)
      else let '(name, rest) := name_and_rest f' in (c :: name, rest)
  end.

Definition read_name (name : bytes) : outcome field_name :=
  match name with
  | [] => Raise ValueError
  | _ =>
      if forallb Py.is_digit name then
        i <- Py.int name ;; Return (Arg (Z.to_nat i))
      else Return (Kw (string_of_list_ascii name))
  end.

Definition read_field (f : bytes) : outcome piece :=
  let '(name, rest) := name_and_rest f in
  name <- read_name name ;;
  match rest with
  | [] => Return (Field name NoConversion [])
  | ":"%char :: spec => Return (Field name NoConversion spec)
  | ["!"; "P"]%char => Return (Field name P [])
  | "!"%char :: "P"%char :: ":"%char :: spec => Return (Field name P spec)
  | _ => Raise ValueError
  end.

(** [field] holds, backwards, the field being read. *)
Fixpoint read_format (s : bytes) (field : option bytes)
  : outcome (list piece) :=
  match s, field with
  | [], None => Return []
  | [], Some _ => Raise ValueError
  | c :: s', None =>
      if Ascii.eqb c "{" then read_format s' (Some [])
      else if Ascii.eqb c "}" then Raise ValueError
      else rest <- read_format s' None ;; Return (Literal c :: rest)
  | c :: s', Some f =>
      if Ascii.eqb c "}" then
        p <- read_field (rev f) ;;
        rest <- read_format s' None ;;
        Return (p :: rest)
      else if Ascii.eqb c "{" then Raise ValueError
      else read_format s' (Some (c :: f))
  end.

(** *** Formatting *)

Definition get_value (name : field_name) (args : list value)
           (kwargs : list (string * value)) : outcome value :=
  match name with
  | Arg n =>
      match nth_error args n with
      | Some v => Return v
      | None => Raise IndexError
      end
  | Kw k =>
      match find (fun e => String.eqb (fst e) k) kwargs with
      | Some (_, v) => Return v
      | None => Raise KeyError
      end
  end.

(** [{40: r'\(', 41: r'\)', 92: r'\\'}] *)
Definition escapes : list (N * text) :=
  [(40%N, ts "\("); (41%N, ts "\)"); (92%N, ts "\\")].

Definition convert_field (v : value) (conv : conversion) : outcome value :=
  match conv with
  | P =>
      match v with
      | Str t =>
          (* Make a round-trip back through Unicode for the .translate()
             method.  Use latin1 to map all byte values. *)
          b <- Codec.encode_utf_16_be (0xFEFF%N :: t) ;;
          Return (Str (ts "(" ++
                       Codec.translate escapes (Codec.decode_latin1 b) ++
                       ts ")"))
      | _ => Raise TypeError
      end
  | NoConversion => Return v
  end.

(** [format(v, spec)] for the format specifications that the module
    writes: the empty one, and a zero followed by a width. *)
Definition format_field (v : value) (spec : bytes) : outcome text :=
  match spec with
  | [] =>
      match v with
      | Int z => Return (text_of_bytes (Py.str_int z))
      | Str t => Return t
      | NoneValue => Return (ts "None")
      end
  | "0"%char :: width =>
      w <- (if forallb Py.is_digit width then Py.int width
            else Raise ValueError) ;;
      match v with
      | Int z =>
          let sign := if z <? 0 then bs "-" else [] in
          let digits := Py.str_int (Z.abs z) in
          let fill := (Z.to_nat w - length sign - length digits)%nat in
          Return (text_of_bytes (sign ++ repeat "0"%char fill ++ digits))
      | Str _ => Raise ValueError
      | NoneValue => Raise TypeError
      end
  | _ => Raise ValueError
  end.

Fixpoint format_pieces (ps : list piece) (args : list value)
         (kwargs : list (string * value)) : outcome text :=
  match ps with
  | [] => Return []
  | Literal c :: ps' =>
      rest <- format_pieces ps' args kwargs ;;
      Return (N_of_ascii c :: rest)
  | Field name conv spec :: ps' =>
      v <- get_value name args kwargs ;;
      v <- convert_field v conv ;;
      t <- format_field v spec ;;
      rest <- format_pieces ps' args kwargs ;;
      Return (t ++ rest)
  end.

Definition vformat (format_string : bytes) (args : list value)
           (kwargs : list (string * value)) : outcome bytes :=
  ps <- read_format format_string None ;;
  result <- format_pieces ps args kwargs ;;
  Codec.encode_latin1 result.

End PDFFormatter.

(** [pdf_format = PDFFormatter().format] *)
Definition pdf_format (format_string : string)
           (args : list PDFFormatter.value)
           (kwargs : list (string * PDFFormatter.value)) : outcome bytes :=
  PDFFormatter.vformat (bs format_string) args kwargs.

(** ** Binary files

    A seekable binary file object: its content and its position.  A seek
    before the start of the file is refused, as the operating system
    does. *)

Module File.

Record fileobj : Type := { data : bytes; pos : nat }.

Definition io := stateful fileobj.

Inductive whence : Set := SEEK_SET | SEEK_END.

(** [f.seek(offset, whence)] *)
Definition seek (offset : Z) (w : whence) : io unit :=
  fun f =>
    let target :=
      match w with
      | SEEK_SET => offset
      | SEEK_END => Z.of_nat (length (data f)) + offset
      end in
    if target <? 0 then (Raise OSError, f)
    else (Return tt, {| data := data f; pos := Z.to_nat target |}).

(** [f.tell()] *)
Definition tell : io Z := fun f => (Return (Z.of_nat (pos f)), f).

(** [f.read()]: everything from the position to the end. *)
Definition read : io bytes :=
  fun f =>
    let rest := skipn (pos f) (data f) in
    (Return rest, {| data := data f; pos := pos f + length rest |}).

(** [next(f)]: the line at the position. *)
Definition next : io bytes :=
  fun f =>
    match Py.lines (skipn (pos f) (data f)) with
    | [] => (Raise StopIteration, f)
    | line :: _ =>
        (Return line, {| data := data f; pos := pos f + length line |})
    end.

(** [f.write(b)]: over what is at the position, and past the end.  A
    gap left by a seek past the end reads as zero bytes. *)
Definition write (b : bytes) : io unit :=
  fun f =>
    let d := data f in
    let gap := repeat Ascii.zero (pos f - length d) in
    (Return tt,
     {| data := firstn (pos f) d ++ gap ++ b
                  ++ skipn (pos f + length b) d;
        pos := pos f + length b |}).

End File.

(** ** The dictionary view *)

Module PDFDictionary.

Import File.
Local Open Scope stateful_scope.

Record t : Type := {
  object_number : option Z;
  byte_string : option bytes
}.

(** [get_value(key, value_re)].  The pattern is [/key value_re]; the
    keys are plain words (letters, digits and underscores, as every key
    that the module passes is: in a pattern such a key stands for
    itself), and [value_re] is given as a pattern.  The cache of
    compiled patterns leaves the result as it is. *)
Definition get_value (self : t) (key : string) (value_re : Re.pattern)
  : outcome bytes :=
  let regex := Re.Lit (bs "/" ++ bs key ++ bs " ") :: value_re in
  match byte_string self with
  | None => Raise TypeError
  | Some b =>
      match Re.search regex b with
      | None => Raise AttributeError
      | Some [] => Raise IndexError
      | Some (group1 :: _) => Return group1
      end
  end.

(** [get_type()]: the value for the /Type key. *)
Definition get_type (self : t) : outcome text :=
  obind (get_value self "Type"
           [Re.Lit (bs "/"); Re.Open; Re.Plus true Re.word; Re.Close])
        (fun v => Return (text_of_bytes v)).

Section Reading.
(** [pdf_file.read_object] *)
Variable read_object : Z -> io (option bytes).

(** [get_indirect_dict(key, pdf_file)] *)
Definition get_indirect_dict (self : t) (key : string) : io t :=
  n <- lift (obind (get_value self key
                      [Re.Open; Re.Plus true Re.digit; Re.Close;
                       Re.Lit (bs " 0 R")])
                   Py.int) ;;
  body <- read_object n ;;
  lift (Return {| object_number := Some n; byte_string := body |}).

(** [[class_(n, read(n)) for n in map(int, parts)]] *)
Fixpoint read_all (parts : list bytes) : io (list t) :=
  match parts with
  | [] => lift (Return [])
  | part :: parts' =>
      n <- lift (Py.int part) ;;
      body <- read_object n ;;
      rest <- read_all parts' ;;
      lift (Return ({| object_number := Some n; byte_string := body |}
                      :: rest))
  end.

(** [get_indirect_dict_array(key, pdf_file)] *)
Definition get_indirect_dict_array (self : t) (key : string)
  : io (list t) :=
  v <- lift (get_value self key
               [Re.Lit (bs "["); Re.Open; Re.Plus false Re.not_newline;
                Re.Close; Re.Lit (bs "]")]) ;;
  (* The array looks like this: ' <a> 0 R <b> 0 R <c> 0 R '
     so `parts` ends up like this [' <a>', ' <b>', ' <c>', ' ']
     With the trailing white space in the list. *)
  ' (trail, parts) <- lift (Py.pop (Py.split_sep v (bs " 0 R"))) ;;
  lift (assert (bytes_eqb (Py.strip trail) [])) ;;
  read_all parts.
End Reading.

End PDFDictionary.

(** ** The object store *)

Module PDFFile.

Import File PDFFormatter.
Local Open Scope stateful_scope.

Record t : Type := {
  fileobj : File.fileobj;
  (** Maps object number -> bytes from the start of the file *)
  objects_offsets : list (option Z);
  startxref : Z;
  info : PDFDictionary.t;
  catalog : PDFDictionary.t;
  page_tree : PDFDictionary.t;
  pages : list PDFDictionary.t;
  finished : bool;
  (** A [dict]: its items, in insertion order. *)
  overwritten_objects_offsets : list (option Z * Z);
  new_objects_offsets : list Z
}.

Definition method := stateful t.

Definition set_fileobj (f : File.fileobj) (self : t) : t :=
  {| fileobj := f; objects_offsets := objects_offsets self;
     startxref := startxref self; info := info self;
     catalog := catalog self; page_tree := page_tree self;
     pages := pages self; finished := finished self;
     overwritten_objects_offsets := overwritten_objects_offsets self;
     new_objects_offsets := new_objects_offsets self |}.

Definition set_finished (b : bool) (self : t) : t :=
  {| fileobj := fileobj self; objects_offsets := objects_offsets self;
     startxref := startxref self; info := info self;
     catalog := catalog self; page_tree := page_tree self;
     pages := pages self; finished := b;
     overwritten_objects_offsets := overwritten_objects_offsets self;
     new_objects_offsets := new_objects_offsets self |}.

Definition set_overwritten_objects_offsets (d : list (option Z * Z))
           (self : t) : t :=
  {| fileobj := fileobj self; objects_offsets := objects_offsets self;
     startxref := startxref self; info := info self;
     catalog := catalog self; page_tree := page_tree self;
     pages := pages self; finished := finished self;
     overwritten_objects_offsets := d;
     new_objects_offsets := new_objects_offsets self |}.

Definition set_new_objects_offsets (l : list Z) (self : t) : t :=
  {| fileobj := fileobj self; objects_offsets := objects_offsets self;
     startxref := startxref self; info := info self;
     catalog := catalog self; page_tree := page_tree self;
     pages := pages self; finished := finished self;
     overwritten_objects_offsets := overwritten_objects_offsets self;
     new_objects_offsets := l |}.

(** An operation of [self.fileobj]. *)
Definition on_file {A} (m : io A) : method A :=
  fun self =>
    let '(r, f) := m (fileobj self) in (r, set_fileobj f self).

Definition get {A} (field : t -> A) : method A :=
  fun self => (Return (field self), self).

Definition update (f : t -> t) : method unit :=
  fun self => (Return tt, f self).

Definition objnum_eqb (a b : option Z) : bool :=
  match a, b with
  | Some x, Some y => x =? y
  | None, None => true
  | _, _ => false
  end.

(** [d[key] = v]: a key that is present keeps its place. *)
Fixpoint dict_set (d : list (option Z * Z)) (key : option Z) (v : Z)
  : list (option Z * Z) :=
  match d with
  | [] => [(key, v)]
  | (k, x) :: d' =>
      if objnum_eqb k key then (k, v) :: d'
      else (k, x) :: dict_set d' key v
  end.

Definition value_of (n : option Z) : value :=
  match n with
  | Some z => Int z
  | None => NoneValue
  end.

Definition trailer_re : Re.pattern :=
  [Re.Lit (bs "\ntrailer\n"); Re.Open; Re.Plus true Re.any; Re.Close;
   Re.Lit (bs "\nstartxref\n"); Re.Open; Re.Plus true Re.digit; Re.Close;
   Re.Lit (bs "\n%%EOF\n"); Re.Dollar].

(** *** Reading *)

(** The [for] loop of [read_object] over the lines that follow the
    header.  When the lines run out the loop ends and so does the
    function: it returns [None]. *)
Fixpoint read_lines (lines object_lines : list bytes) (f : File.fileobj)
  : outcome (option bytes) * File.fileobj :=
  match lines with
  | [] => (Return None, f)
  | line :: rest =>
      let f := {| data := data f; pos := pos f + length line |} in
      let object_lines := Py.append object_lines line in
      if bytes_eqb line (bs ">>\n") then
        (line' <- next ;;
         lift (assert (bytes_eqb line' (bs "endobj\n"))) ;;
         lift (Return (Some (Py.join object_lines)))) f
      else read_lines rest object_lines f
  end.

(** [read_object] needs [self.fileobj] and [self.objects_offsets]
    only: the constructor calls it before the other attributes are
    set. *)
Definition read_object_at (objects_offsets : list (option Z))
           (object_number : Z) : io (option bytes) :=
  offset <- lift (Py.index objects_offsets object_number) ;;
  match offset with
  | None => lift (Raise TypeError)
  | Some offset =>
      seek offset SEEK_SET ;;
      line <- next ;;
      lift (assert (endswith line (bs " 0 obj\n"))) ;;
      n <- lift (Py.int (firstn (length line - 7) line)) ;;
      (* len(b' 0 obj\n') == 7 *)
      lift (assert (n =? object_number)) ;;
      fun f => read_lines (Py.lines (skipn (pos f) (data f))) [] f
  end.

Definition read_object (object_number : Z) : method (option bytes) :=
  fun self => on_file (read_object_at (objects_offsets self) object_number) self.

(** *** Construction *)

(** [for object_number in xrange(1, total_objects): ...] *)
Fixpoint read_offsets (count : nat) (objects_offsets : list (option Z))
  : io (list (option Z)) :=
  match count with
  | O => lift (Return objects_offsets)
  | S count' =>
      line <- next ;;
      lift (assert (bytes_eqb (skipn 10 line) (bs " 00000 n \n"))) ;;
      offset <- lift (Py.int (firstn 10 line)) ;;
      read_offsets count' (Py.append objects_offsets (Some offset))
  end.

(** [all(p.get_type() == 'Page' for p in pages)] *)
Fixpoint all_pages (pages : list PDFDictionary.t) : outcome bool :=
  match pages with
  | [] => Return true
  | p :: pages' =>
      obind (PDFDictionary.get_type p)
            (fun ty =>
               if text_eqb ty (ts "Page") then all_pages pages'
               else Return false)
  end.

(** [PDFFile(fileobj)] *)
Definition __init__ : io t :=
  (* cairo's trailer only has Size, Root and Info.
     The trailer + startxref + EOF is typically under 100 bytes *)
  seek (-200) SEEK_END ;;
  tail <- read ;;
  match Re.search trailer_re tail with
  | Some [trailer; startxref] =>
      let trailer :=
        {| PDFDictionary.object_number := None;
           PDFDictionary.byte_string := Some trailer |} in
      startxref <- lift (Py.int startxref) ;;

      seek startxref SEEK_SET ;;
      line <- next ;;
      lift (assert (bytes_eqb line (bs "xref\n"))) ;;

      line <- next ;;
      match Py.split line with
      | [first_object; total_objects] =>
          lift (assert (bytes_eqb first_object (bs "0"))) ;;
          total_objects <- lift (Py.int total_objects) ;;

          line <- next ;;
          lift (assert (bytes_eqb line (bs "0000000000 65535 f \n"))) ;;

          objects_offsets <-
            read_offsets (Z.to_nat (total_objects - 1)) [None] ;;

          let read := read_object_at objects_offsets in
          info <- PDFDictionary.get_indirect_dict read trailer "Info" ;;
          catalog <- PDFDictionary.get_indirect_dict read trailer "Root" ;;
          page_tree <- PDFDictionary.get_indirect_dict read catalog "Pages" ;;
          pages <-
            PDFDictionary.get_indirect_dict_array read page_tree "Kids" ;;
          (* Check that the tree is flat *)
          flat <- lift (all_pages pages) ;;
          lift (assert flat) ;;

          fun f =>
            (Return {| fileobj := f;
                       objects_offsets := objects_offsets;
                       startxref := startxref;
                       info := info;
                       catalog := catalog;
                       page_tree := page_tree;
                       pages := pages;
                       finished := false;
                       overwritten_objects_offsets := [];
                       new_objects_offsets := [] |}, f)
      | _ => lift (Raise ValueError)
      end
  | Some _ => lift (Raise ValueError)
  | None => lift (Raise AttributeError)
  end.

(** *** Writing *)

Definition _start_writing : method Z :=
  closed <- get finished ;;
  lift (assert (negb closed)) ;;
  on_file (seek 0 SEEK_END) ;;
  on_file tell.

Definition _write_object (object_number : option Z) (byte_string : bytes)
  : method Z :=
  offset <- _start_writing ;;
  header <- lift (pdf_format "{0} 0 obj\n" [value_of object_number] []) ;;
  on_file (write header) ;;
  on_file (write byte_string) ;;
  on_file (write (bs "\nendobj\n")) ;;
  lift (Return offset).

(** Write the new content for an existing object at the end of the
    file. *)
Definition overwrite_object (object_number : option Z)
           (byte_string : bytes) : method unit :=
  offset <- _write_object object_number byte_string ;;
  update (fun self =>
            set_overwritten_objects_offsets
              (dict_set (overwritten_objects_offsets self)
                        object_number offset) self).

(** Overwrite a dictionary object after adding content inside the
    << >> delimiters. *)
Definition extend_dict (dictionary : PDFDictionary.t)
           (new_content : bytes) : method unit :=
  match PDFDictionary.byte_string dictionary with
  | None => lift (Raise AttributeError)
  | Some byte_string =>
      lift (assert (endswith byte_string (bs ">>\n"))) ;;
      overwrite_object
        (PDFDictionary.object_number dictionary)
        (firstn (length byte_string - 3) byte_string
           ++ new_content ++ bs "\n>>\n")
  end.

(** Return the object number that would be used by
    write_new_object(). *)
Definition next_object_number : method Z :=
  get (fun self =>
         Z.of_nat (length (objects_offsets self))
         + Z.of_nat (length (new_objects_offsets self))).

(** Write a new object at the end of the file. *)
Definition write_new_object (byte_string : bytes) : method Z :=
  object_number <- next_object_number ;;
  offset <- _write_object (Some object_number) byte_string ;;
  update (fun self =>
            set_new_objects_offsets
              (Py.append (new_objects_offsets self) offset) self) ;;
  lift (Return object_number).

(** [for object_number, offset in iteritems(...): write(...)] *)
Fixpoint write_overwritten (items : list (option Z * Z)) : method unit :=
  match items with
  | [] => lift (Return tt)
  | (object_number, offset) :: rest =>
      entry <- lift (pdf_format "{0} 1\n{1:010} 00000 n \n"
                       [value_of object_number; Int offset] []) ;;
      on_file (write entry) ;;
      write_overwritten rest
  end.

(** [for object_number, offset in enumerate(...): write(...)] *)
Fixpoint write_new (items : list (Z * Z)) : method unit :=
  match items with
  | [] => lift (Return tt)
  | (object_number, offset) :: rest =>
      entry <- lift (pdf_format "{0:010} 00000 n \n" [Int offset] []) ;;
      on_file (write entry) ;;
      write_new rest
  end.

(** Write the cross-reference table and the trailer for the new and
    overwritten objects. *)
Definition finish : method unit :=
  new_startxref <- _start_writing ;;
  update (set_finished true) ;;
  on_file (write (bs "xref\n")) ;;

  (* Don't bother sorting or finding contiguous numbers,
     just write a new sub-section for each overwritten object. *)
  overwritten <- get overwritten_objects_offsets ;;
  write_overwritten overwritten ;;

  new_objects <- get new_objects_offsets ;;
  match new_objects with
  | [] => lift (Return tt)
  | _ =>
      first_new_object <-
        get (fun self => Z.of_nat (length (objects_offsets self))) ;;
      header <- lift (pdf_format "{0} {1}\n"
                        [Int first_new_object;
                         Int (Z.of_nat (length new_objects))] []) ;;
      on_file (write header) ;;
      write_new (Py.enumerate new_objects first_new_object)
  end ;;

  size <- next_object_number ;;
  root <- get (fun self => PDFDictionary.object_number (catalog self)) ;;
  info_number <- get (fun self => PDFDictionary.object_number (info self)) ;;
  prev <- get startxref ;;
  trailer <-
    lift (pdf_format
            "trailer\n<< /Size {size} /Root {root} 0 R /Info {info} 0 R /Prev {prev} >>\nstartxref\n{startxref}\n%%EOF\n"
            []
            [("size"%string, Int size);
             ("root"%string, value_of root);
             ("info"%string, value_of info_number);
             ("prev"%string, Int prev);
             ("startxref"%string, Int new_startxref)]) ;;
  on_file (write trailer).

End PDFFile.

(** ** The bookmark hierarchy builder *)

Module Bookmarks.

Import Py.
Local Open Scope outcome_scope.

Section Builder.
Variables Label Destination : Type.

(** A node of the outline: the dictionary built for the root and for
    each bookmark.  A key that is absent or bound to [None] is [None]
    here; the root carries no label and no destination. *)
Record node : Type := {
  Count : Z;
  First : option Z;
  Last : option Z;
  Prev : option Z;
  Next : option Z;
  Parent : option Z;
  label : option Label;
  destination : option Destination
}.

Definition with_Count (f : Z -> Z) (b : node) : node :=
  {| Count := f (Count b); First := First b; Last := Last b;
     Prev := Prev b; Next := Next b; Parent := Parent b;
     label := label b; destination := destination b |}.
Definition set_First (v : Z) (b : node) : node :=
  {| Count := Count b; First := Some v; Last := Last b;
     Prev := Prev b; Next := Next b; Parent := Parent b;
     label := label b; destination := destination b |}.
Definition set_Last (v : Z) (b : node) : node :=
  {| Count := Count b; First := First b; Last := Some v;
     Prev := Prev b; Next := Next b; Parent := Parent b;
     label := label b; destination := destination b |}.
Definition set_Prev (v : Z) (b : node) : node :=
  {| Count := Count b; First := First b; Last := Last b;
     Prev := Some v; Next := Next b; Parent := Parent b;
     label := label b; destination := destination b |}.
Definition set_Next (v : Z) (b : node) : node :=
  {| Count := Count b; First := First b; Last := Last b;
     Prev := Prev b; Next := Some v; Parent := Parent b;
     label := label b; destination := destination b |}.

(** The dictionaries are shared between [last_by_level],
    [bookmark_list] and the returned root, and are updated in place:
    they live in a heap, and the lists hold addresses.  The root is
    allocated first (address 0) and bookmark [i] is the [i]-th
    allocation after it. *)
Definition heap := list node.
Definition ref := nat.

Fixpoint modify (r : ref) (f : node -> node) (h : heap) : heap :=
  match h, r with
  | [], _ => []
  | b :: h', O => f b :: h'
  | b :: h', S r' => b :: modify r' f h'
  end.

Definition alloc (b : node) (h : heap) : ref * heap :=
  (length h, h ++ [b]).

Record state : Type := {
  store : heap;
  bookmark_list : list ref;
  level_shifts : list Z;
  last_by_level : list ref;
  indices_by_level : list Z
}.

(** [while k < bound: k += 1 + level_shifts.pop()].  Every turn pops,
    so the loop runs at most once per element and then raises. *)
Fixpoint pop_shifts (rev_shifts : list Z) (k bound : Z)
  : outcome (list Z) :=
  if k <? bound then
    match rev_shifts with
    | [] => Raise IndexError
    | s :: rest => pop_shifts rest (k + (1 + s)) bound
    end
  else Return (rev rev_shifts).

(** [for count_level in range(level):
       last_by_level[count_level]['Count'] += 1] *)
Fixpoint count_up (levels : list Z) (lbl : list ref) (h : heap)
  : outcome heap :=
  match levels with
  | [] => Return h
  | count_level :: rest =>
      r <- index lbl count_level ;;
      count_up rest lbl (modify r (with_Count (fun c => c + 1)) h)
  end.

(** The body of the [for] loop for bookmark number [i]. *)
Definition body (st : state) (i : Z)
           (raw : Z * Label * Destination) : outcome state :=
  let '(level, lab, dest) := raw in
  let h := store st in
  let last_by_level := last_by_level st in
  let indices_by_level := indices_by_level st in
  (* Calculate the real level of the bookmark *)
  let previous_level :=
    Z.of_nat (length last_by_level) - 1 + sum (level_shifts st) in
  level_shifts <-
    (if level >? previous_level then
       Return (append (level_shifts st) (level - previous_level - 1))
     else
       pop_shifts (rev (level_shifts st)) 0 (previous_level - level)) ;;
  (* Resolve level inconsistencies *)
  let level := level - sum level_shifts in
  parent <- index indices_by_level (level - 1) ;;
  let '(bookmark, h) :=
    alloc {| Count := 0; First := None; Last := None; Prev := None;
             Next := None; Parent := Some parent;
             label := Some lab; destination := Some dest |} h in
  '(h, last_by_level, indices_by_level) <-
    (if level >? Z.of_nat (length last_by_level) - 1 then
       r <- index last_by_level (level - 1) ;;
       Return (modify r (set_First i) h, last_by_level, indices_by_level)
     else
       (* The bookmark is sibling of indices_by_level[level] *)
       prev <- index indices_by_level level ;;
       let h := modify bookmark (set_Prev prev) h in
       r <- index last_by_level level ;;
       let h := modify r (set_Next i) h in
       (* Remove the bookmarks with a level higher than the current one *)
       Return (h, del_from last_by_level level,
               del_from indices_by_level level)) ;;
  h <- count_up (range level) last_by_level h ;;
  r <- index last_by_level (level - 1) ;;
  let h := modify r (set_Last i) h in
  Return {| store := h;
            bookmark_list := append (bookmark_list st) bookmark;
            level_shifts := level_shifts;
            last_by_level := append last_by_level bookmark;
            indices_by_level := append indices_by_level i |}.

Fixpoint loop (st : state) (items : list (Z * (Z * Label * Destination)))
  : outcome state :=
  match items with
  | [] => Return st
  | (i, raw) :: rest => st' <- body st i raw ;; loop st' rest
  end.

Definition root_node : node :=
  {| Count := 0; First := None; Last := None; Prev := None;
     Next := None; Parent := None; label := None; destination := None |}.

Definition initial : state :=
  let '(root, h) := alloc root_node [] in
  {| store := h;
     bookmark_list := [];
     level_shifts := [];
     last_by_level := [root];
     indices_by_level := [0] |}.

Definition deref (h : heap) (r : ref) : node := nth r h root_node.

(** [process_bookmarks(raw_bookmarks)]: the root and the list of
    bookmarks, as they are when the function returns. *)
Definition process_bookmarks
           (raw_bookmarks : list (Z * Label * Destination))
  : outcome (node * list node) :=
  st <- loop initial (enumerate raw_bookmarks 1) ;;
  Return (deref (store st) 0%nat,
          map (deref (store st)) (bookmark_list st)).

End Builder.

Arguments Count {Label Destination} _.
Arguments First {Label Destination} _.
Arguments Last {Label Destination} _.
Arguments Prev {Label Destination} _.
Arguments Next {Label Destination} _.
Arguments Parent {Label Destination} _.
Arguments label {Label Destination} _.
Arguments destination {Label Destination} _.
Arguments process_bookmarks {Label Destination} _.

End Bookmarks.


(** * The vocabulary of the properties *)

(** ** Sample inputs *)

Module Samples.

Import File.

(** A file as cairo writes it: a catalog, a flat page tree with one
    page, the information dictionary, the cross-reference table and the
    trailer. *)
Definition cairo_pdf : bytes :=
  bs "%PDF-1.5\n"
  ++ bs "1 0 obj\n<< /Type /Catalog\n   /Pages 2 0 R\n>>\nendobj\n"
  ++ bs "2 0 obj\n<< /Type /Pages\n   /Kids [ 3 0 R ]\n   /Count 1\n>>\nendobj\n"
  ++ bs "3 0 obj\n<< /Type /Page\n   /Parent 2 0 R\n>>\nendobj\n"
  ++ bs "4 0 obj\n<< /Producer (cairo 1.10.2 (http://cairographics.org))\n>>\nendobj\n"
  ++ bs "xref\n0 5\n0000000000 65535 f \n0000000009 00000 n \n"
  ++ bs "0000000061 00000 n \n0000000126 00000 n \n0000000176 00000 n \n"
  ++ bs "trailer\n<< /Size 5\n   /Root 1 0 R\n   /Info 4 0 R\n>>\n"
  ++ bs "startxref\n249\n%%EOF\n".

(** The same document with the information dictionary and the trailer
    closed on the line that opens them: after the header of object 4
    no line of the file is a lone [>>]. *)
Definition one_line_info_pdf : bytes :=
  bs "%PDF-1.5\n"
  ++ bs "1 0 obj\n<< /Type /Catalog\n   /Pages 2 0 R\n>>\nendobj\n"
  ++ bs "2 0 obj\n<< /Type /Pages\n   /Kids [ 3 0 R ]\n   /Count 1\n>>\nendobj\n"
  ++ bs "3 0 obj\n<< /Type /Page\n   /Parent 2 0 R\n>>\nendobj\n"
  ++ bs "4 0 obj\n<< /Producer (cairo 1.10.2 (http://cairographics.org)) >>\nendobj\n"
  ++ bs "xref\n0 5\n0000000000 65535 f \n0000000009 00000 n \n"
  ++ bs "0000000061 00000 n \n0000000126 00000 n \n0000000176 00000 n \n"
  ++ bs "trailer\n<< /Size 5 /Root 1 0 R /Info 4 0 R >>\n"
  ++ bs "startxref\n249\n%%EOF\n".

Definition opened (content : bytes) : fileobj :=
  {| data := content; pos := 0 |}.

(** The store that the constructor builds from [cairo_pdf]. *)
Definition cairo_store : PDFFile.t :=
  {| PDFFile.fileobj := {| data := cairo_pdf; pos := 176 |};
     PDFFile.objects_offsets := [None; Some 9; Some 61; Some 126; Some 176];
     PDFFile.startxref := 249;
     PDFFile.info :=
       {| PDFDictionary.object_number := Some 4;
          PDFDictionary.byte_string :=
            Some (bs "<< /Producer (cairo 1.10.2 (http://cairographics.org))\n>>\n") |};
     PDFFile.catalog :=
       {| PDFDictionary.object_number := Some 1;
          PDFDictionary.byte_string :=
            Some (bs "<< /Type /Catalog\n   /Pages 2 0 R\n>>\n") |};
     PDFFile.page_tree :=
       {| PDFDictionary.object_number := Some 2;
          PDFDictionary.byte_string :=
            Some (bs "<< /Type /Pages\n   /Kids [ 3 0 R ]\n   /Count 1\n>>\n") |};
     PDFFile.pages :=
       [{| PDFDictionary.object_number := Some 3;
           PDFDictionary.byte_string :=
             Some (bs "<< /Type /Page\n   /Parent 2 0 R\n>>\n") |}];
     PDFFile.finished := false;
     PDFFile.overwritten_objects_offsets := [];
     PDFFile.new_objects_offsets := [] |}.

(** A file as cairo writes it with ten entries in its cross-reference
    table: object 0, which is free, and objects 1 to 9. *)
Definition ten_object_pdf : bytes :=
  bs "%PDF-1.5\n"
  ++ bs "1 0 obj\n<< /Type /Catalog\n   /Pages 2 0 R\n>>\nendobj\n"
  ++ bs "2 0 obj\n<< /Type /Pages\n   /Kids [ 3 0 R ]\n   /Count 1\n>>\nendobj\n"
  ++ bs "3 0 obj\n<< /Type /Page\n   /Parent 2 0 R\n   /Resources 5 0 R\n>>\nendobj\n"
  ++ bs "4 0 obj\n<< /Producer (cairo 1.10.2 (http://cairographics.org))\n>>\nendobj\n"
  ++ bs "5 0 obj\n<< /Font 6 0 R\n>>\nendobj\n"
  ++ bs "6 0 obj\n<< /f-0-0 7 0 R\n>>\nendobj\n"
  ++ bs "7 0 obj\n<< /Type /Font\n   /FontDescriptor 8 0 R\n>>\nendobj\n"
  ++ bs "8 0 obj\n<< /Type /FontDescriptor\n   /FontFile3 9 0 R\n>>\nendobj\n"
  ++ bs "9 0 obj\n<< /Length 0\n>>\nendobj\n"
  ++ bs "xref\n0 10\n0000000000 65535 f \n"
  ++ bs "0000000009 00000 n \n"
  ++ bs "0000000061 00000 n \n"
  ++ bs "0000000126 00000 n \n"
  ++ bs "0000000196 00000 n \n"
  ++ bs "0000000269 00000 n \n"
  ++ bs "0000000302 00000 n \n"
  ++ bs "0000000336 00000 n \n"
  ++ bs "0000000394 00000 n \n"
  ++ bs "0000000457 00000 n \n"
  ++ bs "trailer\n<< /Size 10\n   /Root 1 0 R\n   /Info 4 0 R\n>>\nstartxref\n488\n%%EOF\n".

(** The store that the constructor builds from [ten_object_pdf]. *)
Definition ten_object_store : PDFFile.t :=
  {| PDFFile.fileobj := {| data := ten_object_pdf; pos := 196 |};
     PDFFile.objects_offsets :=
       [None; Some 9; Some 61; Some 126; Some 196; Some 269; Some 302;
        Some 336; Some 394; Some 457];
     PDFFile.startxref := 488;
     PDFFile.info :=
       {| PDFDictionary.object_number := Some 4;
          PDFDictionary.byte_string :=
            Some (bs "<< /Producer (cairo 1.10.2 (http://cairographics.org))\n>>\n") |};
     PDFFile.catalog :=
       {| PDFDictionary.object_number := Some 1;
          PDFDictionary.byte_string :=
            Some (bs "<< /Type /Catalog\n   /Pages 2 0 R\n>>\n") |};
     PDFFile.page_tree :=
       {| PDFDictionary.object_number := Some 2;
          PDFDictionary.byte_string :=
            Some (bs "<< /Type /Pages\n   /Kids [ 3 0 R ]\n   /Count 1\n>>\n") |};
     PDFFile.pages :=
       [{| PDFDictionary.object_number := Some 3;
           PDFDictionary.byte_string :=
             Some (bs "<< /Type /Page\n   /Parent 2 0 R\n   /Resources 5 0 R\n>>\n") |}];
     PDFFile.finished := false;
     PDFFile.overwritten_objects_offsets := [];
     PDFFile.new_objects_offsets := [] |}.

End Samples.

(** ** What the store writes *)

Module Layout.

Import File PDFFile.

(** [str(n)] for an object number, which may be [None]. *)
Definition decimal (n : option Z) : bytes :=
  match n with
  | Some z => Py.str_int z
  | None => bs "None"
  end.

(** [format(z, '010')]: the sign, zeros up to ten characters, the
    digits. *)
Definition zero_padded (z : Z) : bytes :=
  let sign := if z <? 0 then bs "-" else [] in
  let digits := Py.str_int (Z.abs z) in
  sign ++ repeat "0"%char (10 - length sign - length digits) ++ digits.

(** The store once [b] has been written at the end of its file. *)
Definition appended (b : bytes) (s : t) : t :=
  set_fileobj {| data := data (fileobj s) ++ b;
                 pos := length (data (fileobj s) ++ b) |} s.

(** The offset of the end of the file. *)
Definition end_offset (s : t) : Z := Z.of_nat (length (data (fileobj s))).

(** What [_write_object] writes. *)
Definition object_bytes (n : option Z) (b : bytes) : bytes :=
  decimal n ++ bs " 0 obj\n" ++ b ++ bs "\nendobj\n".

(** The subsection of one overwritten object. *)
Definition overwritten_subsection (item : option Z * Z) : bytes :=
  decimal (fst item) ++ bs " 1\n" ++ zero_padded (snd item)
    ++ bs " 00000 n \n".

(** One line of the subsection of the new objects. *)
Definition new_entry (offset : Z) : bytes :=
  zero_padded offset ++ bs " 00000 n \n".

(** The subsection of the new objects: nothing when there is none. *)
Definition new_subsection (first : Z) (offsets : list Z) : bytes :=
  match offsets with
  | [] => []
  | _ =>
      Py.str_int first ++ bs " " ++ Py.str_int (Z.of_nat (length offsets))
        ++ bs "\n" ++ concat (map new_entry offsets)
  end.

Definition trailer_bytes (size : Z) (root info : option Z)
           (prev new_startxref : Z) : bytes :=
  bs "trailer\n<< /Size " ++ Py.str_int size
    ++ bs " /Root " ++ decimal root
    ++ bs " 0 R /Info " ++ decimal info
    ++ bs " 0 R /Prev " ++ Py.str_int prev
    ++ bs " >>\nstartxref\n" ++ Py.str_int new_startxref
    ++ bs "\n%%EOF\n".

(** The incremental-update section of a store. *)
Definition update_section (s : t) : bytes :=
  let original := Z.of_nat (length (objects_offsets s)) in
  let new_objects := new_objects_offsets s in
  bs "xref\n"
    ++ concat (map overwritten_subsection (overwritten_objects_offsets s))
    ++ new_subsection original new_objects
    ++ trailer_bytes (original + Z.of_nat (length new_objects))
         (PDFDictionary.object_number (catalog s))
         (PDFDictionary.object_number (info s))
         (startxref s) (end_offset s).

End Layout.

(** ** Sessions: the calls made on a store before [finish] *)

Module Session.

Import File PDFFile Layout.
Local Open Scope stateful_scope.

Inductive call : Type :=
| Overwrite (object_number : option Z) (byte_string : bytes)
| Extend (dictionary : PDFDictionary.t) (new_content : bytes)
| WriteNew (byte_string : bytes).

(** The calls in order; the result is what the [write_new_object]
    calls returned, in order. *)
Fixpoint run (calls : list call) : method (list Z) :=
  match calls with
  | [] => lift (Return [])
  | Overwrite n b :: rest => overwrite_object n b ;; run rest
  | Extend d c :: rest => extend_dict d c ;; run rest
  | WriteNew b :: rest =>
      n <- write_new_object b ;;
      ns <- run rest ;;
      lift (Return (n :: ns))
  end.

(** The object number and the content that a call hands to
    [overwrite_object]. *)
Definition overwrites (c : call) : option (option Z * bytes) :=
  match c with
  | Overwrite n b => Some (n, b)
  | Extend d c =>
      match PDFDictionary.byte_string d with
      | Some b =>
          Some (PDFDictionary.object_number d,
                firstn (length b - 3) b ++ c ++ bs "\n>>\n")
      | None => None
      end
  | WriteNew _ => None
  end.

(** The object numbers overwritten, call by call. *)
Definition overwritten_numbers (calls : list call) : list (option Z) :=
  flat_map (fun c => match overwrites c with
                     | Some (n, _) => [n]
                     | None => []
                     end) calls.

Definition is_new (c : call) : bool :=
  match c with WriteNew _ => true | _ => false end.

(** How many of the calls are [write_new_object]. *)
Definition count_new (calls : list call) : nat :=
  length (filter is_new calls).

Definition mentions (k : option Z) (keys : list (option Z)) : bool :=
  existsb (objnum_eqb k) keys.

(** One more key for a list of keys without repetition. *)
Definition add_key (seen : list (option Z)) (k : option Z)
  : list (option Z) :=
  if mentions k seen then seen else seen ++ [k].

(** The keys in the order in which they first occur. *)
Definition first_occurrences (keys : list (option Z)) : list (option Z) :=
  fold_left add_key keys [].

(** The physical copies that the calls append, the next new object
    being number [next]. *)
Fixpoint copies (calls : list call) (next : Z) : bytes :=
  match calls with
  | [] => []
  | WriteNew b :: rest =>
      object_bytes (Some next) b ++ copies rest (next + 1)
  | c :: rest =>
      match overwrites c with
      | Some (n, b) => object_bytes n b ++ copies rest next
      | None => copies rest next
      end
  end.

(** The offsets at which the copies of the new objects start, the file
    ending at [offset] before the calls. *)
Fixpoint new_offsets (calls : list call) (offset next : Z) : list Z :=
  match calls with
  | [] => []
  | WriteNew b :: rest =>
      offset
        :: new_offsets rest
             (offset + Z.of_nat (length (object_bytes (Some next) b)))
             (next + 1)
  | c :: rest =>
      match overwrites c with
      | Some (n, b) =>
          new_offsets rest (offset + Z.of_nat (length (object_bytes n b)))
                      next
      | None => new_offsets rest offset next
      end
  end.

(** A call that does not raise on an open store. *)
Definition well_formed (c : call) : bool :=
  match c with
  | Extend d _ =>
      match PDFDictionary.byte_string d with
      | Some b => endswith b (bs ">>\n")
      | None => false
      end
  | _ => true
  end.

(** The items of a dictionary whose key is [n]. *)
Definition entries_for (n : option Z) (d : list (option Z * Z))
  : list (option Z * Z) :=
  filter (fun item => objnum_eqb (fst item) n) d.

(** No key occurs twice. *)
Definition distinct_keys (d : list (option Z * Z)) : Prop :=
  forall n, (length (entries_for n d) <= 1)%nat.

(** [first, first + 1, ...], [count] numbers. *)
Definition consecutive (first : Z) (count : nat) : list Z :=
  map (fun i => first + Z.of_nat i) (seq 0 count).

(** A store as the constructor leaves it. *)
Definition fresh (s : t) : Prop :=
  finished s = false
  /\ overwritten_objects_offsets s = []
  /\ new_objects_offsets s = [].

(** The number that [write_new_object] would use. *)
Definition next_number (s : t) : Z :=
  Z.of_nat (length (objects_offsets s))
  + Z.of_nat (length (new_objects_offsets s)).

(** The calls that [write_pdf_metadata] makes for a document with one
    bookmark: the producer, the outline root, the catalog, the bookmark. *)
Definition sample_calls : list call :=
  [Overwrite (Some 4) (bs "<< /Producer (WeasyPrint) >>");
   WriteNew (bs "<< /Type /Outlines /Count 1 /First 6 0 R /Last 6 0 R\n>>");
   Extend (catalog Samples.cairo_store)
          (bs "/Outlines 5 0 R /PageMode /UseOutlines");
   WriteNew (bs "<< /Title (A)\n/Parent 5 0 R\n>>")].

(** Object 4 overwritten twice, a new object written in between and
    another after. *)
Definition twice_calls : list call :=
  [Overwrite (Some 4) (bs "<< /Producer (first) >>");
   WriteNew (bs "<< /A 1\n>>");
   Overwrite (Some 4) (bs "<< /Producer (second) >>");
   WriteNew (bs "<< /B 2\n>>")].

(** The store after [twice_calls] on [Samples.cairo_store]. *)
Definition twice_result : t :=
  Eval vm_compute in snd (run twice_calls Samples.cairo_store).

(** The store after [sample_calls] on [Samples.cairo_store]. *)
Definition sample_result : t :=
  Eval vm_compute in snd (run sample_calls Samples.cairo_store).

(** What a session that returns has done to an open store. *)
Record session_effect (calls : list call) (s s' : t) (ns : list Z)
  : Prop := {
  still_open : finished s' = false;
  same_offsets : objects_offsets s' = objects_offsets s;
  same_startxref : startxref s' = startxref s;
  same_info : info s' = info s;
  same_catalog : catalog s' = catalog s;
  appended_copies :
    data (fileobj s') = data (fileobj s) ++ copies calls (next_number s);
  keys_in_call_order :
    map fst (overwritten_objects_offsets s')
    = fold_left add_key (overwritten_numbers calls)
                (map fst (overwritten_objects_offsets s));
  new_count :
    length (new_objects_offsets s')
    = (length (new_objects_offsets s) + count_new calls)%nat;
  new_in_call_order :
    new_objects_offsets s'
    = new_objects_offsets s
        ++ new_offsets calls (end_offset s) (next_number s);
  numbers_returned : ns = consecutive (next_number s) (count_new calls)
}.

End Session.

(** ** String literals and occurrences *)

Module Literal.

(** A Unicode scalar value: a code point that is not a surrogate. *)
Definition scalar (c : N) : Prop :=
  ((c < 0xD800 \/ 0xE000 <= c) /\ c < 0x110000)%N.

(** A parenthesis or a backslash gets a backslash before it. *)
Definition escape_byte (c : ascii) : bytes :=
  if Ascii.eqb c "("%char || Ascii.eqb c ")"%char || Ascii.eqb c backslash
  then [backslash; c]
  else [c].

(** The bytes [e] with every parenthesis and backslash escaped. *)
Definition escaped (e : bytes) : bytes := flat_map escape_byte e.

(** A line that a line feed ends. *)
Definition complete (l : bytes) : Prop :=
  exists l0, l = l0 ++ [LF] /\ ~ In LF l0.

(** [p] is in [d] at index [i]. *)
Definition occurs_at (p d : bytes) (i : nat) : Prop :=
  firstn (length p) (skipn i d) = p.




End Literal.

(** ** Outlines *)

Module Outline.

Import Bookmarks.

Definition bookmark {Label Destination : Type} (count : Z)
           (first last prev next parent : option Z)
           (l : Label) (d : Destination) : node Label Destination :=
  {| Count := count; First := first; Last := last; Prev := prev;
     Next := next; Parent := parent;
     label := Some l; destination := Some d |}.

Definition outline_root {Label Destination : Type} (count : Z)
           (first last : option Z) : node Label Destination :=
  {| Count := count; First := first; Last := last; Prev := None;
     Next := None; Parent := None; label := None; destination := None |}.

Section Tree.
Context {Label Destination : Type}.

(** The strict ancestors of entry [i] in the list of bookmarks, nearest
    first: its [Parent], the parent of that, and so on to the root, which
    is entry 0.  Entry [i] is the [i]-th of the list. *)
Fixpoint ancestors (nodes : list (node Label Destination)) (fuel : nat)
         (i : Z) : list Z :=
  match fuel with
  | O => []
  | S fuel' =>
      if 1 <=? i then
        match nth_error nodes (Z.to_nat (i - 1)) with
        | Some b =>
            match Parent b with
            | Some p => p :: ancestors nodes fuel' p
            | None => []
            end
        | None => []
        end
      else []
  end.

(** How many entries have [a] among their strict ancestors. *)
Definition descendants (nodes : list (node Label Destination)) (a : Z)
  : Z :=
  Z.of_nat
    (length
       (filter (fun i => existsb (Z.eqb a)
                                 (ancestors nodes (length nodes) i))
               (map fst (Py.enumerate nodes 1)))).

(** Every [Count] is the number of strict descendants, and that of the
    root is the number of bookmarks. *)
Definition counts_hold (result : node Label Destination
                                 * list (node Label Destination)) : bool :=
  let '(root, nodes) := result in
  (Count root =? Z.of_nat (length nodes))
  && (Count root =? descendants nodes 0)
  && forallb (fun e => Count (snd e) =? descendants nodes (fst e))
             (Py.enumerate nodes 1).

(** The parent of an entry comes before it. *)
Definition parents_before (nodes : list (node Label Destination)) : Prop :=
  forall (j : nat) (b : node Label Destination) (p : Z),
    nth_error nodes j = Some b -> Parent b = Some p ->
    0 <= p <= Z.of_nat j.

(** The addresses in [last_by_level]: the root first, and after it one
    entry per level, each the child of the one before it. *)
Definition chain (h : list (node Label Destination)) (lbl : list nat)
  : Prop :=
  nth_error lbl 0 = Some 0%nat
  /\ Forall (fun r => (r < length h)%nat) lbl
  /\ forall (j q r : nat),
      nth_error lbl j = Some q -> nth_error lbl (S j) = Some r ->
      (q < r)%nat
      /\ Parent (nth r h (root_node Label Destination))
          = Some (Z.of_nat q).

(** What holds of the state of [process_bookmarks] after [n]
    bookmarks. *)
Record invariant (n : nat) (st : state Label Destination) : Prop := {
  inv_length : length (store _ _ st) = S n;
  inv_list : bookmark_list _ _ st = seq 1 n;
  inv_indices :
    indices_by_level _ _ st = map Z.of_nat (last_by_level _ _ st);
  inv_chain : chain (store _ _ st) (last_by_level _ _ st);
  inv_parents : parents_before (tl (store _ _ st));
  inv_root :
    Count (nth 0 (store _ _ st) (root_node Label Destination))
    = Z.of_nat n;
  inv_counts :
    forall a : nat,
      (a <= n)%nat ->
      Count (nth a (store _ _ st) (root_node Label Destination))
      = descendants (tl (store _ _ st)) (Z.of_nat a);
  inv_shifts : Forall (fun shift => 0 <= shift) (level_shifts _ _ st);
  inv_depth :
    (length (level_shifts _ _ st) < length (last_by_level _ _ st))%nat
}.

End Tree.

(** The lists of [n] levels taken from [choices]. *)
Fixpoint level_lists (n : nat) (choices : list Z) : list (list Z) :=
  match n with
  | O => [[]]
  | S n' =>
      flat_map (fun l => map (fun x => x :: l) choices)
               (level_lists n' choices)
  end.

(** Bookmarks with these levels, and no label or destination to speak
    of. *)
Definition with_levels (levels : list Z) : list (Z * unit * unit) :=
  map (fun level => (level, tt, tt)) levels.

End Outline.

(** ** Operations that read *)

Module ReadOnly.

Import File.

(** An operation on a file that leaves its content as it is, whatever
    the outcome. *)
Definition keeps_data {A} (m : io A) : Prop :=
  forall (f f' : fileobj) (r : outcome A), m f = (r, f') -> data f' = data f.

End ReadOnly.

(** ** Levels that nest *)

Module Nesting.

(** Levels as a document with well-formed headings has them: each is at
    least 1 and at most one more than the one before, the first being
    1. *)
Fixpoint nested_from (previous : Z) (levels : list Z) : Prop :=
  match levels with
  | [] => True
  | level :: rest => 1 <= level <= previous + 1 /\ nested_from level rest
  end.

Definition well_nested (levels : list Z) : Prop := nested_from 0 levels.

(** The number of the last of [levels] that is [level], the first of
    them having the number [number]; [found] when there is none. *)
Fixpoint last_at (level : Z) (levels : list Z) (number found : Z) : Z :=
  match levels with
  | [] => found
  | l :: rest =>
      last_at level rest (number + 1) (if l =? level then number else found)
  end.

(** The bookmark that encloses bookmark [j] (counted from 0): the last
    one before it that is one level up, by its number (counted from 1);
    0, the root, when there is none. *)
Definition enclosing (levels : list Z) (j : nat) : Z :=
  last_at (nth j levels 0 - 1) (firstn j levels) 1 0.

(** The levels of raw bookmarks. *)
Definition levels_of {Label Destination : Type}
           (raw_bookmarks : list (Z * Label * Destination)) : list Z :=
  map (fun raw => fst (fst raw)) raw_bookmarks.

(** The level of the last bookmark; 0 before the first. *)
Definition depth (levels : list Z) : nat := Z.to_nat (last levels 0).

Section Invariant.
Import Bookmarks.
Variables Label Destination : Type.

(** The state of the loop of [process_bookmarks] after bookmarks whose
    levels nest: no level was shifted, [indices_by_level] holds for each
    level down to the current one the last bookmark of that level, and
    each bookmark has the one that encloses it for parent. *)
Record nested (levels : list Z) (st : state Label Destination) : Prop := {
  nested_positive : Forall (fun level => 1 <= level) levels;
  nested_store : length (store _ _ st) = S (length levels);
  nested_list : bookmark_list _ _ st = seq 1 (length levels);
  nested_shifts : level_shifts _ _ st = repeat 0 (depth levels);
  nested_last : length (last_by_level _ _ st) = S (depth levels);
  nested_indices :
    indices_by_level _ _ st
    = map (fun k => last_at (Z.of_nat k) levels 1 0)
          (seq 0 (S (depth levels)));
  nested_parents :
    map Parent (tl (store _ _ st))
    = map (fun j => Some (enclosing levels j)) (seq 0 (length levels))
}.

End Invariant.

End Nesting.

(** ** Where the recorded offsets point *)

Module CrossReference.

Import File PDFFile Layout Literal.

(** Object [n] stands at [offset] in the file: its header, some
    content and [endobj]. *)
Definition object_at (s : t) (n : option Z) (offset : Z) : Prop :=
  0 <= offset
  /\ exists content : bytes,
       occurs_at (object_bytes n content) (data (fileobj s))
                 (Z.to_nat offset).

(** Every offset recorded for an overwritten object is where a copy of
    that object stands, and the [k]-th offset recorded for a new object
    is where the object numbered [k] after the original ones stands. *)
Definition offsets_point_at_objects (s : t) : Prop :=
  (forall (n : option Z) (offset : Z),
      In (n, offset) (overwritten_objects_offsets s) ->
      object_at s n offset)
  /\ (forall (k : nat) (offset : Z),
         nth_error (new_objects_offsets s) k = Some offset ->
         object_at s
           (Some (Z.of_nat (length (objects_offsets s)) + Z.of_nat k))
           offset).

End CrossReference.

(** ** Reading a string back *)

Module Reader.

Local Open Scope N_scope.

(** What a reader of the file does with the bytes of a literal string:
    a backslash makes the byte after it stand for itself. *)
Fixpoint unescape (b : bytes) : bytes :=
  match b with
  | [] => []
  | c :: rest =>
      if Ascii.eqb c backslash then
        match rest with
        | c' :: rest' => c' :: unescape rest'
        | [] => []
        end
      else c :: unescape rest
  end.

(** The 16-bit unit that two bytes stand for, the high byte first. *)
Definition unit_of (high low : ascii) : N :=
  N_of_ascii high * 256 + N_of_ascii low.

(** [b.decode('utf-16-be')]: a unit that is not a surrogate is a code
    point; a high surrogate and the low surrogate after it make a code
    point from U+10000 on; anything else does not decode. *)
Fixpoint decode_utf_16_be (b : bytes) : option text :=
  match b with
  | [] => Some []
  | high :: b1 =>
      match b1 with
      | [] => None
      | low :: rest =>
          let u := unit_of high low in
          if (0xD800 <=? u) && (u <? 0xDC00) then
            match rest with
            | high' :: low' :: rest' =>
                let u' := unit_of high' low' in
                if (0xDC00 <=? u') && (u' <? 0xE000) then
                  option_map
                    (cons (0x10000 + (u - 0xD800) * 1024 + (u' - 0xDC00)))
                    (decode_utf_16_be rest')
                else None
            | _ => None
            end
          else if (0xDC00 <=? u) && (u <? 0xE000) then None
          else option_map (cons u) (decode_utf_16_be rest)
      end
  end.

End Reader.

(** * Properties *)


(** ** Sequencing *)

Lemma sbind_returns {S A B} (m : stateful S A) (k : A -> stateful S B)
      (s s' : S) (a : A) :
  m s = (Return a, s') -> sbind m k s = k a s'.
Proof. intros H. unfold sbind. now rewrite H. Qed.

Lemma sbind_raises {S A B} (m : stateful S A) (k : A -> stateful S B)
      (s s' : S) (e : exn) :
  m s = (Raise e, s') -> sbind m k s = (Raise e, s').
Proof. intros H. unfold sbind. now rewrite H. Qed.

Lemma sbind_inv {S A B} (m : stateful S A) (k : A -> stateful S B)
      (s s' : S) (b : B) :
  sbind m k s = (Return b, s') ->
  exists a s1, m s = (Return a, s1) /\ k a s1 = (Return b, s').
Proof.
  unfold sbind. destruct (m s) as [[a|e] s1]; intros H.
  - now exists a, s1.
  - discriminate.
Qed.

(** ** The sample stores are what the constructor builds *)

Lemma cairo_store_is_built :
  PDFFile.__init__ (Samples.opened Samples.cairo_pdf)
  = (Return Samples.cairo_store, PDFFile.fileobj Samples.cairo_store).
Proof. vm_compute. reflexivity. Qed.

Lemma ten_object_store_is_built :
  PDFFile.__init__ (Samples.opened Samples.ten_object_pdf)
  = (Return Samples.ten_object_store,
     PDFFile.fileobj Samples.ten_object_store).
Proof. vm_compute. reflexivity. Qed.

(** ** What the formatter writes *)

Section Formatting.

Import PDFFormatter Layout.

Lemma text_of_bytes_app (a b : bytes) :
  text_of_bytes (a ++ b) = text_of_bytes a ++ text_of_bytes b.
Proof. apply map_app. Qed.

(** Text that came from bytes goes back to them. *)
Lemma encode_latin1_bytes (b : bytes) :
  Codec.encode_latin1 (text_of_bytes b) = Return b.
Proof.
  induction b as [|c b IH]; [reflexivity|].
  cbn [text_of_bytes map Codec.encode_latin1].
  fold (text_of_bytes b).
  pose proof (N_ascii_bounded c) as Hc.
  apply N.ltb_lt in Hc. rewrite Hc, IH. cbn [obind].
  now rewrite ascii_N_embedding.
Qed.

Lemma vformat_bytes fmt args kwargs ps (b : bytes) :
  read_format fmt None = Return ps ->
  format_pieces ps args kwargs = Return (text_of_bytes b) ->
  vformat fmt args kwargs = Return b.
Proof.
  intros Hps Hb. unfold vformat. rewrite Hps. cbn [obind].
  rewrite Hb. cbn [obind]. apply encode_latin1_bytes.
Qed.


End Formatting.

Ltac format_bytes :=
  unfold pdf_format;
  eapply vformat_bytes; [reflexivity|];
  rewrite ?text_of_bytes_app;
  repeat match goal with
         | n : option Z |- _ => destruct n
         end;
  reflexivity.

Section Templates.

Import PDFFormatter PDFFile Layout.

Lemma format_header (n : option Z) :
  pdf_format "{0} 0 obj\n" [value_of n] []
  = Return (decimal n ++ bs " 0 obj\n").
Proof. format_bytes. Qed.

Lemma format_overwritten (n : option Z) (offset : Z) :
  pdf_format "{0} 1\n{1:010} 00000 n \n" [value_of n; Int offset] []
  = Return (decimal n ++ bs " 1\n" ++ zero_padded offset
              ++ bs " 00000 n \n").
Proof. format_bytes. Qed.

Lemma format_new_header (first count : Z) :
  pdf_format "{0} {1}\n" [Int first; Int count] []
  = Return (Py.str_int first ++ bs " " ++ Py.str_int count ++ bs "\n").
Proof. format_bytes. Qed.

Lemma format_new (offset : Z) :
  pdf_format "{0:010} 00000 n \n" [Int offset] []
  = Return (zero_padded offset ++ bs " 00000 n \n").
Proof. format_bytes. Qed.

Lemma format_trailer (size prev new_startxref : Z) (root info : option Z) :
  pdf_format
    "trailer\n<< /Size {size} /Root {root} 0 R /Info {info} 0 R /Prev {prev} >>\nstartxref\n{startxref}\n%%EOF\n"
    []
    [("size"%string, Int size);
     ("root"%string, value_of root);
     ("info"%string, value_of info);
     ("prev"%string, Int prev);
     ("startxref"%string, Int new_startxref)]
  = Return (bs "trailer\n<< /Size " ++ Py.str_int size
              ++ bs " /Root " ++ decimal root
              ++ bs " 0 R /Info " ++ decimal info
              ++ bs " 0 R /Prev " ++ Py.str_int prev
              ++ bs " >>\nstartxref\n" ++ Py.str_int new_startxref
              ++ bs "\n%%EOF\n").
Proof. format_bytes. Qed.

End Templates.

(** ** Writing at the end of the file *)

Section Writing.

Import File PDFFile Layout.


Lemma seek_end (f : File.fileobj) :
  seek 0 SEEK_END f
  = (Return tt, {| data := data f; pos := length (data f) |}).
Proof.
  unfold seek. rewrite Z.add_0_r.
  destruct (Z.ltb_spec (Z.of_nat (length (data f))) 0) as [H|H]; [lia|].
  now rewrite Nat2Z.id.
Qed.

Lemma write_at_end (d b : bytes) :
  write b {| data := d; pos := length d |}
  = (Return tt, {| data := d ++ b; pos := length (d ++ b) |}).
Proof.
  unfold write. cbn [data pos].
  rewrite firstn_all, Nat.sub_diag, skipn_all2 by lia.
  cbn [repeat app]. now rewrite app_nil_r, length_app.
Qed.

Lemma appended_appended (a b : bytes) (s : t) :
  appended b (appended a s) = appended (a ++ b) s.
Proof.
  unfold appended, set_fileobj. cbn. now rewrite <- app_assoc.
Qed.

Lemma write_appended (a b : bytes) (s : t) :
  on_file (write b) (appended a s) = (Return tt, appended (a ++ b) s).
Proof.
  unfold on_file. cbn [appended fileobj set_fileobj].
  rewrite write_at_end. unfold appended, set_fileobj. cbn.
  now rewrite <- app_assoc.
Qed.

Lemma start_writing_open (s : t) :
  finished s = false ->
  _start_writing s = (Return (end_offset s), appended [] s).
Proof.
  intros Hopen.
  unfold _start_writing, sbind, get, lift, on_file, tell.
  rewrite Hopen. cbn [negb assert]. rewrite seek_end.
  unfold appended, end_offset, set_fileobj. cbn.
  now rewrite app_nil_r.
Qed.

Lemma start_writing_closed (s : t) :
  finished s = true ->
  _start_writing s = (Raise AssertionError, s).
Proof.
  intros Hclosed.
  unfold _start_writing, sbind, get, lift. now rewrite Hclosed.
Qed.

Lemma write_object_open (n : option Z) (b : bytes) (s : t) :
  finished s = false ->
  _write_object n b s
  = (Return (end_offset s), appended (object_bytes n b) s).
Proof.
  intros Hopen. unfold _write_object, sbind at 1.
  rewrite (start_writing_open s Hopen).
  unfold sbind, lift. rewrite format_header.
  rewrite !write_appended. unfold object_bytes.
  now rewrite !app_assoc.
Qed.

Lemma write_object_closed (n : option Z) (b : bytes) (s : t) :
  finished s = true ->
  _write_object n b s = (Raise AssertionError, s).
Proof.
  intros Hclosed. unfold _write_object, sbind at 1.
  now rewrite (start_writing_closed s Hclosed).
Qed.

Lemma overwrite_object_open (n : option Z) (b : bytes) (s : t) :
  finished s = false ->
  overwrite_object n b s
  = (Return tt,
     set_overwritten_objects_offsets
       (dict_set (overwritten_objects_offsets s) n (end_offset s))
       (appended (object_bytes n b) s)).
Proof.
  intros Hopen. unfold overwrite_object, sbind.
  now rewrite (write_object_open n b s Hopen).
Qed.

Lemma write_new_object_open (b : bytes) (s : t) :
  finished s = false ->
  let n := Z.of_nat (length (objects_offsets s))
           + Z.of_nat (length (new_objects_offsets s)) in
  write_new_object b s
  = (Return n,
     set_new_objects_offsets
       (new_objects_offsets s ++ [end_offset s])
       (appended (object_bytes (Some n) b) s)).
Proof.
  intros Hopen n. unfold write_new_object, sbind, next_object_number, get.
  fold n. now rewrite (write_object_open (Some n) b s Hopen).
Qed.


Lemma write_closed (a b : bytes) (s : t) :
  on_file (write b) (set_finished true (appended a s))
  = (Return tt, set_finished true (appended (a ++ b) s)).
Proof.
  unfold on_file. cbn [appended fileobj set_fileobj set_finished].
  rewrite write_at_end. unfold appended, set_fileobj, set_finished. cbn.
  now rewrite <- app_assoc.
Qed.

Lemma write_overwritten_closed (items : list (option Z * Z)) :
  forall (a : bytes) (s : t),
    write_overwritten items (set_finished true (appended a s))
    = (Return tt,
       set_finished true
         (appended (a ++ concat (map overwritten_subsection items)) s)).
Proof.
  induction items as [|[n offset] items IH]; intros a s.
  - cbn. now rewrite app_nil_r.
  - cbn [write_overwritten]. unfold sbind, lift at 1.
    rewrite format_overwritten, write_closed, IH.
    cbn [map concat]. unfold overwritten_subsection. cbn [fst snd].
    now rewrite <- !app_assoc.
Qed.

Lemma write_new_closed (offsets : list Z) :
  forall (first : Z) (a : bytes) (s : t),
    write_new (Py.enumerate offsets first)
              (set_finished true (appended a s))
    = (Return tt,
       set_finished true
         (appended (a ++ concat (map new_entry offsets)) s)).
Proof.
  induction offsets as [|offset offsets IH]; intros first a s.
  - cbn. now rewrite app_nil_r.
  - cbn [Py.enumerate write_new]. unfold sbind, lift at 1.
    rewrite format_new, write_closed, IH.
    cbn [map concat]. unfold new_entry.
    now rewrite <- !app_assoc.
Qed.

Lemma write_new_subsection_closed (offsets : list Z) (a : bytes) (s : t) :
  match offsets with
  | [] => lift (Return tt)
  | _ :: _ =>
      (first_new_object <-
         get (fun self => Z.of_nat (length (objects_offsets self))) ;;
       header <- lift (pdf_format "{0} {1}\n"
                         [PDFFormatter.Int first_new_object;
                          PDFFormatter.Int (Z.of_nat (length offsets))]
                         []) ;;
       on_file (write header) ;;
       write_new (Py.enumerate offsets first_new_object))%stateful
  end (set_finished true (appended a s))
  = (Return tt,
     set_finished true
       (appended
          (a ++ new_subsection (Z.of_nat (length (objects_offsets s)))
                               offsets) s)).
Proof.
  destruct offsets as [|offset offsets].
  - cbn. now rewrite app_nil_r.
  - erewrite sbind_returns by reflexivity.
    cbn [objects_offsets set_finished appended set_fileobj].
    rewrite format_new_header.
    erewrite sbind_returns by reflexivity.
    erewrite sbind_returns by apply write_closed.
    rewrite write_new_closed. unfold new_subsection.
    now rewrite <- !app_assoc.
Qed.

Lemma finish_open (s : t) :
  finished s = false ->
  finish s
  = (Return tt, set_finished true (appended (update_section s) s)).
Proof.
  intros Hopen. unfold finish.
  rewrite (sbind_returns _ _ _ _ _ (start_writing_open s Hopen)).
  erewrite sbind_returns by reflexivity.
  erewrite sbind_returns by apply write_closed.
  erewrite sbind_returns by reflexivity.
  erewrite sbind_returns by apply write_overwritten_closed.
  erewrite sbind_returns by reflexivity.
  cbn [new_objects_offsets overwritten_objects_offsets
       set_finished appended set_fileobj].
  erewrite sbind_returns by apply write_new_subsection_closed.
  unfold next_object_number.
  do 4 (erewrite sbind_returns by reflexivity).
  cbn [new_objects_offsets objects_offsets catalog info startxref
       set_finished appended set_fileobj].
  rewrite format_trailer.
  erewrite sbind_returns by reflexivity.
  rewrite write_closed. unfold update_section, trailer_bytes.
  cbn [app]. now rewrite <- !app_assoc.
Qed.

End Writing.


(** ** Sessions *)

Section Sessions.

Import File PDFFile Layout Session.

(** A call that returns on an open store has overwritten an object or
    written a new one; the store stays open. *)
Lemma extend_dict_returns (d : PDFDictionary.t) (c : bytes) (s s' : t) :
  extend_dict d c s = (Return tt, s') ->
  exists n b,
    overwrites (Extend d c) = Some (n, b)
    /\ overwrite_object n b s = (Return tt, s').
Proof.
  unfold extend_dict, overwrites.
  destruct (PDFDictionary.byte_string d) as [b0|]; [|discriminate].
  intros H. apply sbind_inv in H as (u & s1 & Hassert & H).
  unfold lift in Hassert. injection Hassert as _ Hs.
  rewrite <- Hs in H. eauto.
Qed.

Lemma fields_appended (b : bytes) (s : t) :
  finished (appended b s) = finished s
  /\ objects_offsets (appended b s) = objects_offsets s
  /\ startxref (appended b s) = startxref s
  /\ info (appended b s) = info s
  /\ catalog (appended b s) = catalog s
  /\ overwritten_objects_offsets (appended b s)
     = overwritten_objects_offsets s
  /\ new_objects_offsets (appended b s) = new_objects_offsets s
  /\ data (fileobj (appended b s)) = data (fileobj s) ++ b.
Proof. repeat split. Qed.

Lemma keys_dict_set (d : list (option Z * Z)) (k : option Z) (v : Z) :
  map fst (dict_set d k v) = add_key (map fst d) k.
Proof.
  unfold add_key, mentions.
  induction d as [|[k' x] d IH]; [reflexivity|].
  cbn [dict_set map fst existsb].
  assert (Hsym : objnum_eqb k k' = objnum_eqb k' k).
  { destruct k, k'; cbn; try reflexivity. apply Z.eqb_sym. }
  rewrite Hsym.
  destruct (objnum_eqb k' k); cbn [orb map fst]; [reflexivity|].
  rewrite IH. now destruct (existsb (objnum_eqb k) (map fst d)).
Qed.

Lemma consecutive_S (first : Z) (count : nat) :
  consecutive first (S count) = first :: consecutive (first + 1) count.
Proof.
  unfold consecutive. cbn [seq map]. rewrite Z.add_0_r. f_equal.
  rewrite <- seq_shift, map_map. apply map_ext. intros i. lia.
Qed.

Lemma end_offset_appended (b : bytes) (s : t) :
  end_offset (appended b s) = end_offset s + Z.of_nat (length b).
Proof.
  unfold end_offset. cbn [appended set_fileobj fileobj data].
  rewrite length_app. lia.
Qed.

Lemma overwrite_then (n : option Z) (b : bytes) (rest : list call)
      (s s1 s' : t) (ns : list Z) :
  finished s = false ->
  overwrite_object n b s = (Return tt, s1) ->
  session_effect rest s1 s' ns ->
  data (fileobj s') = data (fileobj s) ++ object_bytes n b
                        ++ copies rest (next_number s)
  /\ map fst (overwritten_objects_offsets s')
     = fold_left add_key (n :: overwritten_numbers rest)
                 (map fst (overwritten_objects_offsets s))
  /\ finished s' = false
  /\ objects_offsets s' = objects_offsets s
  /\ startxref s' = startxref s
  /\ info s' = info s
  /\ catalog s' = catalog s
  /\ length (new_objects_offsets s')
     = (length (new_objects_offsets s) + count_new rest)%nat
  /\ new_objects_offsets s'
     = new_objects_offsets s
         ++ new_offsets rest
              (end_offset s + Z.of_nat (length (object_bytes n b)))
              (next_number s)
  /\ ns = consecutive (next_number s) (count_new rest).
Proof.
  intros Hopen Hstep [].
  rewrite (overwrite_object_open n b s Hopen) in Hstep.
  injection Hstep as <-.
  change (end_offset (set_overwritten_objects_offsets ?d ?x))
    with (end_offset x) in *.
  rewrite end_offset_appended in *.
  unfold next_number in *.
  cbn [finished objects_offsets startxref info catalog fileobj data
       overwritten_objects_offsets new_objects_offsets fold_left
       set_overwritten_objects_offsets appended set_fileobj] in *.
  rewrite keys_dict_set in *.
  rewrite <- app_assoc in *. repeat split; assumption.
Qed.

Lemma run_effect (calls : list call) :
  forall (s s' : t) (ns : list Z),
    finished s = false ->
    run calls s = (Return ns, s') ->
    session_effect calls s s' ns.
Proof.
  induction calls as [|c rest IH]; intros s s' ns Hopen Hrun.
  - injection Hrun as <- <-. split; try reflexivity.
    + assumption.
    + cbn. now rewrite app_nil_r.
    + cbn. lia.
    + cbn. now rewrite app_nil_r.
  - destruct c as [n b|d c|b]; cbn [run] in Hrun.
    + apply sbind_inv in Hrun as ([] & s1 & Hstep & Hrun).
      assert (Hopen1 : finished s1 = false).
      { rewrite (overwrite_object_open n b s Hopen) in Hstep.
        now injection Hstep as <-. }
      specialize (IH _ _ _ Hopen1 Hrun).
      destruct (overwrite_then n b rest s s1 s' ns Hopen Hstep IH)
        as (? & ? & ? & ? & ? & ? & ? & ? & ? & ?).
      split; try assumption.
    + apply sbind_inv in Hrun as ([] & s1 & Hstep & Hrun).
      apply extend_dict_returns in Hstep as (n & b & Hov & Hstep).
      assert (Hopen1 : finished s1 = false).
      { rewrite (overwrite_object_open n b s Hopen) in Hstep.
        now injection Hstep as <-. }
      specialize (IH _ _ _ Hopen1 Hrun).
      destruct (overwrite_then n b rest s s1 s' ns Hopen Hstep IH)
        as (? & ? & ? & ? & ? & ? & ? & ? & ? & ?).
      split; try assumption.
      * cbn [copies]. now rewrite Hov.
      * unfold overwritten_numbers. cbn [flat_map]. now rewrite Hov.
      * cbn [new_offsets]. now rewrite Hov.
    + apply sbind_inv in Hrun as (n & s1 & Hstep & Hrun).
      apply sbind_inv in Hrun as (ns' & s2 & Hrun & Hret).
      injection Hret as <- <-.
      rewrite (write_new_object_open b s Hopen) in Hstep.
      injection Hstep as <- <-.
      match type of Hrun with
      | run rest ?s1 = _ =>
          assert (Hopen1 : finished s1 = false) by exact Hopen;
          destruct (IH _ _ _ Hopen1 Hrun)
      end.
      change (end_offset (set_new_objects_offsets ?d ?x))
        with (end_offset x) in *.
      rewrite end_offset_appended in *.
      unfold next_number in *.
      cbn [finished objects_offsets startxref info catalog fileobj data
           overwritten_objects_offsets new_objects_offsets
           set_new_objects_offsets appended set_fileobj
           copies new_offsets] in *.
      rewrite length_app in *. cbn [length] in *.
      replace (Z.of_nat (length (objects_offsets s))
               + Z.of_nat (length (new_objects_offsets s) + 1))
        with (Z.of_nat (length (objects_offsets s))
              + Z.of_nat (length (new_objects_offsets s)) + 1)
        in * by lia.
      split; try assumption.
      * now rewrite <- app_assoc in *.
      * unfold count_new in *. cbn [filter is_new length]. lia.
      * now rewrite <- app_assoc in *.
      * unfold count_new in *. cbn [filter is_new length].
        rewrite consecutive_S. now f_equal.
Qed.

Lemma objnum_eqb_eq (a b : option Z) : objnum_eqb a b = true <-> a = b.
Proof.
  destruct a as [x|], b as [y|]; cbn; split; intros H;
    try discriminate; try reflexivity.
  - apply Z.eqb_eq in H. now subst.
  - injection H as ->. apply Z.eqb_refl.
Qed.

Lemma objnum_eqb_refl (a : option Z) : objnum_eqb a a = true.
Proof. now apply objnum_eqb_eq. Qed.

Lemma mentions_In (k : option Z) (keys : list (option Z)) :
  mentions k keys = true <-> In k keys.
Proof.
  unfold mentions. rewrite existsb_exists. split.
  - intros (x & Hin & Heq). apply objnum_eqb_eq in Heq. now subst.
  - intros Hin. exists k. split; [exact Hin | apply objnum_eqb_refl].
Qed.

(** [first_occurrences] keeps every key, once. *)
Lemma add_keys_spec (keys : list (option Z)) :
  forall seen : list (option Z),
    NoDup seen ->
    NoDup (fold_left add_key keys seen)
    /\ forall k, In k (fold_left add_key keys seen)
                 <-> In k seen \/ In k keys.
Proof.
  induction keys as [|x keys IH]; intros seen Hseen; cbn [fold_left].
  - split; [exact Hseen|]. intros k. cbn. tauto.
  - assert (Hnext : NoDup (add_key seen x)
                    /\ forall k, In k (add_key seen x)
                                 <-> In k seen \/ k = x).
    { unfold add_key. destruct (mentions x seen) eqn:Hx.
      - apply mentions_In in Hx. split; [exact Hseen|].
        intros k. split; [tauto|]. intros [H| ->]; assumption.
      - split.
        + apply NoDup_app; [exact Hseen | repeat constructor; intros [] |].
          intros k Hk [<-|[]]. apply mentions_In in Hk. congruence.
        + intros k. rewrite in_app_iff. cbn. intuition congruence. }
    destruct Hnext as (Hnodup & Hin).
    destruct (IH _ Hnodup) as (IH1 & IH2). split; [exact IH1|].
    intros k. rewrite IH2, Hin. cbn. intuition congruence.
Qed.

(** C1.  On a store as the constructor leaves it, after any calls that
    returned, [finish] returns and has appended to the file, in order:
    the line [xref]; for each overwritten object number, once, in the
    order in which the numbers were first overwritten, a subsection of
    one entry; when new objects were written, one subsection that starts
    at the original object count and has one entry per new object, whose
    numbers are the consecutive ones that the [write_new_object] calls
    returned; the trailer, with [Size] the original object count plus the
    number of new objects, [Root] and [Info] the object numbers of the
    original catalog and information dictionary, [Prev] the original
    [startxref]; and [startxref] with the offset at which [xref] was
    written. *)
Theorem finish_appends_update_section :
  forall (calls : list call) (s0 s1 : t) (ns : list Z),
    fresh s0 ->
    run calls s0 = (Return ns, s1) ->
    let original := Z.of_nat (length (objects_offsets s0)) in
    let overwritten := map fst (overwritten_objects_offsets s1) in
    exists s2,
      finish s1 = (Return tt, s2)
      /\ data (fileobj s2)
         = data (fileobj s1)
             ++ bs "xref\n"
             ++ concat (map overwritten_subsection
                            (overwritten_objects_offsets s1))
             ++ new_subsection original (new_objects_offsets s1)
             ++ trailer_bytes
                  (original + Z.of_nat (count_new calls))
                  (PDFDictionary.object_number (catalog s0))
                  (PDFDictionary.object_number (info s0))
                  (startxref s0)
                  (Z.of_nat (length (data (fileobj s1))))
      /\ overwritten = first_occurrences (overwritten_numbers calls)
      /\ NoDup overwritten
      /\ (forall k, In k overwritten <-> In k (overwritten_numbers calls))
      /\ length (new_objects_offsets s1) = count_new calls
      /\ new_objects_offsets s1 = new_offsets calls (end_offset s0) original
      /\ ns = consecutive original (count_new calls).
Proof.
  intros calls s0 s1 ns (Hopen & Hdict & Hnew) Hrun original overwritten.
  destruct (run_effect calls s0 s1 ns Hopen Hrun) as
    [Hopen1 Hoff Hsx Hinfo Hcat _ Hkeys Hcount Hoffsets Hns].
  exists (set_finished true (appended (update_section s1) s1)).
  split; [apply finish_open; assumption|].
  rewrite Hdict in Hkeys. rewrite Hnew in Hcount, Hoffsets.
  unfold next_number in Hns, Hoffsets. rewrite Hnew in Hns, Hoffsets.
  cbn [length map app] in Hkeys, Hcount, Hns, Hoffsets.
  rewrite Z.add_0_r in Hns, Hoffsets.
  destruct (add_keys_spec (overwritten_numbers calls) [] (NoDup_nil _))
    as (Hnodup & Hin).
  fold (first_occurrences (overwritten_numbers calls)) in Hkeys, Hnodup, Hin.
  subst overwritten. rewrite Hkeys.
  split; [|split; [reflexivity|split; [exact Hnodup|split;
          [|split; [exact Hcount|split; [exact Hoffsets|exact Hns]]]]]].
  - cbn [appended set_finished set_fileobj fileobj data].
    unfold update_section, end_offset.
    rewrite Hoff, Hsx, Hinfo, Hcat, Hcount. reflexivity.
  - intros k. rewrite Hin. cbn. tauto.
Qed.

Lemma finish_appends_update_section_witness :
  fresh Samples.cairo_store
  /\ run sample_calls Samples.cairo_store = (Return [5; 6], sample_result)
  /\ exists s2,
       finish sample_result = (Return tt, s2)
       /\ skipn 683 (data (fileobj s2))
          = bs "xref\n4 1\n0000000430 00000 n \n1 1\n0000000545 00000 n \n"
              ++ bs "5 2\n0000000474 00000 n \n0000000637 00000 n \n"
              ++ bs "trailer\n<< /Size 7 /Root 1 0 R /Info 4 0 R /Prev 249 >>\n"
              ++ bs "startxref\n683\n%%EOF\n".
Proof.
  assert (Hfresh : fresh Samples.cairo_store) by (repeat split).
  assert (Hrun : run sample_calls Samples.cairo_store
                 = (Return [5; 6], sample_result))
    by (vm_compute; reflexivity).
  split; [exact Hfresh|]. split; [exact Hrun|].
  destruct (finish_appends_update_section
              sample_calls Samples.cairo_store sample_result [5; 6]
              Hfresh Hrun) as (s2 & Hfinish & Hdata & _).
  exists s2. split; [exact Hfinish|].
  rewrite Hdata. vm_compute. reflexivity.
Defined.

(** *** Overwriting the same object again *)

Lemma entries_dict_set_other (d : list (option Z * Z)) (k n : option Z)
      (v : Z) :
  objnum_eqb k n = false ->
  entries_for n (dict_set d k v) = entries_for n d.
Proof.
  intros Hkn. unfold entries_for.
  induction d as [|[k' x] d IH]; cbn.
  - now rewrite Hkn.
  - destruct (objnum_eqb k' k) eqn:Hk; cbn.
    + apply objnum_eqb_eq in Hk. subst k'. now rewrite Hkn.
    + now rewrite IH.
Qed.

Lemma entries_dict_set_same (d : list (option Z * Z)) (n : option Z)
      (v : Z) :
  distinct_keys d ->
  entries_for n (dict_set d n v) = [(n, v)].
Proof.
  unfold distinct_keys, entries_for.
  induction d as [|[k x] d IH]; intros Hd; cbn.
  - now rewrite objnum_eqb_refl.
  - destruct (objnum_eqb k n) eqn:Hk; cbn; rewrite Hk.
    + apply objnum_eqb_eq in Hk. subst k.
      specialize (Hd n). cbn in Hd. rewrite objnum_eqb_refl in Hd.
      cbn in Hd.
      destruct (filter _ d); [reflexivity | cbn in Hd; lia].
    + apply IH. intros m. specialize (Hd m). cbn in Hd.
      destruct (objnum_eqb k m); cbn in Hd; lia.
Qed.

Lemma distinct_dict_set (d : list (option Z * Z)) (k : option Z) (v : Z) :
  distinct_keys d -> distinct_keys (dict_set d k v).
Proof.
  intros Hd n. destruct (objnum_eqb k n) eqn:Hk.
  - apply objnum_eqb_eq in Hk. subst k.
    now rewrite entries_dict_set_same.
  - rewrite entries_dict_set_other by assumption. apply Hd.
Qed.

Lemma run_app (pre post : list call) :
  forall (s s' : t) (ns : list Z),
    run (pre ++ post) s = (Return ns, s') ->
    exists ns1 s1 ns2,
      run pre s = (Return ns1, s1)
      /\ run post s1 = (Return ns2, s')
      /\ ns = ns1 ++ ns2.
Proof.
  induction pre as [|c pre IH]; intros s s' ns Hrun.
  - exists [], s, ns. repeat split. exact Hrun.
  - destruct c as [n b|d c|b]; cbn [app run] in *.
    + apply sbind_inv in Hrun as (u & s1 & Hstep & Hrun).
      apply IH in Hrun as (ns1 & s2 & ns2 & H1 & H2 & ->).
      exists ns1, s2, ns2. repeat split; try assumption.
      now rewrite (sbind_returns _ _ _ _ _ Hstep).
    + apply sbind_inv in Hrun as (u & s1 & Hstep & Hrun).
      apply IH in Hrun as (ns1 & s2 & ns2 & H1 & H2 & ->).
      exists ns1, s2, ns2. repeat split; try assumption.
      now rewrite (sbind_returns _ _ _ _ _ Hstep).
    + apply sbind_inv in Hrun as (n & s1 & Hstep & Hrun).
      apply sbind_inv in Hrun as (ns' & s2 & Hrun & Hret).
      injection Hret as <- <-.
      apply IH in Hrun as (ns1 & s3 & ns2 & H1 & H2 & ->).
      exists (n :: ns1), s3, ns2. repeat split; try assumption.
      rewrite (sbind_returns _ _ _ _ _ Hstep).
      now rewrite (sbind_returns _ _ _ _ _ H1).
Qed.

(** The calls keep the keys distinct, and leave alone the items of a
    number that they do not overwrite. *)
Lemma run_entries (calls : list call) :
  forall (s s' : t) (ns : list Z),
    finished s = false ->
    run calls s = (Return ns, s') ->
    (distinct_keys (overwritten_objects_offsets s) ->
     distinct_keys (overwritten_objects_offsets s'))
    /\ forall n,
        (forall k, In k (overwritten_numbers calls) -> k <> n) ->
        entries_for n (overwritten_objects_offsets s')
        = entries_for n (overwritten_objects_offsets s).
Proof.
  assert (Hstep_ow :
            forall n b rest (s s1 s' : t) ns,
              finished s = false ->
              overwrite_object n b s = (Return tt, s1) ->
              (forall s s' ns,
                  finished s = false ->
                  run rest s = (Return ns, s') ->
                  (distinct_keys (overwritten_objects_offsets s) ->
                   distinct_keys (overwritten_objects_offsets s'))
                  /\ forall m,
                      (forall k, In k (overwritten_numbers rest) -> k <> m) ->
                      entries_for m (overwritten_objects_offsets s')
                      = entries_for m (overwritten_objects_offsets s)) ->
              run rest s1 = (Return ns, s') ->
              (distinct_keys (overwritten_objects_offsets s) ->
               distinct_keys (overwritten_objects_offsets s'))
              /\ forall m,
                  (forall k, In k (n :: overwritten_numbers rest) -> k <> m) ->
                  entries_for m (overwritten_objects_offsets s')
                  = entries_for m (overwritten_objects_offsets s)).
  { intros n b rest s s1 s' ns Hopen Hstep IH Hrun.
    rewrite (overwrite_object_open n b s Hopen) in Hstep.
    injection Hstep as <-.
    match type of Hrun with
    | run rest ?s1 = _ =>
        assert (Hopen1 : finished s1 = false) by exact Hopen
    end.
    destruct (IH _ _ _ Hopen1 Hrun) as [Hd He]. cbn in Hd, He. split.
    - intros H. apply Hd. now apply distinct_dict_set.
    - intros m Hm. rewrite He by (intros k Hk; apply Hm; now right).
      apply entries_dict_set_other.
      destruct (objnum_eqb n m) eqn:Hnm; [|reflexivity].
      apply objnum_eqb_eq in Hnm. exfalso. apply (Hm n); [now left|assumption]. }
  induction calls as [|c rest IH]; intros s s' ns Hopen Hrun.
  - injection Hrun as <- <-. split; [trivial|reflexivity].
  - destruct c as [n b|d c|b]; cbn [run] in Hrun.
    + apply sbind_inv in Hrun as ([] & s1 & Hstep & Hrun).
      exact (Hstep_ow n b rest s s1 s' ns Hopen Hstep IH Hrun).
    + apply sbind_inv in Hrun as ([] & s1 & Hstep & Hrun).
      apply extend_dict_returns in Hstep as (n & b & Hov & Hstep).
      unfold overwritten_numbers. cbn [flat_map]. rewrite Hov.
      exact (Hstep_ow n b rest s s1 s' ns Hopen Hstep IH Hrun).
    + apply sbind_inv in Hrun as (n & s1 & Hstep & Hrun).
      apply sbind_inv in Hrun as (ns' & s2 & Hrun & Hret).
      injection Hret as <- <-.
      rewrite (write_new_object_open b s Hopen) in Hstep.
      injection Hstep as <- <-.
      match type of Hrun with
      | run rest ?s1 = _ =>
          assert (Hopen1 : finished s1 = false) by exact Hopen
      end.
      exact (IH _ _ _ Hopen1 Hrun).
Qed.

Lemma run_returns (calls : list call) :
  forall s : t,
    finished s = false ->
    forallb well_formed calls = true ->
    exists ns s', run calls s = (Return ns, s').
Proof.
  induction calls as [|c rest IH]; intros s Hopen Hwf.
  - now exists [], s.
  - cbn [forallb] in Hwf. apply andb_prop in Hwf as [Hc Hrest].
    destruct c as [n b|d c|b]; cbn [run].
    + rewrite (sbind_returns _ _ _ _ _ (overwrite_object_open n b s Hopen)).
      apply IH; assumption.
    + cbn [well_formed] in Hc.
      destruct (PDFDictionary.byte_string d) as [b0|] eqn:Hb; [|discriminate].
      assert (Hext : extend_dict d c s
                     = overwrite_object
                         (PDFDictionary.object_number d)
                         (firstn (length b0 - 3) b0 ++ c ++ bs "\n>>\n") s).
      { unfold extend_dict. rewrite Hb, Hc. reflexivity. }
      rewrite (overwrite_object_open _ _ s Hopen) in Hext.
      rewrite (sbind_returns _ _ _ _ _ Hext). apply IH; assumption.
    + rewrite (sbind_returns _ _ _ _ _ (write_new_object_open b s Hopen)).
      match goal with
      | |- context [sbind (run rest) _ ?s1] =>
          destruct (IH s1 Hopen Hrest) as (ns & s' & Hrun)
      end.
      rewrite (sbind_returns _ _ _ _ _ Hrun). now eexists; eexists.
Qed.

(** C3, as the code has it.  On a store as the constructor leaves it,
    with [original] objects in its table (numbers 0 to [original - 1]),
    the [k]-th call of [write_new_object] returns [original - 1 + k]
    whatever other calls come between: the numbers increase by one from
    one call to the next.  When [original] is 10, three calls in a row
    return 10, 11 and 12, and [finish] then writes, between the line
    [xref] and the trailer, the one subsection [10 3] with the three
    offsets at which the three objects start, in the order of the
    calls. *)
Theorem new_numbers_follow_the_table :
  forall s0 : t,
    fresh s0 ->
    let original := Z.of_nat (length (objects_offsets s0)) in
    (forall (calls : list call) (ns : list Z) (s1 : t),
        run calls s0 = (Return ns, s1) ->
        length ns = count_new calls
        /\ forall (k : nat) (n : Z),
            nth_error ns k = Some n -> n = original - 1 + Z.of_nat (S k))
    /\ (original = 10 ->
        forall a b c : bytes,
        exists s3 s4,
          run [WriteNew a; WriteNew b; WriteNew c] s0
          = (Return [10; 11; 12], s3)
          /\ finish s3 = (Return tt, s4)
          /\ let first := end_offset s0 in
             let second :=
               first + Z.of_nat (length (object_bytes (Some 10) a)) in
             let third :=
               second + Z.of_nat (length (object_bytes (Some 11) b)) in
             data (fileobj s4)
             = data (fileobj s3)
                 ++ bs "xref\n"
                 ++ bs "10 3\n"
                 ++ new_entry first ++ new_entry second ++ new_entry third
                 ++ trailer_bytes 13
                      (PDFDictionary.object_number (catalog s0))
                      (PDFDictionary.object_number (info s0))
                      (startxref s0) (end_offset s3)).
Proof.
  intros s0 Hfresh original. pose proof Hfresh as (Hopen & Hdict & Hnew).
  assert (Hnext : next_number s0 = original).
  { unfold next_number. rewrite Hnew. cbn [length]. subst original. lia. }
  split.
  - intros calls ns s1 Hrun.
    destruct (run_effect calls s0 s1 ns Hopen Hrun)
      as [_ _ _ _ _ _ _ _ _ Hns].
    rewrite Hnext in Hns. subst ns. unfold consecutive.
    rewrite length_map, length_seq. split; [reflexivity|].
    intros k n Hk. rewrite nth_error_map in Hk.
    destruct (nth_error (seq 0 (count_new calls)) k) as [i|] eqn:Hi;
      [|discriminate].
    injection Hk as <-.
    pose proof (nth_error_nth _ _ 0%nat Hi) as Hnth.
    assert (Hlt : (k < count_new calls)%nat).
    { rewrite <- (length_seq (count_new calls) 0).
      apply nth_error_Some. now rewrite Hi. }
    rewrite seq_nth in Hnth by assumption. lia.
  - intros Hten a b c.
    destruct (run_returns [WriteNew a; WriteNew b; WriteNew c] s0 Hopen
                          eq_refl) as (ns & s3 & Hrun).
    destruct (run_effect _ s0 s3 ns Hopen Hrun)
      as [Hopen3 Hoff Hsx Hinfo Hcat _ Hkeys _ Hoffsets Hns].
    rewrite Hnext, Hten in Hns, Hoffsets.
    rewrite Hnew in Hoffsets. rewrite Hdict in Hkeys.
    cbn [app new_offsets] in Hoffsets.
    change (consecutive 10 (count_new [WriteNew a; WriteNew b; WriteNew c]))
      with [10; 11; 12] in Hns.
    subst ns. exists s3, (set_finished true (appended (update_section s3) s3)).
    split; [exact Hrun|]. split; [apply finish_open; exact Hopen3|].
    cbn [overwritten_numbers flat_map overwrites app fold_left map] in Hkeys.
    apply map_eq_nil in Hkeys.
    cbn [appended set_finished set_fileobj fileobj data].
    unfold update_section.
    rewrite Hkeys, Hoffsets, Hoff, Hsx, Hinfo, Hcat.
    fold original. rewrite Hten.
    unfold new_subsection. cbn [map concat].
    rewrite <- !app_assoc. reflexivity.
Qed.

Lemma new_numbers_follow_the_table_witness :
  fresh Samples.ten_object_store
  /\ Z.of_nat (length (objects_offsets Samples.ten_object_store)) = 10
  /\ exists s3 s4,
       run [WriteNew (bs "<< /A 1\n>>"); WriteNew (bs "<< /B 2\n>>");
            WriteNew (bs "<< /C 3\n>>")] Samples.ten_object_store
       = (Return [10; 11; 12], s3)
       /\ finish s3 = (Return tt, s4).
Proof.
  assert (Hfresh : fresh Samples.ten_object_store) by (repeat split).
  split; [exact Hfresh|]. split; [reflexivity|].
  destruct (proj2 (new_numbers_follow_the_table
                     Samples.ten_object_store Hfresh)
                  eq_refl
                  (bs "<< /A 1\n>>") (bs "<< /B 2\n>>") (bs "<< /C 3\n>>"))
    as (s3 & s4 & Hrun & Hfinish & _).
  exists s3, s4. split; [exact Hrun | exact Hfinish].
Defined.

(** C3 as it is written does not hold: on the store built from a file
    whose table lists ten objects, three calls of [write_new_object] in a
    row do not return 11, 12 and 13. *)
Lemma three_new_objects_are_not_11_12_13 :
  ~ (forall (f f' : File.fileobj) (s : t),
        __init__ f = (Return s, f') ->
        length (objects_offsets s) = 10%nat ->
        forall a b c : bytes,
          fst (run [WriteNew a; WriteNew b; WriteNew c] s)
          = Return [11; 12; 13]).
Proof.
  intros H.
  specialize (H _ _ _ ten_object_store_is_built eq_refl [] [] []).
  vm_compute in H. discriminate H.
Qed.

(** C9.  On a store as the constructor leaves it, take calls that
    returned, the last of those that overwrite object [n] being
    [overwrite_object(n, b)], whatever the calls before it (which may
    overwrite [n] any number of times) and after it.  Every call has
    appended its copy to the file; the dictionary of overwritten objects
    holds one item for [n], and its offset is where the copy of that last
    call starts; [finish] returns and writes one subsection per item of
    that dictionary. *)
Theorem last_overwrite_wins :
  forall (pre post : list call) (n : option Z) (b : bytes)
         (s0 s' : t) (ns : list Z),
    fresh s0 ->
    run (pre ++ Overwrite n b :: post) s0 = (Return ns, s') ->
    (forall k, In k (overwritten_numbers post) -> k <> n) ->
    exists ns1 s1 s2,
      run pre s0 = (Return ns1, s1)
      /\ data (fileobj s')
         = data (fileobj s0)
             ++ copies (pre ++ Overwrite n b :: post) (next_number s0)
      /\ data (fileobj s')
         = data (fileobj s1) ++ object_bytes n b
             ++ copies post (next_number s1)
      /\ entries_for n (overwritten_objects_offsets s')
         = [(n, Z.of_nat (length (data (fileobj s1))))]
      /\ finish s' = (Return tt, s2)
      /\ data (fileobj s2)
         = data (fileobj s')
             ++ bs "xref\n"
             ++ concat (map overwritten_subsection
                            (overwritten_objects_offsets s'))
             ++ new_subsection (Z.of_nat (length (objects_offsets s')))
                               (new_objects_offsets s')
             ++ trailer_bytes
                  (next_number s')
                  (PDFDictionary.object_number (catalog s'))
                  (PDFDictionary.object_number (info s'))
                  (startxref s') (end_offset s').
Proof.
  intros pre post n b s0 s' ns (Hopen & Hdict & Hnew) Hrun Hpost.
  destruct (run_effect _ s0 s' ns Hopen Hrun)
    as [Hopen' _ _ _ _ Hall _ _ _ _].
  apply run_app in Hrun as (ns1 & s1 & ns2 & Hpre & Hrest & ->).
  destruct (run_effect _ s0 s1 ns1 Hopen Hpre)
    as [Hopen1 _ _ _ _ _ _ _ _ _].
  destruct (run_effect _ s1 s' ns2 Hopen1 Hrest)
    as [_ _ _ _ _ Hlast _ _ _ _].
  exists ns1, s1, (set_finished true (appended (update_section s') s')).
  split; [exact Hpre|]. split; [exact Hall|]. split; [exact Hlast|].
  split; [|split; [apply finish_open; exact Hopen'|reflexivity]].
  destruct (run_entries pre s0 s1 ns1 Hopen Hpre) as [Hdistinct _].
  assert (Hd1 : distinct_keys (overwritten_objects_offsets s1)).
  { apply Hdistinct. rewrite Hdict. intros m. cbn. lia. }
  cbn [run] in Hrest.
  apply sbind_inv in Hrest as ([] & s1' & Hstep & Hrest).
  rewrite (overwrite_object_open n b s1 Hopen1) in Hstep.
  injection Hstep as <-.
  match type of Hrest with
  | run post ?x = _ =>
      assert (Hopen1' : finished x = false) by exact Hopen1;
      destruct (run_entries post x s' ns2 Hopen1' Hrest) as [_ Hkeep]
  end.
  rewrite (Hkeep n Hpost).
  cbn [overwritten_objects_offsets set_overwritten_objects_offsets].
  now rewrite entries_dict_set_same.
Qed.

Lemma last_overwrite_wins_witness :
  fresh Samples.cairo_store
  /\ run twice_calls Samples.cairo_store = (Return [5; 6], twice_result)
  /\ entries_for (Some 4) (overwritten_objects_offsets twice_result)
     = [(Some 4, 495)]
  /\ firstn 48 (skipn 495 (data (fileobj twice_result)))
     = bs "4 0 obj\n<< /Producer (second) >>\nendobj\n6 0 obj\n"
  /\ firstn 47 (skipn 430 (data (fileobj twice_result)))
     = bs "4 0 obj\n<< /Producer (first) >>\nendobj\n5 0 obj\n".
Proof.
  assert (Hfresh : fresh Samples.cairo_store) by (repeat split).
  assert (Hrun : run twice_calls Samples.cairo_store
                 = (Return [5; 6], twice_result))
    by (vm_compute; reflexivity).
  split; [exact Hfresh|]. split; [exact Hrun|].
  destruct (last_overwrite_wins
              [Overwrite (Some 4) (bs "<< /Producer (first) >>");
               WriteNew (bs "<< /A 1\n>>")]
              [WriteNew (bs "<< /B 2\n>>")]
              (Some 4) (bs "<< /Producer (second) >>")
              Samples.cairo_store twice_result [5; 6] Hfresh Hrun)
    as (ns1 & s1 & s2 & Hpre & _ & _ & Hentries & _).
  - intros k [].
  - split.
    + rewrite Hentries. vm_compute in Hpre.
      injection Hpre as _ <-. reflexivity.
    + split; vm_compute; reflexivity.
Defined.

(** *** After [finish] *)

(** C7.  Once [finish] has been called, [overwrite_object],
    [extend_dict], [write_new_object] and [finish] itself all raise, and
    leave the store and its file as they were. *)
Theorem store_is_closed_after_finish :
  forall (s s' : t) (r : outcome unit),
    finish s = (r, s') ->
    (forall n b, overwrite_object n b s' = (Raise AssertionError, s'))
    /\ (forall d c, exists e, extend_dict d c s' = (Raise e, s'))
    /\ (forall b, write_new_object b s' = (Raise AssertionError, s'))
    /\ finish s' = (Raise AssertionError, s').
Proof.
  intros s s' r Hfinish.
  assert (Hclosed : finished s' = true).
  { destruct (finished s) eqn:Hs.
    - unfold finish in Hfinish.
      rewrite (sbind_raises _ _ _ _ _ (start_writing_closed s Hs)) in Hfinish.
      now injection Hfinish as _ <-.
    - rewrite (finish_open s Hs) in Hfinish. now injection Hfinish as _ <-. }
  assert (Hoverwrite :
            forall n b, overwrite_object n b s' = (Raise AssertionError, s')).
  { intros n b. unfold overwrite_object.
    now rewrite (sbind_raises _ _ _ _ _ (write_object_closed n b s' Hclosed)). }
  split; [exact Hoverwrite|]. split; [|split].
  - intros d c. unfold extend_dict.
    destruct (PDFDictionary.byte_string d) as [b0|].
    + destruct (endswith b0 (bs ">>\n")).
      * exists AssertionError. cbn [assert].
        erewrite sbind_returns by reflexivity. apply Hoverwrite.
      * exists AssertionError. reflexivity.
    + exists AttributeError. reflexivity.
  - intros b. unfold write_new_object.
    erewrite sbind_returns by reflexivity.
    now rewrite (sbind_raises _ _ _ _ _
                   (write_object_closed _ b s' Hclosed)).
  - unfold finish.
    now rewrite (sbind_raises _ _ _ _ _ (start_writing_closed s' Hclosed)).
Qed.

Lemma store_is_closed_after_finish_witness :
  exists s' : t,
    finish Samples.cairo_store = (Return tt, s')
    /\ finish s' = (Raise AssertionError, s')
    /\ write_new_object (bs "<< /A 1\n>>") s' = (Raise AssertionError, s').
Proof.
  assert (Hfinish :
            finish Samples.cairo_store
            = (Return tt,
               set_finished true
                 (appended (update_section Samples.cairo_store)
                           Samples.cairo_store)))
    by (apply finish_open; reflexivity).
  eexists. split; [exact Hfinish|].
  destruct (store_is_closed_after_finish _ _ _ Hfinish)
    as (_ & _ & Hnew & Hagain).
  split; [exact Hagain | apply Hnew].
Defined.

End Sessions.

(** ** UTF-16BE, encoded and decoded *)

Section Utf16.

Import Reader.
Local Open Scope N_scope.

Lemma unit_of_two_bytes (u : N) :
  u < 65536 ->
  forall rest, exists high low,
    Codec.two_bytes u ++ rest = high :: low :: rest
    /\ unit_of high low = u.
Proof.
  intros Hu rest. unfold Codec.two_bytes.
  exists (ascii_of_N (u / 256)), (ascii_of_N (u mod 256)).
  split; [reflexivity|]. unfold unit_of.
  assert (Hq : u / 256 < 256)
    by (apply N.Div0.div_lt_upper_bound; lia).
  assert (Hr : u mod 256 < 256) by (apply N.mod_lt; lia).
  rewrite !N_ascii_embedding by assumption.
  pose proof (N.div_mod u 256 ltac:(lia)). lia.
Qed.

Lemma decode_step (high low : ascii) (rest : bytes) :
  decode_utf_16_be (high :: low :: rest)
  = if (0xD800 <=? unit_of high low) && (unit_of high low <? 0xDC00) then
      match rest with
      | high' :: low' :: rest' =>
          if (0xDC00 <=? unit_of high' low') && (unit_of high' low' <? 0xE000)
          then
            option_map
              (cons (0x10000 + (unit_of high low - 0xD800) * 1024
                     + (unit_of high' low' - 0xDC00)))
              (decode_utf_16_be rest')
          else None
      | _ => None
      end
    else if (0xDC00 <=? unit_of high low) && (unit_of high low <? 0xE000)
         then None
         else option_map (cons (unit_of high low)) (decode_utf_16_be rest).
Proof. reflexivity. Qed.

(** One code point, encoded and decoded. *)
Lemma decode_encoded_char (c : N) (b rest : bytes) :
  Codec.encode_utf_16_be_char c = Return b ->
  decode_utf_16_be (b ++ rest)
  = option_map (cons c) (decode_utf_16_be rest).
Proof.
  unfold Codec.encode_utf_16_be_char.
  destruct (N.ltb_spec c 0xD800) as [Hlow|Hlow].
  { intros H. injection H as <-.
    destruct (unit_of_two_bytes c ltac:(lia) rest)
      as (high & low & -> & Hu).
    rewrite decode_step, Hu.
    destruct (N.leb_spec 0xD800 c); [lia|]. cbn [andb].
    destruct (N.leb_spec 0xDC00 c); [lia|]. reflexivity. }
  destruct (N.ltb_spec c 0xE000) as [Hsur|Hsur]; [discriminate|].
  destruct (N.ltb_spec c 0x10000) as [Hbmp|Hbmp].
  { intros H. injection H as <-.
    destruct (unit_of_two_bytes c ltac:(lia) rest)
      as (high & low & -> & Hu).
    rewrite decode_step, Hu.
    destruct (N.leb_spec 0xD800 c); [|lia].
    destruct (N.ltb_spec c 0xDC00); [lia|]. cbn [andb].
    destruct (N.leb_spec 0xDC00 c); [|lia].
    destruct (N.ltb_spec c 0xE000); [lia|]. reflexivity. }
  destruct (N.ltb_spec c 0x110000) as [Hmax|Hmax]; [|discriminate].
  cbv zeta. set (v := c - 0x10000). intros H.
  assert (Hb : b = Codec.two_bytes (0xD800 + v / 1024)
                     ++ Codec.two_bytes (0xDC00 + v mod 1024))
    by congruence.
  clear H. subst b.
  assert (Hq : v / 1024 < 1024)
    by (apply N.Div0.div_lt_upper_bound; unfold v; lia).
  assert (Hr : v mod 1024 < 1024) by (apply N.mod_lt; lia).
  pose proof (N.div_mod v 1024 ltac:(lia)) as Hv.
  rewrite <- app_assoc.
  destruct (unit_of_two_bytes (0xD800 + v / 1024) ltac:(lia)
              (Codec.two_bytes (0xDC00 + v mod 1024) ++ rest))
    as (high & low & -> & Hu).
  destruct (unit_of_two_bytes (0xDC00 + v mod 1024) ltac:(lia) rest)
    as (high' & low' & -> & Hu').
  rewrite decode_step, Hu, Hu'.
  assert (Hc : c = 0x10000 + v) by (unfold v; lia).
  clearbody v.
  set (q := v / 1024) in *. set (r := v mod 1024) in *. clearbody q r.
  destruct (N.leb_spec 0xD800 (0xD800 + q)); [|lia].
  destruct (N.ltb_spec (0xD800 + q) 0xDC00); [|lia].
  destruct (N.leb_spec 0xDC00 (0xDC00 + r)); [|lia].
  destruct (N.ltb_spec (0xDC00 + r) 0xE000); [|lia].
  cbn [andb]. do 2 f_equal. lia.
Qed.

Lemma decode_encoded (s : text) :
  forall e : bytes,
    Codec.encode_utf_16_be s = Return e ->
    decode_utf_16_be e = Some s.
Proof.
  induction s as [|c s IH]; intros e H; cbn [Codec.encode_utf_16_be] in H.
  - now injection H as <-.
  - destruct (Codec.encode_utf_16_be_char c) as [b|] eqn:Hb;
      [|discriminate].
    cbn [obind] in H.
    destruct (Codec.encode_utf_16_be s) as [e'|]; [|discriminate].
    cbn [obind] in H. injection H as <-.
    rewrite (decode_encoded_char _ _ _ Hb), (IH e' eq_refl). reflexivity.
Qed.

End Utf16.

(** ** String literals *)

Section Literals.

Import PDFFormatter Literal.

Lemma translate_escapes (e : bytes) :
  Codec.translate escapes (Codec.decode_latin1 e)
  = text_of_bytes (escaped e).
Proof.
  unfold Codec.decode_latin1, escaped.
  induction e as [|c e IH]; [reflexivity|].
  cbn [text_of_bytes map Codec.translate flat_map].
  rewrite text_of_bytes_app. unfold Codec.translate in IH.
  fold (text_of_bytes e). rewrite IH. f_equal.
  destruct c as [[] [] [] [] [] [] [] []]; reflexivity.
Qed.

Lemma scalar_encodes (c : N) :
  scalar c -> exists b, Codec.encode_utf_16_be_char c = Return b.
Proof.
  intros [Hrange Hmax]. unfold Codec.encode_utf_16_be_char.
  destruct (N.ltb_spec c 0xD800); [eauto|].
  destruct (N.ltb_spec c 0xE000); [lia|].
  destruct (N.ltb_spec c 0x10000); [eauto|].
  destruct (N.ltb_spec c 0x110000); [eauto|lia].
Qed.

Lemma scalars_encode (s : text) :
  Forall scalar s -> exists e, Codec.encode_utf_16_be s = Return e.
Proof.
  induction 1 as [|c s Hc _ (e & He)]; [now exists []|].
  destruct (scalar_encodes c Hc) as (b & Hb).
  exists (b ++ e). cbn [Codec.encode_utf_16_be]. now rewrite Hb, He.
Qed.

(** C8.  For a text string [s] of Unicode scalar values there are bytes
    [e] that are the UTF-16BE encoding of the byte-order mark U+FEFF
    followed by [s]: read two by two as 16-bit units, high byte first,
    surrogate pairs put together, they give U+FEFF and then [s], and
    they are what the codec returns.  The [!P] conversion makes the
    formatter produce an opening parenthesis, then [e] with a backslash
    before each byte 0x28, 0x29 and 0x5C and every other byte as it is,
    then a closing parenthesis. *)
Theorem P_conversion_escapes_utf_16 :
  forall s : text,
    Forall scalar s ->
    exists e : bytes,
      Reader.decode_utf_16_be e = Some (0xFEFF%N :: s)
      /\ Codec.encode_utf_16_be (0xFEFF%N :: s) = Return e
      /\ convert_field (Str s) P
         = Return (Str (text_of_bytes (bs "(" ++ escaped e ++ bs ")")))
      /\ pdf_format "{0!P}" [Str s] []
         = Return (bs "(" ++ escaped e ++ bs ")").
Proof.
  intros s Hs.
  assert (Hbom : Forall scalar (0xFEFF%N :: s)).
  { constructor; [|exact Hs]. unfold scalar. lia. }
  destruct (scalars_encode _ Hbom) as (e & He).
  exists e. split; [now apply decode_encoded|]. split; [exact He|].
  assert (Hconv : convert_field (Str s) P
                  = Return (Str (text_of_bytes
                                   (bs "(" ++ escaped e ++ bs ")")))).
  { unfold convert_field. rewrite He. cbn [obind].
    rewrite translate_escapes, !text_of_bytes_app. reflexivity. }
  split; [exact Hconv|].
  unfold pdf_format. eapply vformat_bytes; [vm_compute; reflexivity|].
  cbn [format_pieces get_value nth_error obind].
  rewrite Hconv. cbn [obind format_field]. now rewrite app_nil_r.
Qed.

Lemma P_conversion_escapes_utf_16_witness :
  Forall scalar [0x41; 0x28; 0x1F600; 0x5C29]%N
  /\ exists e : bytes,
       e = ["254"; "255"; "000"; "A"; "000"; "("; "216"; "="; "222"; "000";
            "\"; ")"]%char
       /\ Reader.decode_utf_16_be e
          = Some [0xFEFF; 0x41; 0x28; 0x1F600; 0x5C29]%N
       /\ Codec.encode_utf_16_be [0xFEFF; 0x41; 0x28; 0x1F600; 0x5C29]%N
          = Return e
       /\ pdf_format "{0!P}" [Str [0x41; 0x28; 0x1F600; 0x5C29]%N] []
          = Return (bs "(" ++ escaped e ++ bs ")").
Proof.
  assert (Hs : Forall scalar [0x41; 0x28; 0x1F600; 0x5C29]%N)
    by (repeat constructor; unfold scalar; lia).
  split; [exact Hs|].
  destruct (P_conversion_escapes_utf_16 _ Hs)
    as (e & Hdecode & He & _ & Hformat).
  exists e. split; [|split; [exact Hdecode|split; [exact He|exact Hformat]]].
  assert (Hbytes : Codec.encode_utf_16_be
                     [0xFEFF; 0x41; 0x28; 0x1F600; 0x5C29]%N
                   = Return ["254"; "255"; "000"; "A"; "000"; "("; "216";
                             "="; "222"; "000"; "\"; ")"]%char)
    by reflexivity.
  rewrite Hbytes in He. now injection He.
Defined.

(** The same example, byte by byte. *)
Example P_conversion_sample :
  pdf_format "{0!P}" [Str [0x41; 0x28; 0x1F600; 0x5C29]%N] []
  = Return ["("; "254"; "255"; "000"; "A"; "000"; "\"; "("; "216"; "=";
            "222"; "000"; "\"; "\"; "\"; ")"; ")"]%char.
Proof. reflexivity. Qed.

End Literals.

(** ** Construction *)

Section Construction.

Import File PDFFile Literal.

Lemma strip_prefix_app (p b rest : bytes) :
  strip_prefix p b = Some rest -> b = p ++ rest.
Proof.
  revert b. induction p as [|x p IH]; intros b H.
  - now injection H as ->.
  - destruct b as [|y b]; [discriminate|]. cbn in H.
    destruct (Ascii.eqb x y) eqn:Hxy; [|discriminate].
    apply Ascii.eqb_eq in Hxy. subst y. cbn. f_equal. now apply IH.
Qed.

(** A match of a pattern that starts with literal bytes is at an
    occurrence of those bytes. *)
Lemma search_occurs (lit : bytes) (p : Re.pattern) (b : bytes)
      (groups : list bytes) :
  Re.search (Re.Lit lit :: p) b = Some groups ->
  exists i, occurs_at lit b i.
Proof.
  induction b as [|c b IH]; cbn [Re.search Re.match_here]; intros H.
  - destruct (strip_prefix lit []) as [rest|] eqn:Hp; [|discriminate].
    exists 0%nat. unfold occurs_at. apply strip_prefix_app in Hp.
    rewrite Hp. cbn [skipn]. now rewrite firstn_app, Nat.sub_diag, firstn_all,
      firstn_O, app_nil_r.
  - destruct (strip_prefix lit (c :: b)) as [rest|] eqn:Hp.
    + exists 0%nat. unfold occurs_at. apply strip_prefix_app in Hp.
      rewrite Hp. cbn [skipn].
      now rewrite firstn_app, Nat.sub_diag, firstn_all, firstn_O, app_nil_r.
    + destruct (IH H) as (i & Hi). exists (S i). exact Hi.
Qed.

(** A store that the constructor returns is open, with nothing
    overwritten and nothing new, and holds the file as the constructor
    left it. *)
Lemma constructed_store_is_fresh (f f' : File.fileobj) (s : t) :
  __init__ f = (Return s, f') ->
  Session.fresh s /\ fileobj s = f'.
Proof.
  unfold __init__. intros H.
  apply sbind_inv in H as (u & f0 & _ & H).
  apply sbind_inv in H as (tail & f1 & _ & H).
  destruct (Re.search trailer_re tail) as [[|trailer [|sx [|? ?]]]|];
    try discriminate.
  apply sbind_inv in H as (sxn & f2 & _ & H).
  apply sbind_inv in H as (u2 & f3 & _ & H).
  apply sbind_inv in H as (line & f4 & _ & H).
  apply sbind_inv in H as (u3 & f5 & _ & H).
  apply sbind_inv in H as (line2 & f6 & _ & H).
  destruct (Py.split line2) as [|first [|total [|? ?]]]; try discriminate.
  apply sbind_inv in H as (u4 & f7 & _ & H).
  apply sbind_inv in H as (totaln & f8 & _ & H).
  apply sbind_inv in H as (line3 & f9 & _ & H).
  apply sbind_inv in H as (u5 & f10 & _ & H).
  apply sbind_inv in H as (offsets & f11 & _ & H).
  apply sbind_inv in H as (i & f12 & _ & H).
  apply sbind_inv in H as (c & f13 & _ & H).
  apply sbind_inv in H as (pt & f14 & _ & H).
  apply sbind_inv in H as (ps & f15 & _ & H).
  apply sbind_inv in H as (flat & f16 & _ & H).
  apply sbind_inv in H as (u6 & f17 & _ & H).
  injection H as <- <-. repeat split.
Qed.


Lemma no_occurrence_from (p d : bytes) (k : nat) :
  forallb (fun i => negb (bytes_eqb (firstn (length p) (skipn i d)) p))
          (seq k (length d - k)) = true ->
  p <> [] ->
  forall i, occurs_at p d i -> (i < k)%nat.
Proof.
  intros Hall Hp i Hi.
  destruct (Nat.lt_ge_cases i k) as [Hlt|Hge]; [exact Hlt|exfalso].
  destruct (Nat.lt_ge_cases i (length d)) as [Hin|Hout].
  - rewrite forallb_forall in Hall.
    assert (Hseq : In i (seq k (length d - k))) by (apply in_seq; lia).
    specialize (Hall _ Hseq). unfold occurs_at in Hi. rewrite Hi in Hall.
    assert (Hrefl : bytes_eqb p p = true).
    { clear. induction p as [|c p IH]; [reflexivity|].
      cbn. now rewrite Ascii.eqb_refl, IH. }
    rewrite Hrefl in Hall. discriminate.
  - unfold occurs_at in Hi. rewrite skipn_all2, firstn_nil in Hi by lia.
    now apply Hp.
Qed.



End Construction.

(** ** Reading from a file that has grown *)

Section GrownFile.

Import File PDFFile Layout Literal.

Lemma lines_complete (l0 rest : bytes) :
  ~ In LF l0 ->
  Py.lines ((l0 ++ [LF]) ++ rest) = (l0 ++ [LF]) :: Py.lines rest.
Proof.
  induction l0 as [|c l0 IH]; intros Hno.
  - reflexivity.
  - cbn [app Py.lines].
    destruct (Ascii.eqb c LF) eqn:Hc.
    + apply Ascii.eqb_eq in Hc. exfalso. apply Hno. now left.
    + cbn [app] in IH. rewrite IH; [reflexivity|].
      intros Hin. apply Hno. now right.
Qed.

(** The first line of a content: complete and followed by the lines of
    the rest, or the whole content when no line feed ends it. *)
Lemma lines_first (x l : bytes) (ls : list bytes) :
  Py.lines x = l :: ls ->
  (complete l /\ exists x', x = l ++ x' /\ Py.lines x' = ls)
  \/ (x = l /\ ls = [] /\ ~ In LF l).
Proof.
  revert l ls. induction x as [|c x IH]; intros l ls H; [discriminate|].
  cbn [Py.lines] in H. destruct (Ascii.eqb c LF) eqn:Hc.
  - apply Ascii.eqb_eq in Hc. subst c. injection H as <- <-. left. split.
    + exists []. split; [reflexivity|]. intros [].
    + now exists x.
  - assert (Hne : c <> LF) by (intros ->; now rewrite Ascii.eqb_refl in Hc).
    destruct (Py.lines x) as [|l' ls'] eqn:Hx.
    + injection H as <- <-. right. destruct x as [|c' x].
      * repeat split. intros [Hin|[]]. now apply Hne.
      * exfalso. cbn [Py.lines] in Hx.
        destruct (Ascii.eqb c' LF); [discriminate|].
        destruct (Py.lines x); discriminate.
    + injection H as <- <-.
      destruct (IH _ _ eq_refl) as [[(l0 & -> & Hno) (x' & -> & Hx')]
                                   |(-> & -> & Hno)].
      * left. split.
        -- exists (c :: l0). split; [reflexivity|].
           intros [Hin|Hin]; [now apply Hne | now apply Hno].
        -- now exists x'.
      * right. repeat split. intros [Hin|Hin]; [now apply Hne | now apply Hno].
Qed.

Lemma complete_lines_app (x l : bytes) (ls : list bytes) (t : bytes) :
  Py.lines x = l :: ls ->
  complete l ->
  exists x', x = l ++ x' /\ Py.lines x' = ls
             /\ Py.lines (x ++ t) = l :: Py.lines (x' ++ t).
Proof.
  intros Hx (l0 & -> & Hno).
  destruct (lines_first _ _ _ Hx) as [[_ (x' & -> & Hx')]|(-> & -> & Hno')].
  - exists x'. repeat split; [assumption|].
    rewrite <- app_assoc. now apply lines_complete.
  - exfalso. apply Hno'. apply in_or_app. right. now left.
Qed.

Lemma bytes_eqb_eq (a b : bytes) : bytes_eqb a b = true -> a = b.
Proof.
  revert b. induction a as [|x a IH]; intros [|y b] H; try discriminate.
  - reflexivity.
  - cbn in H. apply andb_prop in H as [Hxy Hab].
    apply Ascii.eqb_eq in Hxy. subst y. f_equal. now apply IH.
Qed.

Lemma endswith_complete (l : bytes) (ls : list bytes) (x suffix0 : bytes) :
  Py.lines x = l :: ls ->
  endswith l (suffix0 ++ [LF]) = true ->
  complete l.
Proof.
  intros Hx Hend.
  destruct (lines_first _ _ _ Hx) as [[Hc _]|(-> & -> & Hno)];
    [exact Hc|exfalso].
  unfold endswith in Hend. apply andb_prop in Hend as [Heq Hlen].
  apply bytes_eqb_eq in Heq. apply Hno.
  rewrite <- (firstn_skipn (length l - length (suffix0 ++ [LF])) l).
  apply in_or_app. right. rewrite Heq. apply in_or_app. right. now left.
Qed.

Lemma skipn_line (d l x' t : bytes) (p : nat) :
  skipn p d = l ++ x' ->
  l <> [] ->
  skipn (p + length l) d = x'
  /\ skipn (p + length l) (d ++ t) = x' ++ t
  /\ skipn p (d ++ t) = (l ++ x') ++ t.
Proof.
  intros Hskip Hl.
  assert (Hlen : (p + length l + length x' = length d)%nat).
  { pose proof (f_equal (@length ascii) Hskip) as H.
    rewrite length_skipn, length_app in H.
    destruct l; [contradiction|]. cbn [length] in *. lia. }
  assert (Hx : skipn (p + length l) d = x').
  { rewrite Nat.add_comm, <- skipn_skipn, Hskip, skipn_app.
    now rewrite skipn_all, Nat.sub_diag. }
  repeat split.
  - exact Hx.
  - rewrite skipn_app, Hx.
    now replace (p + length l - length d)%nat with 0%nat by lia.
  - rewrite skipn_app, Hskip.
    now replace (p - length d)%nat with 0%nat by lia.
Qed.

Lemma complete_not_nil (l : bytes) : complete l -> l <> [].
Proof. intros (l0 & -> & _). now destruct l0. Qed.

(** The loop of [read_object] finds the same body when the file has
    grown by [t]. *)
Lemma read_lines_extends (t : bytes) (ls : list bytes) :
  forall (x d : bytes) (p : nat) (acc : list bytes) (body : bytes)
         (f1 : File.fileobj),
    skipn p d = x ->
    Py.lines x = ls ->
    read_lines ls acc {| data := d; pos := p |}
    = (Return (Some body), f1) ->
    read_lines (Py.lines (x ++ t)) acc {| data := d ++ t; pos := p |}
    = (Return (Some body), {| data := d ++ t; pos := pos f1 |}).
Proof.
  induction ls as [|line rest IH]; intros x d p acc body f1 Hskip Hx Hread.
  - discriminate.
  - cbn [read_lines data pos] in Hread.
    assert (Hcomplete : complete line).
    { destruct (bytes_eqb line (bs ">>\n")) eqn:Hclose.
      - apply bytes_eqb_eq in Hclose. subst line.
        exists (bs ">>"). split; [reflexivity|].
        intros [H|[H|[]]]; discriminate.
      - destruct (lines_first _ _ _ Hx) as [[Hc _]|(_ & -> & _)];
          [exact Hc | discriminate]. }
    destruct (complete_lines_app _ _ _ t Hx Hcomplete)
      as (x' & -> & Hx' & Hlines).
    destruct (skipn_line d line x' t p Hskip (complete_not_nil _ Hcomplete))
      as (Hd & Hdt & _).
    rewrite Hlines. cbn [read_lines data pos].
    destruct (bytes_eqb line (bs ">>\n")) eqn:Hclose.
    + unfold sbind, next, lift in Hread |- *. cbn [data pos] in Hread |- *.
      rewrite Hd, Hx' in Hread. rewrite Hdt.
      destruct rest as [|line' rest']; [discriminate|].
      destruct (bytes_eqb line' (bs "endobj\n")) eqn:Hend;
        [|discriminate].
      assert (Hc' : complete line').
      { apply bytes_eqb_eq in Hend. subst line'.
        exists (bs "endobj"). split; [reflexivity|].
        intros [H|[H|[H|[H|[H|[H|[]]]]]]]; discriminate. }
      destruct (complete_lines_app _ _ _ t Hx' Hc') as (x'' & _ & _ & ->).
      rewrite Hend. cbn [assert] in Hread |- *.
      injection Hread as <- <-. reflexivity.
    + exact (IH x' d (p + length line)%nat _ body f1 Hd Hx' Hread).
Qed.

Lemma lift_inv {S A} (o : outcome A) (a : A) (s s' : S) :
  lift o s = (Return a, s') -> o = Return a /\ s' = s.
Proof. unfold lift. intros H. now injection H as -> ->. Qed.

Lemma read_object_at_extends (offsets : list (option Z)) (n : Z)
      (d t : bytes) (p p' : nat) (body : bytes) (f1 : File.fileobj) :
  read_object_at offsets n {| data := d; pos := p |}
  = (Return (Some body), f1) ->
  read_object_at offsets n {| data := d ++ t; pos := p' |}
  = (Return (Some body), {| data := d ++ t; pos := pos f1 |}).
Proof.
  unfold read_object_at. intros H.
  apply sbind_inv in H as (o & f0 & Hindex & H).
  apply lift_inv in Hindex as (Hindex & ->).
  rewrite Hindex. erewrite sbind_returns by reflexivity.
  destruct o as [offset|]; [|discriminate].
  apply sbind_inv in H as ([] & f0 & Hseek & H).
  unfold seek in Hseek. cbn [data pos] in Hseek.
  destruct (offset <? 0) eqn:Hneg; [discriminate|].
  injection Hseek as <-.
  assert (Hseek' : seek offset SEEK_SET {| data := d ++ t; pos := p' |}
                   = (Return tt,
                      {| data := d ++ t; pos := Z.to_nat offset |})).
  { unfold seek. cbn [data pos]. now rewrite Hneg. }
  rewrite (sbind_returns _ _ _ _ _ Hseek').
  apply sbind_inv in H as (line & f0 & Hnext & H).
  unfold next in Hnext. cbn [data pos] in Hnext.
  destruct (Py.lines (skipn (Z.to_nat offset) d)) as [|l rest] eqn:Hx;
    [discriminate|].
  injection Hnext as <- <-.
  apply sbind_inv in H as ([] & f0 & Hend & H).
  apply lift_inv in Hend as (Hend & ->).
  destruct (endswith l (bs " 0 obj\n")) eqn:Hends; [|discriminate].
  assert (Hc : complete l)
    by exact (endswith_complete _ _ _ (bs " 0 obj") Hx Hends).
  destruct (complete_lines_app _ _ _ t Hx Hc) as (x' & Hskip & Hx' & Hlines).
  destruct (skipn_line d l x' t _ Hskip (complete_not_nil _ Hc))
    as (Hd & Hdt & Hdt0).
  assert (Hnext' : next {| data := d ++ t; pos := Z.to_nat offset |}
                   = (Return l,
                      {| data := d ++ t;
                         pos := Z.to_nat offset + length l |})).
  { unfold next. cbn [data pos]. now rewrite Hdt0, <- Hskip, Hlines. }
  rewrite (sbind_returns _ _ _ _ _ Hnext').
  rewrite Hends. erewrite sbind_returns by reflexivity.
  apply sbind_inv in H as (m & f0 & Hint & H).
  apply lift_inv in Hint as (Hint & ->).
  rewrite Hint. erewrite sbind_returns by reflexivity.
  apply sbind_inv in H as ([] & f0 & Heq & H).
  apply lift_inv in Heq as (Heq & ->).
  rewrite Heq. erewrite sbind_returns by reflexivity.
  cbn [data pos] in H |- *. rewrite Hd in H. rewrite Hdt.
  exact (read_lines_extends t _ x' d _ [] body f1 Hd eq_refl H).
Qed.

(** C5.  [overwrite_object] leaves the table of offsets as it is and
    the file as it was up to its former end; so [read_object(n)], which
    returned a body before, returns that body after, whichever object
    was overwritten, [n] included. *)
Theorem overwrite_leaves_the_original_readable :
  forall (s s' : t) (m : option Z) (b : bytes) (r : outcome unit),
    overwrite_object m b s = (r, s') ->
    objects_offsets s' = objects_offsets s
    /\ (exists tail, data (fileobj s') = data (fileobj s) ++ tail)
    /\ forall (n : Z) (body : bytes) (s1 : t),
        read_object n s = (Return (Some body), s1) ->
        fst (read_object n s') = Return (Some body).
Proof.
  intros s s' m b r Hover.
  destruct (finished s) eqn:Hs.
  - unfold overwrite_object in Hover.
    rewrite (sbind_raises _ _ _ _ _ (write_object_closed m b s Hs)) in Hover.
    injection Hover as <- <-. split; [reflexivity|]. split.
    + exists []. now rewrite app_nil_r.
    + intros n body s1 Hread. now rewrite Hread.
  - rewrite (overwrite_object_open m b s Hs) in Hover.
    injection Hover as <- <-. split; [reflexivity|]. split.
    + now exists (object_bytes m b).
    + intros n body s1. unfold read_object, on_file.
      cbn [fileobj objects_offsets set_overwritten_objects_offsets
           appended set_fileobj].
      destruct (fileobj s) as [d p] eqn:Hf. cbn [data].
      destruct (read_object_at (objects_offsets s) n {| data := d; pos := p |})
        as [res f1] eqn:Hread.
      intros H. injection H as -> _.
      now rewrite (read_object_at_extends _ _ _ (object_bytes m b) _
                     (length (d ++ object_bytes m b)) _ _ Hread).
Qed.

Lemma overwrite_leaves_the_original_readable_witness :
  exists (s' s1 : t),
    overwrite_object (Some 4) (bs "<< /Producer (WeasyPrint) >>")
                     Samples.cairo_store = (Return tt, s')
    /\ read_object 4 Samples.cairo_store
       = (Return (Some (bs "<< /Producer (cairo 1.10.2 (http://cairographics.org))\n>>\n")),
          s1)
    /\ fst (read_object 4 s')
       = Return (Some (bs "<< /Producer (cairo 1.10.2 (http://cairographics.org))\n>>\n")).
Proof.
  eexists. eexists.
  assert (Hover : overwrite_object (Some 4) (bs "<< /Producer (WeasyPrint) >>")
                                   Samples.cairo_store
                  = (Return tt, _))
    by (apply overwrite_object_open; reflexivity).
  assert (Hread : read_object 4 Samples.cairo_store
                  = (Return (Some (bs "<< /Producer (cairo 1.10.2 (http://cairographics.org))\n>>\n")),
                     _))
    by (vm_compute; reflexivity).
  split; [exact Hover|]. split; [exact Hread|].
  destruct (overwrite_leaves_the_original_readable _ _ _ _ _ Hover)
    as (_ & _ & Hsame).
  exact (Hsame _ _ _ Hread).
Defined.

End GrownFile.

(** ** The counts of the outline *)

Section Counts.

Import Bookmarks Outline.
Variables Label Destination : Type.

Local Abbreviation node := (node Label Destination).
Local Abbreviation heap := (heap Label Destination).

(** *** Indexing and sums *)

Lemma index_some {A} (l : list A) (i : Z) (a : A) :
  Py.index l i = Return a ->
  0 <= i ->
  nth_error l (Z.to_nat i) = Some a /\ i < Z.of_nat (length l).
Proof.
  unfold Py.index. intros H Hi.
  destruct (Z.ltb_spec i 0); [lia|].
  destruct (Z.leb_spec 0 i); [|lia].
  destruct (Z.ltb_spec i (Z.of_nat (length l))); cbn [andb] in H;
    [|discriminate].
  destruct (nth_error l (Z.to_nat i)); [|discriminate].
  injection H as ->. now split.
Qed.

Lemma sum_from (l : list Z) (acc : Z) :
  fold_left Z.add l acc = acc + Py.sum l.
Proof.
  unfold Py.sum. revert acc.
  induction l as [|x l IH]; intros acc; cbn [fold_left]; [lia|].
  rewrite (IH (acc + x)), (IH (0 + x)). lia.
Qed.

Lemma sum_cons (x : Z) (l : list Z) : Py.sum (x :: l) = x + Py.sum l.
Proof. unfold Py.sum at 1. cbn [fold_left]. rewrite sum_from. lia. Qed.

Lemma sum_app (l l' : list Z) : Py.sum (l ++ l') = Py.sum l + Py.sum l'.
Proof.
  induction l as [|x l IH]; [reflexivity|].
  cbn [app]. rewrite !sum_cons, IH. lia.
Qed.

Lemma sum_rev (l : list Z) : Py.sum (rev l) = Py.sum l.
Proof.
  induction l as [|x l IH]; [reflexivity|].
  cbn [rev]. rewrite sum_app, IH, !sum_cons. unfold Py.sum at 2. cbn. lia.
Qed.

(** The [while] loop pops some shifts, enough for the bound, and one
    only when the bound asked for it. *)
Lemma pop_shifts_spec (rev_shifts : list Z) :
  forall (k bound : Z) (remaining : list Z),
    pop_shifts rev_shifts k bound = Return remaining ->
    exists popped kept,
      rev_shifts = popped ++ kept
      /\ remaining = rev kept
      /\ bound <= k + Z.of_nat (length popped) + Py.sum popped.
Proof.
  induction rev_shifts as [|s rest IH]; intros k bound remaining H.
  - cbn [pop_shifts] in H. destruct (Z.ltb_spec k bound); [discriminate|].
    injection H as <-. exists [], []. repeat split. cbn. lia.
  - cbn [pop_shifts] in H. destruct (Z.ltb_spec k bound).
    + destruct (IH _ _ _ H) as (popped & kept & -> & -> & Hbound).
      exists (s :: popped), kept. repeat split.
      cbn [length]. rewrite sum_cons. lia.
    + injection H as <-. exists [], (s :: rest). repeat split. cbn. lia.
Qed.

(** *** Ancestors *)

Lemma ancestors_agree (fuel : nat) :
  forall (i : Z) (nodes nodes' : list node),
    (forall j, Z.of_nat j < i ->
               option_map Parent (nth_error nodes j)
               = option_map Parent (nth_error nodes' j)) ->
    parents_before nodes ->
    ancestors nodes fuel i = ancestors nodes' fuel i.
Proof.
  induction fuel as [|fuel IH]; intros i nodes nodes' Hagree Hwf;
    [reflexivity|].
  cbn [ancestors]. destruct (Z.leb_spec 1 i) as [Hi|Hi]; [|reflexivity].
  specialize (Hagree (Z.to_nat (i - 1)) ltac:(lia)) as Hsame.
  destruct (nth_error nodes (Z.to_nat (i - 1))) as [b|] eqn:Hb,
           (nth_error nodes' (Z.to_nat (i - 1))) as [b'|] eqn:Hb';
    cbn [option_map] in Hsame; try discriminate; [|reflexivity].
  injection Hsame as Hsame. rewrite <- Hsame.
  destruct (Parent b) as [p|] eqn:Hp; [|reflexivity].
  f_equal. pose proof (Hwf _ _ _ Hb Hp) as Hbound.
  apply IH; [|exact Hwf]. intros j Hj. apply Hagree. lia.
Qed.

Lemma ancestors_fuel (fuel : nat) :
  forall (fuel' : nat) (i : Z) (nodes : list node),
    parents_before nodes ->
    i <= Z.of_nat fuel -> i <= Z.of_nat fuel' ->
    ancestors nodes fuel i = ancestors nodes fuel' i.
Proof.
  induction fuel as [|fuel IH]; intros fuel' i nodes Hwf Hi Hi'.
  - destruct fuel' as [|fuel']; [reflexivity|]. cbn [ancestors].
    destruct (Z.leb_spec 1 i); [lia|reflexivity].
  - destruct fuel' as [|fuel'].
    + cbn [ancestors]. destruct (Z.leb_spec 1 i); [lia|reflexivity].
    + cbn [ancestors]. destruct (Z.leb_spec 1 i) as [H1|H1]; [|reflexivity].
      destruct (nth_error nodes (Z.to_nat (i - 1))) as [b|] eqn:Hb;
        [|reflexivity].
      destruct (Parent b) as [p|] eqn:Hp; [|reflexivity].
      pose proof (Hwf _ _ _ Hb Hp). f_equal. apply IH; [exact Hwf|lia|lia].
Qed.

Lemma ancestors_below (fuel : nat) :
  forall (i a : Z) (nodes : list node),
    parents_before nodes ->
    In a (ancestors nodes fuel i) -> 0 <= a < i.
Proof.
  induction fuel as [|fuel IH]; intros i a nodes Hwf Hin; [destruct Hin|].
  cbn [ancestors] in Hin. destruct (Z.leb_spec 1 i) as [H1|H1];
    [|destruct Hin].
  destruct (nth_error nodes (Z.to_nat (i - 1))) as [b|] eqn:Hb;
    [|destruct Hin].
  destruct (Parent b) as [p|] eqn:Hp; [|destruct Hin].
  pose proof (Hwf _ _ _ Hb Hp). destruct Hin as [<-|Hin]; [lia|].
  specialize (IH _ _ _ Hwf Hin). lia.
Qed.

(** Along the chain the ancestors are the entries before, backwards. *)
Lemma chain_ancestors (h : heap) (lbl : list nat) :
  chain h lbl ->
  forall (j r fuel : nat),
    nth_error lbl j = Some r ->
    (r <= fuel)%nat ->
    ancestors (tl h) fuel (Z.of_nat r)
    = map Z.of_nat (rev (firstn j lbl)).
Proof.
  intros (Hroot & Hin & Hstep). induction j as [|j IH]; intros r fuel Hr Hfuel.
  - rewrite Hroot in Hr. injection Hr as <-. cbn [firstn rev map].
    destruct fuel; reflexivity.
  - destruct (nth_error lbl j) as [q|] eqn:Hq.
    2:{ apply nth_error_None in Hq.
        assert (nth_error lbl (S j) = None) by (apply nth_error_None; lia).
        congruence. }
    destruct (Hstep _ _ _ Hq Hr) as (Hlt & Hparent).
    destruct fuel as [|fuel]; [lia|]. cbn [ancestors].
    destruct (Z.leb_spec 1 (Z.of_nat r)); [|lia].
    assert (Hr_lt : (r < length h)%nat).
    { rewrite Forall_forall in Hin. apply Hin. eapply nth_error_In; eauto. }
    assert (Hnth : nth_error (tl h) (Z.to_nat (Z.of_nat r - 1))
                   = Some (nth r h (root_node Label Destination))).
    { replace (Z.to_nat (Z.of_nat r - 1)) with (r - 1)%nat by lia.
      destruct h as [|b0 h]; [cbn in Hr_lt; lia|]. cbn [tl].
      destruct r as [|r]; [lia|]. cbn [nth].
      replace (S r - 1)%nat with r by lia.
      apply nth_error_nth'. cbn [length] in Hr_lt. lia. }
    rewrite Hnth, Hparent. rewrite (IH q fuel eq_refl) by lia.
    assert (Hfirst : firstn (S j) lbl = firstn j lbl ++ [q]).
    { clear - Hq. revert lbl Hq. induction j as [|j IH]; intros lbl Hq.
      - destruct lbl; [discriminate|]. cbn in Hq. now injection Hq as ->.
      - destruct lbl as [|x lbl]; [discriminate|]. cbn [nth_error] in Hq.
        cbn [firstn app]. f_equal. now apply IH. }
    rewrite Hfirst, rev_app_distr. reflexivity.
Qed.

(** *** The heap *)

Local Abbreviation modify := (modify Label Destination).
Local Abbreviation root_node := (root_node Label Destination).

Lemma modify_length (r : nat) (f : node -> node) (h : heap) :
  length (modify r f h) = length h.
Proof.
  revert r. induction h as [|b h IH]; intros r; [now destruct r|].
  destruct r; cbn; [reflexivity|]. now rewrite IH.
Qed.

Lemma modify_parents (r : nat) (f : node -> node) (h : heap) :
  (forall b, Parent (f b) = Parent b) ->
  map Parent (modify r f h) = map Parent h.
Proof.
  intros Hf. revert r. induction h as [|b h IH]; intros r; [now destruct r|].
  destruct r; cbn; [now rewrite Hf|]. now rewrite IH.
Qed.

Lemma modify_counts (r : nat) (f : node -> node) (h : heap) :
  (forall b, Count (f b) = Count b) ->
  map Count (modify r f h) = map Count h.
Proof.
  intros Hf. revert r. induction h as [|b h IH]; intros r; [now destruct r|].
  destruct r; cbn; [now rewrite Hf|]. now rewrite IH.
Qed.

Lemma nth_modify_same (r : nat) (f : node -> node) (h : heap) (d : node) :
  (r < length h)%nat ->
  nth r (modify r f h) d = f (nth r h d).
Proof.
  revert r. induction h as [|b h IH]; intros r Hr; [cbn in Hr; lia|].
  destruct r; [reflexivity|]. cbn. apply IH. cbn in Hr. lia.
Qed.

Lemma nth_modify_other (r a : nat) (f : node -> node) (h : heap) (d : node) :
  a <> r ->
  nth a (modify r f h) d = nth a h d.
Proof.
  revert r a. induction h as [|b h IH]; intros r a Har.
  - now destruct r.
  - destruct r, a; cbn; try reflexivity; try lia. apply IH. lia.
Qed.

(** The loop over [range(level)] adds one to the count of each address
    that it meets, and changes nothing else. *)
Lemma count_up_spec (k : nat) :
  forall (s : nat) (lbl : list nat) (h h' : heap),
    count_up Label Destination (map Z.of_nat (seq s k)) lbl h = Return h' ->
    Forall (fun r => (r < length h)%nat) lbl ->
    map Parent h' = map Parent h
    /\ length h' = length h
    /\ ((0 < k)%nat -> (s + k <= length lbl)%nat)
    /\ forall a,
        Count (nth a h' root_node)
        = Count (nth a h root_node)
          + Z.of_nat (count_occ Nat.eq_dec (firstn k (skipn s lbl)) a).
Proof.
  induction k as [|k IH]; intros s lbl h h' H Hin.
  - cbn in H. injection H as <-.
    split; [reflexivity|]. split; [reflexivity|]. split; [lia|].
    intros a. cbn. lia.
  - cbn [seq map count_up] in H.
    match type of H with
    | obind ?x _ = _ => destruct x as [r|] eqn:Hr
    end; cbn [obind] in H; [|discriminate].
    apply index_some in Hr as (Hr & Hs); [|lia].
    rewrite Nat2Z.id in Hr.
    assert (Hr_lt : (r < length h)%nat).
    { rewrite Forall_forall in Hin. apply Hin. eapply nth_error_In; eauto. }
    apply IH in H as (Hp & Hlen & Hk & Hc).
    2:{ now rewrite modify_length. }
    rewrite modify_parents in Hp by reflexivity.
    rewrite modify_length in Hlen.
    split; [exact Hp|]. split; [exact Hlen|].
    split.
    { intros _. unfold ref in *. destruct k as [|k']; [lia|].
      specialize (Hk ltac:(lia)). lia. }
    intros a. rewrite Hc.
    assert (Hskip : skipn s lbl = r :: skipn (S s) lbl).
    { clear - Hr. revert lbl Hr. induction s as [|s IH]; intros lbl Hr.
      - destruct lbl; [discriminate|]. cbn in Hr. now injection Hr as ->.
      - destruct lbl; [discriminate|]. cbn [skipn]. now apply IH. }
    rewrite Hskip. cbn [firstn count_occ].
    destruct (Nat.eq_dec r a) as [->|Hne].
    + rewrite nth_modify_same by assumption. cbn [with_Count Count]. lia.
    + rewrite nth_modify_other by congruence. lia.
Qed.

(** *** One more entry *)

Lemma enumerate_numbers {A} (l : list A) (start : Z) :
  map fst (Py.enumerate l start)
  = map (fun k => start + Z.of_nat k) (seq 0 (length l)).
Proof.
  revert start. induction l as [|a l IH]; intros start; [reflexivity|].
  cbn [Py.enumerate map fst length seq]. f_equal; [lia|].
  rewrite IH, <- seq_shift, map_map. apply map_ext. intros k. lia.
Qed.

Lemma agree_on_prefix (nodes nodes' : list node) (last : option Z) :
  map Parent nodes' = map Parent nodes ++ [last] ->
  forall j, (j < length nodes)%nat ->
            option_map Parent (nth_error nodes j)
            = option_map Parent (nth_error nodes' j).
Proof.
  intros Hmap j Hj. rewrite <- !nth_error_map, Hmap.
  now rewrite nth_error_app1 by (rewrite length_map; exact Hj).
Qed.

(** With one more entry, an entry is a descendant more of exactly the
    ancestors of the new entry. *)
Lemma descendants_snoc (nodes nodes' : list node) (last : option Z) (a : Z) :
  map Parent nodes' = map Parent nodes ++ [last] ->
  parents_before nodes ->
  descendants nodes' a
  = descendants nodes a
    + (if existsb (Z.eqb a)
                  (ancestors nodes' (length nodes')
                             (Z.of_nat (length nodes')))
       then 1 else 0).
Proof.
  intros Hmap Hwf.
  assert (Hlen : length nodes' = S (length nodes)).
  { pose proof (f_equal (@length _) Hmap) as H.
    rewrite length_app, !length_map in H. cbn in H. lia. }
  unfold descendants. rewrite !enumerate_numbers, Hlen.
  rewrite seq_S, map_app, filter_app, length_app. cbn [map filter plus].
  replace (1 + Z.of_nat (length nodes)) with (Z.of_nat (S (length nodes)))
    by lia.
  assert (Hsame :
            filter (fun i => existsb (Z.eqb a)
                                     (ancestors nodes' (S (length nodes)) i))
                   (map (fun k => 1 + Z.of_nat k) (seq 0 (length nodes)))
            = filter (fun i => existsb (Z.eqb a)
                                       (ancestors nodes (length nodes) i))
                     (map (fun k => 1 + Z.of_nat k) (seq 0 (length nodes)))).
  { apply filter_ext_in. intros i Hi. apply in_map_iff in Hi as (k & <- & Hk).
    apply in_seq in Hk. f_equal.
    rewrite <- (ancestors_agree _ _ nodes nodes').
    - apply ancestors_fuel; [exact Hwf|lia|lia].
    - intros j Hj. apply (agree_on_prefix _ _ _ Hmap). lia.
    - exact Hwf. }
  rewrite Hsame.
  destruct (existsb (Z.eqb a)
              (ancestors nodes' (S (length nodes))
                         (Z.of_nat (S (length nodes)))));
    cbn [length]; lia.
Qed.

(** *** The chain of the last entries *)

Lemma chain_increasing (h : heap) (lbl : list nat) :
  chain h lbl ->
  forall (j j' q r : nat),
    (j < j')%nat ->
    nth_error lbl j = Some q -> nth_error lbl j' = Some r -> (q < r)%nat.
Proof.
  intros (_ & _ & Hstep) j j'. induction j' as [|j' IH]; intros q r Hlt Hq Hr;
    [lia|].
  destruct (nth_error lbl j') as [m|] eqn:Hm.
  2:{ apply nth_error_None in Hm.
      assert (nth_error lbl (S j') = None) by (apply nth_error_None; lia).
      congruence. }
  destruct (Hstep _ _ _ Hm Hr) as (Hmr & _).
  destruct (Nat.eq_dec j j') as [->|Hne].
  - assert (q = m) by congruence. lia.
  - specialize (IH q m ltac:(lia) Hq eq_refl). lia.
Qed.

Lemma chain_NoDup (h : heap) (lbl : list nat) : chain h lbl -> NoDup lbl.
Proof.
  intros Hchain. apply NoDup_nth_error. intros j j' Hj Heq.
  destruct (nth_error lbl j) as [q|] eqn:Hq.
  2:{ apply nth_error_None in Hq. lia. }
  destruct (Nat.lt_trichotomy j j') as [Hlt|[->|Hlt]]; [|reflexivity|].
  - pose proof (chain_increasing _ _ Hchain _ _ _ _ Hlt Hq (eq_sym Heq)). lia.
  - pose proof (chain_increasing _ _ Hchain _ _ _ _ Hlt (eq_sym Heq) Hq). lia.
Qed.

Lemma count_occ_NoDup (l : list nat) (a : nat) :
  NoDup l ->
  Z.of_nat (count_occ Nat.eq_dec l a)
  = if existsb (Z.eqb (Z.of_nat a)) (map Z.of_nat (rev l)) then 1 else 0.
Proof.
  intros Hnodup.
  destruct (existsb (Z.eqb (Z.of_nat a)) (map Z.of_nat (rev l))) eqn:Hex.
  - apply existsb_exists in Hex as (x & Hin & Heq).
    apply in_map_iff in Hin as (y & <- & Hy). apply in_rev in Hy.
    apply Z.eqb_eq in Heq. apply Nat2Z.inj in Heq. subst y.
    rewrite NoDup_count_occ' in Hnodup. now rewrite (Hnodup a Hy).
  - assert (Hnot : ~ In a l).
    { intros Hin. apply Bool.not_true_iff_false in Hex. apply Hex.
      apply existsb_exists. exists (Z.of_nat a). split.
      - apply in_map. now apply in_rev in Hin.
      - apply Z.eqb_refl. }
    apply (count_occ_not_In Nat.eq_dec) in Hnot. now rewrite Hnot.
Qed.

(** *** One turn of the loop *)

(** The level that the shifts leave to a bookmark is at least 1, and no
    more shifts remain than it. *)
Lemma shifts_spec (shifts shifts' : list Z) (depth : nat) (level : Z) :
  Forall (fun shift => 0 <= shift) shifts ->
  (length shifts < depth)%nat ->
  1 <= level ->
  let previous_level := Z.of_nat depth - 1 + Py.sum shifts in
  (if level >? previous_level
   then Return (Py.append shifts (level - previous_level - 1))
   else pop_shifts (rev shifts) 0 (previous_level - level))
  = Return shifts' ->
  1 <= level - Py.sum shifts'
  /\ Z.of_nat (length shifts') <= level - Py.sum shifts'
  /\ Forall (fun shift => 0 <= shift) shifts'.
Proof.
  intros Hpos Hdepth Hlevel previous_level H.
  destruct (Z.gtb_spec level previous_level) as [Hgt|Hle].
  - injection H as <-. unfold Py.append.
    rewrite sum_app, sum_cons, length_app. cbn [length].
    change (Py.sum []) with 0. subst previous_level.
    repeat split; try lia.
    apply Forall_app. split; [exact Hpos|]. repeat constructor. lia.
  - apply pop_shifts_spec in H as (popped & kept & Hrev & -> & Hbound).
    assert (Hsum : Py.sum shifts = Py.sum popped + Py.sum kept).
    { now rewrite <- sum_rev, Hrev, sum_app. }
    assert (Hlen : length shifts = (length popped + length kept)%nat).
    { now rewrite <- length_rev, Hrev, length_app. }
    assert (Hkept : Forall (fun shift => 0 <= shift) kept).
    { apply Forall_rev in Hpos. rewrite Hrev in Hpos.
      now apply Forall_app in Hpos. }
    rewrite sum_rev, length_rev. subst previous_level.
    assert (Hk : 0 <= Py.sum kept).
    { clear - Hkept. induction Hkept as [|x l Hx _ IH];
        [reflexivity|rewrite sum_cons; lia]. }
    repeat split; [| |now apply Forall_rev].
    + destruct kept as [|x kept]; [change (Py.sum []) with 0; lia|].
      cbn [length] in Hlen. lia.
    + lia.
Qed.

Lemma In_firstn {A} (l : list A) (k : nat) (a : A) :
  In a (firstn k l) -> In a l.
Proof.
  intros H. rewrite <- (firstn_skipn k l). apply in_or_app. now left.
Qed.

Lemma index_nat {A} (l : list A) (j : nat) (a : A) :
  Py.index l (Z.of_nat j) = Return a -> nth_error l j = Some a.
Proof.
  intros H. apply index_some in H as (H & _); [|lia].
  now rewrite Nat2Z.id in H.
Qed.

Lemma del_from_nat {A} (l : list A) (j : nat) :
  (j <= length l)%nat -> Py.del_from l (Z.of_nat j) = firstn j l.
Proof.
  intros Hj. unfold Py.del_from.
  destruct (Z.ltb_spec (Z.of_nat j) 0); [lia|].
  now rewrite Z.min_l, Nat2Z.id by lia.
Qed.

Lemma nth_error_tl (l : list node) (j : nat) :
  nth_error (tl l) j
  = if (S j <? length l)%nat then Some (nth (S j) l root_node) else None.
Proof.
  destruct l as [|b l]; cbn [tl length].
  - now destruct j.
  - cbn [nth]. destruct (Nat.ltb_spec (S j) (S (length l))).
    + apply nth_error_nth'. lia.
    + apply nth_error_None. lia.
Qed.

Lemma filter_none {A} (f : A -> bool) (l : list A) :
  (forall x, In x l -> f x = false) -> filter f l = [].
Proof.
  induction l as [|x l IH]; intros H; [reflexivity|].
  cbn [filter]. rewrite (H x) by now left.
  apply IH. intros y Hy. apply H. now right.
Qed.

Lemma descendants_beyond (nodes : list node) (a : Z) :
  parents_before nodes ->
  Z.of_nat (length nodes) <= a ->
  descendants nodes a = 0.
Proof.
  intros Hwf Ha. unfold descendants. rewrite enumerate_numbers.
  assert (Hnone :
            filter (fun i => existsb (Z.eqb a)
                                     (ancestors nodes (length nodes) i))
                   (map (fun k => 1 + Z.of_nat k) (seq 0 (length nodes)))
            = []).
  { apply filter_none. intros i Hi.
    apply in_map_iff in Hi as (k & <- & Hk). apply in_seq in Hk.
    apply Bool.not_true_iff_false. intros Hex.
    apply existsb_exists in Hex as (x & Hin & Heq).
    apply Z.eqb_eq in Heq. subst x.
    apply (ancestors_below _ _ _ _ Hwf) in Hin. lia. }
  now rewrite Hnone.
Qed.

Lemma body_keeps (n : nat) (st st' : state Label Destination)
      (level : Z) (lab : Label) (dest : Destination) :
  invariant n st ->
  1 <= level ->
  body Label Destination st (Z.of_nat (S n)) (level, lab, dest) = Return st' ->
  invariant (S n) st'.
Proof.
  intros [Hlen Hlist Hidx Hchain Hpar Hroot Hcounts Hsh Hdepth] Hlevel H.
  destruct st as [h bl sh lbl idx].
  cbn [store bookmark_list level_shifts last_by_level indices_by_level] in *.
  unfold body in H.
  cbn [store bookmark_list level_shifts last_by_level indices_by_level] in H.
  match type of H with
  | obind ?x _ = _ => destruct x as [sh'|] eqn:Hshifts
  end; cbn [obind] in H; [|discriminate].
  apply shifts_spec in Hshifts as (HL1 & HL2 & Hsh'); try assumption.
  remember (Z.to_nat (level - Py.sum sh' - 1)) as m eqn:Hm.
  assert (HL : level - Py.sum sh' = Z.of_nat (S m)) by lia.
  rewrite HL in H, HL2.
  replace (Z.of_nat (S m) - 1) with (Z.of_nat m) in H by lia.
  match type of H with
  | obind ?x _ = _ => destruct x as [parent|] eqn:Hparent
  end; cbn [obind] in H; [|discriminate].
  apply index_nat in Hparent. rewrite Hidx, nth_error_map in Hparent.
  unfold ref in *.
  destruct (nth_error lbl m) as [q|] eqn:Hq; cbn [option_map] in Hparent;
    [|discriminate].
  injection Hparent as <-.
  assert (Hm_lt : (m < length lbl)%nat)
    by (apply nth_error_Some; congruence).
  cbn [alloc] in H.
  set (new := {| Count := 0; First := None; Last := None; Prev := None;
                 Next := None; Parent := Some (Z.of_nat q);
                 label := Some lab; destination := Some dest |}) in *.
  match type of H with
  | obind ?x _ = _ => destruct x as [[[h2 lbl2] idx2]|] eqn:Hbranch
  end; cbn [obind] in H; [|discriminate].
  assert (Hh2 : map Parent h2 = map Parent (h ++ [new])
                /\ map Count h2 = map Count (h ++ [new])
                /\ lbl2 = firstn (S m) lbl
                /\ idx2 = map Z.of_nat lbl2).
  { destruct (Z.gtb_spec (Z.of_nat (S m)) (Z.of_nat (length lbl) - 1)).
    - match type of Hbranch with
      | obind ?x _ = _ => destruct x as [r|] eqn:Hr
      end; cbn [obind] in Hbranch; [|discriminate].
      injection Hbranch as <- <- <-.
      rewrite modify_parents, modify_counts by reflexivity.
      assert (S m = length lbl) by lia.
      repeat split; [|exact Hidx].
      symmetry. apply firstn_all2. lia.
    - match type of Hbranch with
      | obind ?x _ = _ => destruct x as [prev|] eqn:Hprev
      end; cbn [obind] in Hbranch; [|discriminate].
      match type of Hbranch with
      | obind ?x _ = _ => destruct x as [r|] eqn:Hr
      end; cbn [obind] in Hbranch; [|discriminate].
      injection Hbranch as <- <- <-.
      rewrite !modify_parents, !modify_counts by reflexivity.
      change (Z.pos (Pos.of_succ_nat m)) with (Z.of_nat (S m)) in *.
      rewrite !del_from_nat by (rewrite ?Hidx, ?length_map; lia).
      repeat split. rewrite Hidx. apply firstn_map. }
  destruct Hh2 as (Hparents2 & Hcounts2 & -> & ->).
  clear Hbranch.
  set (lbl2 := firstn (S m) lbl) in *.
  assert (Hlen2 : length h2 = S (S n)).
  { pose proof (f_equal (@length _) Hparents2) as Hl.
    rewrite !length_map, length_app in Hl. cbn [length] in Hl. lia. }
  assert (Hin2 : Forall (fun r => (r < length h2)%nat) lbl2).
  { destruct Hchain as (_ & Hin & _). rewrite Forall_forall in Hin |- *.
    intros r Hr. apply In_firstn in Hr. specialize (Hin r Hr). lia. }
  unfold Py.range in H. rewrite Nat2Z.id in H.
  match type of H with
  | obind ?x _ = _ => destruct x as [h3|] eqn:Hcount
  end; cbn [obind] in H; [|discriminate].
  apply count_up_spec in Hcount as (Hparents3 & Hlen3 & _ & Hcounts3);
    [|exact Hin2].
  match type of H with
  | obind ?x _ = _ => destruct x as [r|] eqn:Hr
  end; cbn [obind] in H; [|discriminate].
  apply index_nat in Hr.
  assert (Hq2 : nth_error lbl2 m = Some q).
  { subst lbl2. rewrite nth_error_firstn.
    destruct (Nat.ltb_spec m (S m)); [exact Hq|lia]. }
  assert (r = q) by congruence. subst r.
  match type of H with
  | context [Bookmarks.modify _ _ q ?f h3] =>
      set (h4 := modify q f h3) in *
  end.
  injection H as <-.
  rewrite Hlen.
  assert (Hlbl2 : firstn (S m) (skipn 0 lbl2) = lbl2).
  { cbn [skipn]. subst lbl2. rewrite firstn_firstn. f_equal. lia. }
  rewrite Hlbl2 in Hcounts3.
  assert (Hparents4 : map Parent h4 = map Parent h ++ [Some (Z.of_nat q)]).
  { subst h4. rewrite modify_parents by reflexivity.
    now rewrite Hparents3, Hparents2, map_app. }
  assert (Hlen4 : length h4 = S (S n)).
  { subst h4. rewrite modify_length. lia. }
  assert (Hcounts4 :
            forall a,
              Count (nth a h4 root_node)
              = Count (nth a (h ++ [new]) root_node)
                + Z.of_nat (count_occ Nat.eq_dec lbl2 a)).
  { intros a.
    rewrite <- (map_nth Count h4), <- (map_nth Count (h ++ [new])).
    subst h4. rewrite modify_counts by reflexivity.
    rewrite (map_nth Count h3), Hcounts3.
    now rewrite <- (map_nth Count h2), Hcounts2. }
  clearbody h4. clear Hcounts3 Hparents3 Hlen3 Hparents2 Hcounts2 Hlen2 Hin2.
  clear Hr Hlbl2 h2 h3.
  assert (Hq_lt : (q < S n)%nat).
  { destruct Hchain as (_ & Hin & _). rewrite Forall_forall in Hin.
    rewrite <- Hlen. apply Hin. eapply nth_error_In; eauto. }
  assert (Hlbl2_len : length lbl2 = S m).
  { subst lbl2. rewrite length_firstn. lia. }
  assert (Hprefix : forall j, (j <= m)%nat ->
                              nth_error lbl2 j = nth_error lbl j).
  { intros j Hj. subst lbl2. rewrite nth_error_firstn.
    destruct (Nat.ltb_spec j (S m)); [reflexivity|lia]. }
  assert (Hold : forall a, (a <= n)%nat ->
                           nth a (h ++ [new]) root_node = nth a h root_node).
  { intros a Ha. apply app_nth1. lia. }
  assert (Hparent_old :
            forall a, (a <= n)%nat ->
                      Parent (nth a h4 root_node)
                      = Parent (nth a h root_node)).
  { intros a Ha.
    rewrite <- (map_nth Parent h4), <- (map_nth Parent h), Hparents4.
    apply app_nth1. rewrite length_map. lia. }
  assert (Hparent_new :
            Parent (nth (S n) h4 root_node) = Some (Z.of_nat q)).
  { rewrite <- (map_nth Parent h4), Hparents4.
    rewrite app_nth2 by (rewrite length_map; lia).
    rewrite length_map, Hlen, Nat.sub_diag. reflexivity. }
  assert (Hchain' : chain h4 (Py.append lbl2 (S n))).
  { unfold Py.append. destruct Hchain as (Hroot0 & Hin & Hstep).
    split; [|split].
    - rewrite nth_error_app1 by lia. rewrite Hprefix by lia. exact Hroot0.
    - apply Forall_app. split.
      + rewrite Forall_forall in Hin |- *. intros r Hr.
        apply In_firstn in Hr. specialize (Hin r Hr). lia.
      + repeat constructor. lia.
    - intros j q' r' Hq' Hr'.
      destruct (Nat.lt_trichotomy j m) as [Hjm|[->|Hjm]].
      + rewrite nth_error_app1, Hprefix in Hq', Hr' by lia.
        destruct (Hstep _ _ _ Hq' Hr') as (Hlt & Hp).
        split; [exact Hlt|].
        assert (Hr'_lt : (r' < length h)%nat).
        { rewrite Forall_forall in Hin. apply Hin.
          eapply nth_error_In; eauto. }
        rewrite Hparent_old by lia. exact Hp.
      + rewrite nth_error_app1 in Hq' by lia.
        rewrite nth_error_app2 in Hr' by lia.
        rewrite Hlbl2_len, Nat.sub_diag in Hr'. injection Hr' as <-.
        assert (q' = q) by congruence. subst q'.
        split; [exact Hq_lt | exact Hparent_new].
      + assert (Hnone : nth_error (lbl2 ++ [S n]) (S j) = None).
        { apply nth_error_None. rewrite length_app. cbn [length]. lia. }
        congruence. }
  assert (Htl : map Parent (tl h4)
                = map Parent (tl h) ++ [Some (Z.of_nat q)]).
  { destruct h as [|b0 h]; [discriminate|].
    destruct h4 as [|b4 h4]; [discriminate|].
    cbn [tl map app] in *. now injection Hparents4. }
  assert (Hpar' : parents_before (tl h4)).
  { intros j b p Hb Hp. rewrite nth_error_tl in Hb.
    destruct (Nat.ltb_spec (S j) (length h4)); [|discriminate].
    injection Hb as <-.
    destruct (Nat.eq_dec j n) as [->|Hne].
    - rewrite Hparent_new in Hp. injection Hp as <-. lia.
    - rewrite Hparent_old in Hp by lia.
      apply (Hpar j (nth (S j) h root_node)); [|exact Hp].
      rewrite nth_error_tl.
      destruct (Nat.ltb_spec (S j) (length h)); [reflexivity|lia]. }
  assert (Hlen_tl : length (tl h4) = S n /\ length (tl h) = n).
  { destruct h as [|b0 h]; [discriminate|].
    destruct h4 as [|b4 h4]; [discriminate|].
    cbn [tl length] in *. lia. }
  destruct Hlen_tl as (Hlen_tl4 & Hlen_tl).
  assert (Hnodup : NoDup lbl2).
  { apply chain_NoDup in Hchain'. unfold Py.append in Hchain'.
    now apply NoDup_app_remove_r in Hchain'. }
  assert (Hanc : ancestors (tl h4) (length (tl h4))
                           (Z.of_nat (length (tl h4)))
                 = map Z.of_nat (rev lbl2)).
  { rewrite Hlen_tl4.
    rewrite (chain_ancestors h4 _ Hchain' (S m) (S n) (S n)); [|
      unfold Py.append; rewrite nth_error_app2 by lia;
      now rewrite Hlbl2_len, Nat.sub_diag | lia].
    unfold Py.append. rewrite firstn_app, Hlbl2_len, Nat.sub_diag.
    rewrite firstn_all2 by lia. cbn [firstn]. now rewrite app_nil_r. }
  assert (Hdesc : forall a : nat,
             descendants (tl h4) (Z.of_nat a)
             = descendants (tl h) (Z.of_nat a)
               + Z.of_nat (count_occ Nat.eq_dec lbl2 a)).
  { intros a. rewrite (descendants_snoc _ _ _ _ Htl Hpar), Hanc.
    now rewrite (count_occ_NoDup _ _ Hnodup). }
  split;
    cbn [store bookmark_list level_shifts last_by_level indices_by_level].
  - exact Hlen4.
  - rewrite Hlist. unfold Py.append. now rewrite seq_S.
  - unfold Py.append. rewrite map_app. reflexivity.
  - exact Hchain'.
  - exact Hpar'.
  - rewrite Hcounts4, Hold, Hroot by lia.
    assert (Hin0 : In 0%nat lbl2).
    { destruct Hchain as (Hroot0 & _). apply nth_error_In with (n := 0%nat).
      rewrite Hprefix by lia. exact Hroot0. }
    rewrite NoDup_count_occ' in Hnodup. rewrite (Hnodup _ Hin0). lia.
  - intros a Ha. rewrite Hcounts4, Hdesc. f_equal.
    destruct (Nat.eq_dec a (S n)) as [->|Hne].
    + rewrite app_nth2 by lia. rewrite Hlen, Nat.sub_diag. cbn [nth].
      subst new. cbn [Count]. symmetry.
      apply descendants_beyond; [exact Hpar|lia].
    + rewrite Hold by lia. apply Hcounts. lia.
  - exact Hsh'.
  - unfold Py.append. rewrite length_app, Hlbl2_len. cbn [length]. lia.
Qed.

(** *** The whole loop *)

Lemma initial_invariant : invariant 0 (initial Label Destination).
Proof.
  split; cbn; try reflexivity.
  - split; [reflexivity|]. split.
    + repeat constructor.
    + intros [|j] q r Hq Hr; [discriminate|destruct j; discriminate].
  - intros j b p Hb. destruct j; discriminate.
  - intros a Ha. assert (a = 0%nat) by lia. now subst a.
  - constructor.
  - lia.
Qed.

Lemma loop_keeps (raws : list (Z * Label * Destination)) :
  forall (n : nat) (st st' : state Label Destination),
    invariant n st ->
    Forall (fun raw => 1 <= fst (fst raw)) raws ->
    loop Label Destination st (Py.enumerate raws (Z.of_nat (S n)))
    = Return st' ->
    invariant (n + length raws) st'.
Proof.
  induction raws as [|[[level lab] dest] raws IH];
    intros n st st' Hinv Hlevels H.
  - cbn in H. injection H as <-. now rewrite Nat.add_0_r.
  - cbn [Py.enumerate loop] in H.
    match type of H with
    | obind ?x _ = _ => destruct x as [st1|] eqn:Hbody
    end; cbn [obind] in H; [|discriminate].
    inversion Hlevels as [|? ? Hlevel Hrest]; subst.
    apply (body_keeps n) in Hbody; [|exact Hinv|exact Hlevel].
    replace (Z.of_nat (S n) + 1) with (Z.of_nat (S (S n))) in H by lia.
    cbn [length]. rewrite Nat.add_succ_r.
    exact (IH (S n) st1 st' Hbody Hrest H).
Qed.

Lemma entries_of_heap (h : heap) (n : nat) :
  length h = S n ->
  map (deref Label Destination h) (seq 1 n) = tl h.
Proof.
  intros Hlen. destruct h as [|b0 h]; [discriminate|].
  cbn [tl]. cbn [length] in Hlen. injection Hlen as <-.
  rewrite <- seq_shift, map_map. unfold deref. cbn [nth].
  clear b0. induction h as [|b h IH]; [reflexivity|].
  cbn [length seq map nth]. f_equal.
  rewrite <- seq_shift, map_map. exact IH.
Qed.

Lemma enumerate_In {A} (l : list A) (start i : Z) (a : A) (d : A) :
  In (i, a) (Py.enumerate l start) ->
  exists k, (k < length l)%nat /\ i = start + Z.of_nat k /\ a = nth k l d.
Proof.
  revert start. induction l as [|x l IH]; intros start Hin; [destruct Hin|].
  cbn [Py.enumerate] in Hin. destruct Hin as [Heq|Hin].
  - injection Heq as <- <-. exists 0%nat. cbn. repeat split; lia.
  - destruct (IH _ Hin) as (k & Hk & -> & ->).
    exists (S k). cbn [length nth]. repeat split; lia.
Qed.

(** Where [process_bookmarks] returns on levels that are all at least
    1, it returns as many entries as it was given, the count of each is
    the number of its strict descendants, and the count of the root is
    the number of entries. *)
Lemma counts_hold_where_it_returns
      (raw_bookmarks : list (Z * Label * Destination))
      (root : node) (nodes : list node) :
  Forall (fun raw => 1 <= fst (fst raw)) raw_bookmarks ->
  process_bookmarks raw_bookmarks = Return (root, nodes) ->
  length nodes = length raw_bookmarks
  /\ counts_hold (root, nodes) = true.
Proof.
  intros Hlevels H. unfold process_bookmarks in H.
  match type of H with
  | obind ?x _ = _ => destruct x as [st|] eqn:Hloop
  end; cbn [obind] in H; [|discriminate].
  apply (loop_keeps raw_bookmarks 0 _ _ initial_invariant Hlevels) in Hloop.
  cbn [plus] in Hloop.
  destruct Hloop as [Hlen Hlist _ _ _ Hroot Hcounts _ _].
  injection H as <- <-.
  rewrite Hlist, (entries_of_heap _ _ Hlen).
  assert (Hn : length (tl (store _ _ st)) = length raw_bookmarks).
  { destruct (store _ _ st); [discriminate|]. cbn in *. lia. }
  split; [exact Hn|].
  unfold counts_hold, deref. rewrite Hn, Hroot.
  pose proof (Hcounts 0%nat (Nat.le_0_l _)) as Hzero.
  cbn [Z.of_nat] in Hzero. rewrite <- Hzero, Hroot, !Z.eqb_refl.
  cbn [andb]. apply forallb_forall. intros [i b] Hin. cbn [fst snd].
  apply (enumerate_In _ _ _ _ root_node) in Hin as (k & Hk & -> & ->).
  apply Z.eqb_eq.
  replace (1 + Z.of_nat k) with (Z.of_nat (S k)) by lia.
  rewrite <- Hcounts by lia.
  destruct (store _ _ st) as [|b0 h]; [discriminate|]. reflexivity.
Qed.

End Counts.

(** ** The bookmark hierarchy builder *)

Section BookmarkExamples.

Import Bookmarks Outline.
Variables Label Destination : Type.


(** C4.  On declared depths 1, 3, 1 [process_bookmarks] returns: the
    depth-3 entry is the only child of the first entry (its [First] and
    [Last] are 2, its [Count] is 1, and the [Parent] of entry 2 is 1),
    and the third entry is the next sibling of the first under the root
    (its [Parent] is 0, its [Prev] is 1, and the [Next] of entry 1 is
    3).  No entry stands for the skipped depth 2. *)
Theorem depth_jump_is_absorbed :
  forall (a b c : Label) (d1 d2 d3 : Destination),
    process_bookmarks [(1, a, d1); (3, b, d2); (1, c, d3)]
    = Return
        (outline_root 3 (Some 1) (Some 3),
         [bookmark 1 (Some 2) (Some 2) None (Some 3) (Some 0) a d1;
          bookmark 0 None None None None (Some 1) b d2;
          bookmark 0 None None (Some 1) None (Some 0) c d3]).
Proof. intros. reflexivity. Qed.

(** C2, at the input where the code departs from it.  On declared
    depths 3, 2, 1 (every level at least 1) [process_bookmarks] returns
    nothing: the third entry pops a shift from the empty
    [level_shifts]. *)
Theorem rising_levels_raise :
  forall (a b c : Label) (d1 d2 d3 : Destination),
    process_bookmarks [(3, a, d1); (2, b, d2); (1, c, d3)]
    = Raise IndexError.
Proof. intros. reflexivity. Qed.

End BookmarkExamples.

(** Where [process_bookmarks] returns, the counts are right: checked on
    every list of at most five levels between 1 and 4.  Of the 1024 lists
    of five levels, 209 make it raise. *)
Lemma counts_hold_on_short_inputs :
  forallb
    (fun levels =>
       match Bookmarks.process_bookmarks (Outline.with_levels levels) with
       | Return result => Outline.counts_hold result
       | Raise _ => true
       end)
    (flat_map (fun n => Outline.level_lists n [1; 2; 3; 4])
              [0; 1; 2; 3; 4; 5]%nat)
  = true
  /\ length
       (filter
          (fun levels =>
             negb (returned (Bookmarks.process_bookmarks
                               (Outline.with_levels levels))))
          (Outline.level_lists 5 [1; 2; 3; 4]))
     = 209%nat.
Proof. split; vm_compute; reflexivity. Qed.

(** ** Reading an object *)

(** C6, at the input where the code departs from it.  The constructor
    accepts [Samples.one_line_info_pdf], and [read_object(4)] on the store
    it builds returns [None]: no line after the header of object 4 is a
    lone [>>], the loop over the lines ends with the file, and the
    function ends without raising. *)
Theorem unterminated_object_reads_as_None :
  exists s f,
    PDFFile.__init__ (Samples.opened Samples.one_line_info_pdf)
    = (Return s, f)
    /\ PDFDictionary.byte_string (PDFFile.info s) = None
    /\ fst (PDFFile.read_object 4 s) = Return None.
Proof.
  eexists. eexists. split; [vm_compute; reflexivity|].
  split; vm_compute; reflexivity.
Qed.

(** * Further properties of the code *)

(** ** What [read_object] returns *)

Section ObjectsRead.

Import File PDFFile Layout Literal.

Lemma occurs_at_prefix (p rest d : bytes) (i : nat) :
  skipn i d = p ++ rest -> occurs_at p d i.
Proof.
  intros H. unfold occurs_at. rewrite H.
  now rewrite firstn_app, Nat.sub_diag, firstn_all, firstn_O, app_nil_r.
Qed.

Lemma endswith_app (a suffix0 : bytes) : endswith (a ++ suffix0) suffix0 = true.
Proof.
  unfold endswith. rewrite length_app.
  replace (length a + length suffix0 - length suffix0)%nat
    with (length a + 0)%nat by lia.
  rewrite skipn_app, skipn_all2 by lia.
  replace (length a + 0 - length a)%nat with 0%nat by lia.
  cbn [skipn app]. apply andb_true_intro. split.
  - clear. induction suffix0 as [|c l IH]; [reflexivity|].
    cbn. now rewrite Ascii.eqb_refl, IH.
  - apply Nat.leb_le. lia.
Qed.

(** The loop of [read_object] returns the lines up to the first lone
    [>>], when the line after it is [endobj]; it leaves the content of
    the file as it is. *)
Lemma read_lines_sound (ls : list bytes) :
  forall (x d : bytes) (p : nat) (acc : list bytes) (body : bytes)
         (f1 : File.fileobj),
    skipn p d = x ->
    Py.lines x = ls ->
    read_lines ls acc {| data := d; pos := p |}
    = (Return (Some body), f1) ->
    exists inner rest,
      x = inner ++ bs ">>\n" ++ bs "endobj\n" ++ rest
      /\ body = Py.join acc ++ inner ++ bs ">>\n"
      /\ data f1 = d.
Proof.
  induction ls as [|line ls' IH]; intros x d p acc body f1 Hskip Hx Hread.
  - discriminate.
  - cbn [read_lines data pos] in Hread.
    assert (Hcomplete : complete line).
    { destruct (bytes_eqb line (bs ">>\n")) eqn:Hclose.
      - apply bytes_eqb_eq in Hclose. subst line.
        exists (bs ">>"). split; [reflexivity|].
        intros [H|[H|[]]]; discriminate.
      - destruct (lines_first _ _ _ Hx) as [[Hc _]|(_ & -> & _)];
          [exact Hc | discriminate]. }
    destruct (complete_lines_app _ _ _ [] Hx Hcomplete)
      as (x' & -> & Hx' & _).
    destruct (skipn_line d line x' [] p Hskip (complete_not_nil _ Hcomplete))
      as (Hd & _ & _).
    destruct (bytes_eqb line (bs ">>\n")) eqn:Hclose.
    + apply bytes_eqb_eq in Hclose. subst line.
      unfold sbind, next, lift in Hread. cbn [data pos] in Hread.
      rewrite Hd, Hx' in Hread.
      destruct ls' as [|line' rest']; [discriminate|].
      destruct (bytes_eqb line' (bs "endobj\n")) eqn:Hend;
        [|discriminate].
      apply bytes_eqb_eq in Hend. subst line'.
      cbn [assert] in Hread. injection Hread as <- <-.
      assert (Hc' : complete (bs "endobj\n")).
      { exists (bs "endobj"). split; [reflexivity|].
        intros [H|[H|[H|[H|[H|[H|[]]]]]]]; discriminate. }
      destruct (complete_lines_app _ _ _ [] Hx' Hc') as (x'' & -> & _ & _).
      exists [], x''. repeat split.
      unfold Py.append, Py.join. rewrite concat_app. cbn [concat app].
      now rewrite ?app_nil_r.
    + destruct (IH x' d (p + length line)%nat _ body f1 Hd Hx' Hread)
        as (inner & rest & -> & -> & Hdata).
      exists (line ++ inner), rest. repeat split.
      * now rewrite <- app_assoc.
      * unfold Py.append, Py.join. rewrite concat_app. cbn [concat].
        now rewrite ?app_nil_r, <- ?app_assoc.
      * exact Hdata.
Qed.

(** What [read_object_at] returns stands in the file, between a header
    line that carries the object number and the line [endobj]. *)
Lemma read_object_at_sound (offsets : list (option Z)) (n : Z)
      (f f1 : File.fileobj) (body : bytes) :
  read_object_at offsets n f = (Return (Some body), f1) ->
  exists offset header rest,
    Py.index offsets n = Return (Some offset)
    /\ 0 <= offset
    /\ skipn (Z.to_nat offset) (data f)
       = header ++ body ++ bs "endobj\n" ++ rest
    /\ endswith header (bs " 0 obj\n") = true
    /\ Py.int (firstn (length header - 7) header) = Return n
    /\ endswith body (bs ">>\n") = true
    /\ data f1 = data f.
Proof.
  destruct f as [d p]. unfold read_object_at. intros H.
  apply sbind_inv in H as (o & f0 & Hindex & H).
  apply lift_inv in Hindex as (Hindex & ->).
  destruct o as [offset|]; [|discriminate].
  apply sbind_inv in H as ([] & f0 & Hseek & H).
  unfold seek in Hseek. cbn [data pos] in Hseek.
  destruct (Z.ltb_spec offset 0) as [Hneg|Hpos]; [discriminate|].
  injection Hseek as <-.
  apply sbind_inv in H as (line & f0 & Hnext & H).
  unfold next in Hnext. cbn [data pos] in Hnext.
  destruct (Py.lines (skipn (Z.to_nat offset) d)) as [|l rest] eqn:Hx;
    [discriminate|].
  injection Hnext as <- <-.
  apply sbind_inv in H as ([] & f0 & Hend & H).
  apply lift_inv in Hend as (Hend & ->).
  destruct (endswith l (bs " 0 obj\n")) eqn:Hends; [|discriminate].
  assert (Hc : complete l)
    by exact (endswith_complete _ _ _ (bs " 0 obj") Hx Hends).
  destruct (complete_lines_app _ _ _ [] Hx Hc) as (x' & Hskip & Hx' & _).
  destruct (skipn_line d l x' [] _ Hskip (complete_not_nil _ Hc))
    as (Hd & _ & _).
  apply sbind_inv in H as (m & f0 & Hint & H).
  apply lift_inv in Hint as (Hint & ->).
  apply sbind_inv in H as ([] & f0 & Heq & H).
  apply lift_inv in Heq as (Heq & ->).
  destruct (Z.eqb_spec m n) as [->|]; [|discriminate].
  cbn [data pos] in H. rewrite Hd in H.
  destruct (read_lines_sound _ x' d _ [] body f1 Hd eq_refl H)
    as (inner & rest' & -> & -> & Hdata).
  exists offset, l, rest'. cbn [data Py.join concat app].
  repeat split; try assumption.
  - rewrite Hskip. now rewrite <- !app_assoc.
  - apply endswith_app.
Qed.

Lemma read_object_inv (s s' : t) (n : Z) (r : outcome (option bytes)) :
  read_object n s = (r, s') ->
  read_object_at (objects_offsets s) n (fileobj s) = (r, fileobj s')
  /\ s' = set_fileobj (fileobj s') s.
Proof.
  unfold read_object, on_file.
  destruct (read_object_at (objects_offsets s) n (fileobj s)) as [r0 f1].
  intros H. injection H as -> <-. now split.
Qed.

(** [read_object] returns bytes that are in the file: at the offset
    that the table gives for the number stand a header line
    [<number> 0 obj], the bytes returned, which end with a line [>>], and
    the line [endobj].  Reading moves the position of the file and
    nothing else. *)
Theorem read_object_returns_what_the_file_holds :
  forall (s s' : t) (n : Z) (body : bytes),
    read_object n s = (Return (Some body), s') ->
    exists (offset : Z) (header : bytes),
      Py.index (objects_offsets s) n = Return (Some offset)
      /\ 0 <= offset
      /\ occurs_at (header ++ body ++ bs "endobj\n") (data (fileobj s))
                   (Z.to_nat offset)
      /\ endswith header (bs " 0 obj\n") = true
      /\ Py.int (firstn (length header - 7) header) = Return n
      /\ endswith body (bs ">>\n") = true
      /\ data (fileobj s') = data (fileobj s)
      /\ s' = set_fileobj (fileobj s') s.
Proof.
  intros s s' n body H. apply read_object_inv in H as (Hread & Hs').
  destruct (read_object_at_sound _ _ _ _ _ Hread)
    as (offset & header & rest & Hindex & Hpos & Hskip & Hhead & Hint
        & Hbody & Hdata).
  exists offset, header. repeat split; try assumption.
  apply (occurs_at_prefix _ rest). rewrite Hskip.
  now rewrite <- !app_assoc.
Qed.

Lemma read_object_returns_what_the_file_holds_witness :
  exists (s' : t) (offset : Z) (header : bytes),
    read_object 4 Samples.cairo_store
    = (Return (Some (bs "<< /Producer (cairo 1.10.2 (http://cairographics.org))\n>>\n")),
       s')
    /\ Py.index (objects_offsets Samples.cairo_store) 4
       = Return (Some offset)
    /\ occurs_at
         (header
            ++ bs "<< /Producer (cairo 1.10.2 (http://cairographics.org))\n>>\n"
            ++ bs "endobj\n")
         (data (fileobj Samples.cairo_store)) (Z.to_nat offset)
    /\ endswith header (bs " 0 obj\n") = true.
Proof.
  assert (Hread : read_object 4 Samples.cairo_store
                  = (Return (Some (bs "<< /Producer (cairo 1.10.2 (http://cairographics.org))\n>>\n")),
                     snd (read_object 4 Samples.cairo_store)))
    by (vm_compute; reflexivity).
  destruct (read_object_returns_what_the_file_holds _ _ _ _ Hread)
    as (offset & header & Hindex & _ & Hocc & Hhead & _).
  exists (snd (read_object 4 Samples.cairo_store)), offset, header.
  repeat split; assumption.
Defined.

(** A dictionary that [read_object] returned can be extended: the
    assertion of [extend_dict] holds for it.  On an open store the call
    returns, appends one copy of the object, whose content is what was
    read without its closing line, the new content and a closing line,
    and records the offset of that copy for the object. *)
Theorem a_dictionary_that_was_read_can_be_extended :
  forall (s s1 : t) (n : Z) (body new_content : bytes),
    read_object n s = (Return (Some body), s1) ->
    finished s = false ->
    exists s2,
      extend_dict {| PDFDictionary.object_number := Some n;
                     PDFDictionary.byte_string := Some body |}
                  new_content s1
      = (Return tt, s2)
      /\ data (fileobj s2)
         = data (fileobj s)
             ++ object_bytes (Some n)
                  (firstn (length body - 3) body ++ new_content
                     ++ bs "\n>>\n")
      /\ overwritten_objects_offsets s2
         = dict_set (overwritten_objects_offsets s) (Some n) (end_offset s).
Proof.
  intros s s1 n body c Hread Hopen.
  apply read_object_inv in Hread as (Hread & Hs1).
  destruct (read_object_at_sound _ _ _ _ _ Hread)
    as (offset & header & rest & _ & _ & _ & _ & _ & Hbody & Hdata).
  assert (Hopen1 : finished s1 = false) by (rewrite Hs1; exact Hopen).
  unfold extend_dict. cbn [PDFDictionary.byte_string PDFDictionary.object_number].
  rewrite Hbody. erewrite sbind_returns by reflexivity.
  rewrite (overwrite_object_open _ _ _ Hopen1).
  eexists. split; [reflexivity|].
  cbn [set_overwritten_objects_offsets appended fileobj set_fileobj data
       overwritten_objects_offsets].
  unfold end_offset. rewrite Hdata. split; [reflexivity|].
  rewrite Hs1. reflexivity.
Qed.

Lemma a_dictionary_that_was_read_can_be_extended_witness :
  exists s1 s2,
    read_object 4 Samples.cairo_store
    = (Return (Some (bs "<< /Producer (cairo 1.10.2 (http://cairographics.org))\n>>\n")),
       s1)
    /\ extend_dict
         {| PDFDictionary.object_number := Some 4;
            PDFDictionary.byte_string :=
              Some (bs "<< /Producer (cairo 1.10.2 (http://cairographics.org))\n>>\n") |}
         (bs "/Title (A)") s1
       = (Return tt, s2)
    /\ data (fileobj s2)
       = data (fileobj Samples.cairo_store)
           ++ bs "4 0 obj\n<< /Producer (cairo 1.10.2 (http://cairographics.org))\n/Title (A)\n>>\n\nendobj\n".
Proof.
  assert (Hread : read_object 4 Samples.cairo_store
                  = (Return (Some (bs "<< /Producer (cairo 1.10.2 (http://cairographics.org))\n>>\n")),
                     snd (read_object 4 Samples.cairo_store)))
    by (vm_compute; reflexivity).
  destruct (a_dictionary_that_was_read_can_be_extended
              _ _ _ _ (bs "/Title (A)") Hread eq_refl)
    as (s2 & Hextend & Hdata & _).
  exists (snd (read_object 4 Samples.cairo_store)), s2.
  split; [exact Hread|]. split; [exact Hextend|].
  rewrite Hdata. reflexivity.
Defined.

End ObjectsRead.

(** ** Looking up a key *)

Section Keys.

Import File PDFFile Literal.

(** A key that the dictionary does not hold.  The key is made of
    letters, digits and underscores, as the keys that the module passes
    are: in the pattern [/key value_re] such a key stands for itself.
    When the bytes of the dictionary hold no [/key] followed by a space,
    [get_value] raises [AttributeError] for each of the three values the
    module looks for (a name, a reference, an array), and
    [get_indirect_dict] and [get_indirect_dict_array] raise it before
    they read anything. *)
Theorem a_missing_key_raises_AttributeError :
  forall (d : PDFDictionary.t) (b : bytes) (key : string),
    forallb Re.word (bs key) = true ->
    PDFDictionary.byte_string d = Some b ->
    (forall i, ~ occurs_at (bs "/" ++ bs key ++ bs " ") b i) ->
    (forall value_re : Re.pattern,
        In value_re
           [[Re.Lit (bs "/"); Re.Open; Re.Plus true Re.word; Re.Close];
            [Re.Open; Re.Plus true Re.digit; Re.Close; Re.Lit (bs " 0 R")];
            [Re.Lit (bs "["); Re.Open; Re.Plus false Re.not_newline;
             Re.Close; Re.Lit (bs "]")]] ->
        PDFDictionary.get_value d key value_re = Raise AttributeError)
    /\ forall (read : Z -> io (option bytes)) (f : File.fileobj),
        PDFDictionary.get_indirect_dict read d key f
        = (Raise AttributeError, f)
        /\ PDFDictionary.get_indirect_dict_array read d key f
           = (Raise AttributeError, f).
Proof.
  intros d b key _ Hb Hnone.
  assert (Hget : forall re, PDFDictionary.get_value d key re
                            = Raise AttributeError).
  { intros re. unfold PDFDictionary.get_value. rewrite Hb.
    destruct (Re.search _ b) as [groups|] eqn:Hsearch; [|reflexivity].
    apply search_occurs in Hsearch as (i & Hi). now destruct (Hnone i). }
  split; [intros value_re _; apply Hget|].
  intros read f. split.
  - unfold PDFDictionary.get_indirect_dict.
    apply sbind_raises. unfold lift. now rewrite Hget.
  - unfold PDFDictionary.get_indirect_dict_array.
    apply sbind_raises. unfold lift. now rewrite Hget.
Qed.

Lemma a_missing_key_raises_AttributeError_witness :
  forallb Re.word (bs "Info") = true
  /\ PDFDictionary.get_value
       {| PDFDictionary.object_number := None;
          PDFDictionary.byte_string := Some (bs "<< /Size 6 /Root 5 0 R >>") |}
       "Info" [Re.Open; Re.Plus true Re.digit; Re.Close; Re.Lit (bs " 0 R")]
     = Raise AttributeError.
Proof.
  split; [reflexivity|].
  refine (proj1 (a_missing_key_raises_AttributeError
                   {| PDFDictionary.object_number := None;
                      PDFDictionary.byte_string :=
                        Some (bs "<< /Size 6 /Root 5 0 R >>") |}
                   (bs "<< /Size 6 /Root 5 0 R >>") "Info"
                   eq_refl eq_refl _)
                _ (or_intror (or_introl eq_refl))).
  intros i Hi.
  assert (Hlt : (i < 0)%nat).
  { apply (no_occurrence_from (bs "/Info ") (bs "<< /Size 6 /Root 5 0 R >>") 0);
      [vm_compute; reflexivity | discriminate | exact Hi]. }
  lia.
Defined.

End Keys.

(** ** What the constructor has checked *)

Section Constructed.

Import File PDFFile Literal ReadOnly.

Lemma keeps_data_lift {A} (o : outcome A) : keeps_data (lift o).
Proof. intros f f' r H. unfold lift in H. now injection H as _ <-. Qed.

Lemma keeps_data_sbind {A B} (m : io A) (k : A -> io B) :
  keeps_data m -> (forall a, keeps_data (k a)) -> keeps_data (sbind m k).
Proof.
  intros Hm Hk f f' r H. unfold sbind in H.
  destruct (m f) as [[a|e] f1] eqn:Hmf.
  - rewrite (Hk a _ _ _ H). exact (Hm _ _ _ Hmf).
  - injection H as _ <-. exact (Hm _ _ _ Hmf).
Qed.

Lemma keeps_data_seek (offset : Z) (w : whence) : keeps_data (seek offset w).
Proof.
  intros f f' r H. unfold seek in H.
  destruct (_ <? 0); now injection H as _ <-.
Qed.

Lemma keeps_data_read : keeps_data read.
Proof. intros f f' r H. unfold read in H. now injection H as _ <-. Qed.

Lemma keeps_data_next : keeps_data next.
Proof.
  intros f f' r H. unfold next in H.
  destruct (Py.lines _); now injection H as _ <-.
Qed.

Lemma keeps_data_read_lines (ls : list bytes) :
  forall (acc : list bytes) (f f' : File.fileobj)
         (r : outcome (option bytes)),
    read_lines ls acc f = (r, f') -> data f' = data f.
Proof.
  induction ls as [|line ls IH]; intros acc f f' r H; cbn [read_lines] in H.
  - now injection H as _ <-.
  - destruct (bytes_eqb line (bs ">>\n")).
    + revert H.
      match goal with
      | |- ?m ?f0 = _ -> _ =>
          intros H;
          assert (Hk : keeps_data m)
      end.
      { apply keeps_data_sbind; [apply keeps_data_next|]. intros a.
        apply keeps_data_sbind; [apply keeps_data_lift|]. intros u.
        apply keeps_data_lift. }
      now rewrite (Hk _ _ _ H).
    + now rewrite (IH _ _ _ _ H).
Qed.

Lemma keeps_data_read_object_at (offsets : list (option Z)) (n : Z) :
  keeps_data (read_object_at offsets n).
Proof.
  unfold read_object_at.
  apply keeps_data_sbind; [apply keeps_data_lift|]. intros [offset|];
    [|apply keeps_data_lift].
  apply keeps_data_sbind; [apply keeps_data_seek|]. intros u.
  apply keeps_data_sbind; [apply keeps_data_next|]. intros line.
  apply keeps_data_sbind; [apply keeps_data_lift|]. intros u1.
  apply keeps_data_sbind; [apply keeps_data_lift|]. intros m.
  apply keeps_data_sbind; [apply keeps_data_lift|]. intros u2.
  intros f f' r H. exact (keeps_data_read_lines _ _ _ _ _ H).
Qed.

Lemma keeps_data_get_indirect_dict (read : Z -> io (option bytes))
      (d : PDFDictionary.t) (key : string) :
  (forall n, keeps_data (read n)) ->
  keeps_data (PDFDictionary.get_indirect_dict read d key).
Proof.
  intros Hread. unfold PDFDictionary.get_indirect_dict.
  apply keeps_data_sbind; [apply keeps_data_lift|]. intros n.
  apply keeps_data_sbind; [apply Hread|]. intros body.
  apply keeps_data_lift.
Qed.

Lemma keeps_data_read_all (read : Z -> io (option bytes))
      (parts : list bytes) :
  (forall n, keeps_data (read n)) ->
  keeps_data (PDFDictionary.read_all read parts).
Proof.
  intros Hread. induction parts as [|part parts IH];
    cbn [PDFDictionary.read_all]; [apply keeps_data_lift|].
  apply keeps_data_sbind; [apply keeps_data_lift|]. intros n.
  apply keeps_data_sbind; [apply Hread|]. intros body.
  apply keeps_data_sbind; [exact IH|]. intros rest.
  apply keeps_data_lift.
Qed.

Lemma keeps_data_get_indirect_dict_array (read : Z -> io (option bytes))
      (d : PDFDictionary.t) (key : string) :
  (forall n, keeps_data (read n)) ->
  keeps_data (PDFDictionary.get_indirect_dict_array read d key).
Proof.
  intros Hread. unfold PDFDictionary.get_indirect_dict_array.
  apply keeps_data_sbind; [apply keeps_data_lift|]. intros v.
  apply keeps_data_sbind; [apply keeps_data_lift|]. intros [trail parts].
  apply keeps_data_sbind; [apply keeps_data_lift|]. intros u.
  now apply keeps_data_read_all.
Qed.

Lemma keeps_data_read_offsets (count : nat) :
  forall acc, keeps_data (read_offsets count acc).
Proof.
  induction count as [|count IH]; intros acc; cbn [read_offsets];
    [apply keeps_data_lift|].
  apply keeps_data_sbind; [apply keeps_data_next|]. intros line.
  apply keeps_data_sbind; [apply keeps_data_lift|]. intros u.
  apply keeps_data_sbind; [apply keeps_data_lift|]. intros offset.
  apply IH.
Qed.

(** The table that the loop of the constructor builds: one offset per
    line read, after what it started from. *)
Lemma read_offsets_shape (count : nat) :
  forall (acc table : list (option Z)) (f f' : File.fileobj),
    read_offsets count acc f = (Return table, f') ->
    exists offsets,
      table = acc ++ map Some offsets /\ length offsets = count.
Proof.
  induction count as [|count IH]; intros acc table f f' H;
    cbn [read_offsets] in H.
  - apply lift_inv in H as (H & _). injection H as <-.
    exists []. now rewrite app_nil_r.
  - apply sbind_inv in H as (line & f1 & _ & H).
    apply sbind_inv in H as (u & f2 & _ & H).
    apply sbind_inv in H as (offset & f3 & _ & H).
    apply IH in H as (offsets & -> & Hlen).
    exists (offset :: offsets). unfold Py.append.
    rewrite <- app_assoc. cbn [app map length]. now rewrite Hlen.
Qed.

Lemma all_pages_flat (pages : list PDFDictionary.t) :
  all_pages pages = Return true ->
  Forall (fun p => PDFDictionary.get_type p = Return (ts "Page")) pages.
Proof.
  induction pages as [|p pages IH]; intros H; [constructor|].
  cbn [all_pages] in H.
  destruct (PDFDictionary.get_type p) as [ty|] eqn:Hty; [|discriminate].
  cbn [obind] in H.
  destruct (text_eqb ty (ts "Page")) eqn:Heq; [|discriminate].
  constructor; [|now apply IH].
  rewrite Hty. f_equal. clear - Heq. revert Heq. generalize (ts "Page").
  induction ty as [|x ty IH]; intros [|y t] H; try discriminate;
    [reflexivity|].
  cbn in H. apply andb_prop in H as [Hxy H].
  apply N.eqb_eq in Hxy. subst y. f_equal. now apply IH.
Qed.

Lemma keeps_data_init : keeps_data __init__.
Proof.
  unfold __init__.
  apply keeps_data_sbind; [apply keeps_data_seek|]. intros u.
  apply keeps_data_sbind; [apply keeps_data_read|]. intros tail.
  destruct (Re.search trailer_re tail) as [[|trailer [|sx [|? ?]]]|];
    try apply keeps_data_lift.
  apply keeps_data_sbind; [apply keeps_data_lift|]. intros sxn.
  apply keeps_data_sbind; [apply keeps_data_seek|]. intros u2.
  apply keeps_data_sbind; [apply keeps_data_next|]. intros line.
  apply keeps_data_sbind; [apply keeps_data_lift|]. intros u3.
  apply keeps_data_sbind; [apply keeps_data_next|]. intros line2.
  destruct (Py.split line2) as [|first [|total [|? ?]]];
    try apply keeps_data_lift.
  apply keeps_data_sbind; [apply keeps_data_lift|]. intros u4.
  apply keeps_data_sbind; [apply keeps_data_lift|]. intros totaln.
  apply keeps_data_sbind; [apply keeps_data_next|]. intros line3.
  apply keeps_data_sbind; [apply keeps_data_lift|]. intros u5.
  apply keeps_data_sbind; [apply keeps_data_read_offsets|]. intros offsets.
  pose proof (keeps_data_read_object_at offsets) as Hread.
  apply keeps_data_sbind; [now apply keeps_data_get_indirect_dict|].
  intros i.
  apply keeps_data_sbind; [now apply keeps_data_get_indirect_dict|].
  intros c.
  apply keeps_data_sbind; [now apply keeps_data_get_indirect_dict|].
  intros pt.
  apply keeps_data_sbind; [now apply keeps_data_get_indirect_dict_array|].
  intros ps.
  apply keeps_data_sbind; [apply keeps_data_lift|]. intros flat.
  apply keeps_data_sbind; [apply keeps_data_lift|]. intros u6.
  intros f f' r H. now injection H as _ <-.
Qed.

(** What a store that the constructor returned has been checked for.
    The file has not been written to.  [startxref] is not negative, and
    a line [xref] stands there in the file.  The table of offsets holds
    [None] for object 0 and an offset for every other object.  Every
    page that was read has the type [Page]: the page tree is flat. *)
Theorem the_constructor_has_checked_the_file :
  forall (f f' : File.fileobj) (s : t),
    __init__ f = (Return s, f') ->
    data (fileobj s) = data f
    /\ 0 <= startxref s
    /\ occurs_at (bs "xref\n") (data f) (Z.to_nat (startxref s))
    /\ (exists offsets, objects_offsets s = None :: map Some offsets)
    /\ Forall (fun p => PDFDictionary.get_type p = Return (ts "Page"))
              (pages s).
Proof.
  intros f f' s H.
  pose proof (keeps_data_init _ _ _ H) as Hsame.
  unfold __init__ in H.
  apply sbind_inv in H as (u & f0 & Hseek & H).
  apply keeps_data_seek in Hseek as Hd0.
  apply sbind_inv in H as (tail & f1 & Hread & H).
  apply keeps_data_read in Hread as Hd1.
  destruct (Re.search trailer_re tail) as [[|trailer [|sx [|? ?]]]|];
    try discriminate.
  apply sbind_inv in H as (sxn & f2 & Hint & H).
  apply lift_inv in Hint as (Hint & ->).
  apply sbind_inv in H as (u2 & f3 & Hseek2 & H).
  unfold seek in Hseek2. cbn zeta in Hseek2.
  destruct (sxn <? 0) eqn:Hneg; [discriminate|].
  apply Z.ltb_ge in Hneg. rename Hneg into Hpos.
  injection Hseek2 as _ <-.
  apply sbind_inv in H as (line & f4 & Hnext & H).
  unfold next in Hnext. cbn [data pos] in Hnext.
  destruct (Py.lines (skipn (Z.to_nat sxn) (data f1))) as [|l rest] eqn:Hx;
    [discriminate|].
  injection Hnext as <- <-.
  apply sbind_inv in H as (u3 & f5 & Hassert & H).
  apply lift_inv in Hassert as (Hassert & ->).
  destruct (bytes_eqb l (bs "xref\n")) eqn:Hxref; [|discriminate].
  apply bytes_eqb_eq in Hxref. subst l.
  apply sbind_inv in H as (line2 & f6 & _ & H).
  destruct (Py.split line2) as [|first [|total [|? ?]]]; try discriminate.
  apply sbind_inv in H as (u4 & f7 & _ & H).
  apply sbind_inv in H as (totaln & f8 & _ & H).
  apply sbind_inv in H as (line3 & f9 & _ & H).
  apply sbind_inv in H as (u5 & f10 & _ & H).
  apply sbind_inv in H as (offsets & f11 & Hoffsets & H).
  apply read_offsets_shape in Hoffsets as (l & -> & _).
  apply sbind_inv in H as (i & f12 & _ & H).
  apply sbind_inv in H as (c & f13 & _ & H).
  apply sbind_inv in H as (pt & f14 & _ & H).
  apply sbind_inv in H as (ps & f15 & _ & H).
  apply sbind_inv in H as (flat & f16 & Hflat & H).
  apply lift_inv in Hflat as (Hflat & ->).
  apply sbind_inv in H as (u6 & f17 & Hassert2 & H).
  apply lift_inv in Hassert2 as (Hassert2 & ->).
  destruct flat; [|discriminate].
  injection H as <- <-.
  cbn [fileobj startxref objects_offsets pages].
  split; [exact Hsame|]. split; [exact Hpos|]. split.
  - rewrite <- Hd0, <- Hd1.
    destruct (lines_first _ _ _ Hx) as [[_ (x' & Hskip & _)]|(_ & _ & Hno)].
    + exact (occurs_at_prefix _ _ _ _ Hskip).
    + exfalso. apply Hno. cbn. tauto.
  - split; [now exists l|]. now apply all_pages_flat.
Qed.

Lemma the_constructor_has_checked_the_file_witness :
  exists (s : t) (f' : File.fileobj),
    __init__ (Samples.opened Samples.cairo_pdf) = (Return s, f')
    /\ occurs_at (bs "xref\n") Samples.cairo_pdf (Z.to_nat (startxref s))
    /\ Forall (fun p => PDFDictionary.get_type p = Return (ts "Page"))
              (pages s).
Proof.
  assert (H : __init__ (Samples.opened Samples.cairo_pdf)
              = (Return Samples.cairo_store,
                 snd (__init__ (Samples.opened Samples.cairo_pdf))))
    by (vm_compute; reflexivity).
  destruct (the_constructor_has_checked_the_file _ _ _ H)
    as (_ & _ & Hxref & _ & Hpages).
  eexists. eexists. split; [exact H|]. split; assumption.
Defined.

(** Outside the range of the table.  On a store that the constructor
    returned, [read_object(0)] raises [TypeError]: the entry of object 0
    is [None], which is no position to seek.  On any store, a number from
    the length of the table on raises [IndexError].  Neither touches the
    store. *)
Theorem read_object_outside_the_table :
  forall (f f' : File.fileobj) (s : t),
    __init__ f = (Return s, f') ->
    read_object 0 s = (Raise TypeError, s)
    /\ forall n : Z,
        Z.of_nat (length (objects_offsets s)) <= n ->
        read_object n s = (Raise IndexError, s).
Proof.
  intros f f' s H.
  assert (Htable : exists offsets, objects_offsets s = None :: map Some offsets).
  { unfold __init__ in H.
    apply sbind_inv in H as (u & f0 & _ & H).
    apply sbind_inv in H as (tail & f1 & _ & H).
    destruct (Re.search trailer_re tail) as [[|trailer [|sx [|? ?]]]|];
      try discriminate.
    apply sbind_inv in H as (sxn & f2 & _ & H).
    apply sbind_inv in H as (u2 & f3 & _ & H).
    apply sbind_inv in H as (line & f4 & _ & H).
    apply sbind_inv in H as (u3 & f5 & _ & H).
    apply sbind_inv in H as (line2 & f6 & _ & H).
    destruct (Py.split line2) as [|first [|total [|? ?]]]; try discriminate.
    apply sbind_inv in H as (u4 & f7 & _ & H).
    apply sbind_inv in H as (totaln & f8 & _ & H).
    apply sbind_inv in H as (line3 & f9 & _ & H).
    apply sbind_inv in H as (u5 & f10 & _ & H).
    apply sbind_inv in H as (offsets & f11 & Hoffsets & H).
    apply read_offsets_shape in Hoffsets as (l & -> & _).
    apply sbind_inv in H as (i & f12 & _ & H).
    apply sbind_inv in H as (c & f13 & _ & H).
    apply sbind_inv in H as (pt & f14 & _ & H).
    apply sbind_inv in H as (ps & f15 & _ & H).
    apply sbind_inv in H as (flat & f16 & _ & H).
    apply sbind_inv in H as (u6 & f17 & _ & H).
    injection H as <- <-. now exists l. }
  destruct Htable as (offsets & Htable).
  assert (Hsame : set_fileobj (fileobj s) s = s) by now destruct s.
  split.
  - unfold read_object, on_file, read_object_at. rewrite Htable.
    unfold sbind, lift. cbn. now rewrite Hsame.
  - intros n Hn. unfold read_object, on_file, read_object_at.
    unfold sbind, lift, Py.index.
    destruct (Z.ltb_spec n 0) as [Hneg|Hpos]; [lia|].
    destruct (Z.leb_spec 0 n); [|lia].
    destruct (Z.ltb_spec n (Z.of_nat (length (objects_offsets s)))); [lia|].
    cbn [andb]. now rewrite Hsame.
Qed.

Lemma read_object_outside_the_table_witness :
  read_object 0 Samples.cairo_store = (Raise TypeError, Samples.cairo_store)
  /\ read_object 6 Samples.cairo_store
     = (Raise IndexError, Samples.cairo_store).
Proof.
  assert (H : __init__ (Samples.opened Samples.cairo_pdf)
              = (Return Samples.cairo_store,
                 snd (__init__ (Samples.opened Samples.cairo_pdf))))
    by (vm_compute; reflexivity).
  destruct (read_object_outside_the_table _ _ _ H) as (Hzero & Hbeyond).
  split; [exact Hzero|]. apply Hbeyond. vm_compute. discriminate.
Defined.

End Constructed.

(** ** Bookmarks whose levels nest *)

Section NestedLevels.

Import Bookmarks Outline Nesting.
Variables Label Destination : Type.

Local Abbreviation node := (node Label Destination).
Local Abbreviation heap := (heap Label Destination).
Local Abbreviation modify := (modify Label Destination).
Local Abbreviation root_node := (root_node Label Destination).

Lemma index_returns {A} (l : list A) (j : nat) (a : A) :
  nth_error l j = Some a -> Py.index l (Z.of_nat j) = Return a.
Proof.
  intros H. unfold Py.index.
  assert (Hj : (j < length l)%nat) by (apply nth_error_Some; congruence).
  destruct (Z.ltb_spec (Z.of_nat j) 0); [lia|].
  destruct (Z.leb_spec 0 (Z.of_nat j)); [|lia].
  destruct (Z.ltb_spec (Z.of_nat j) (Z.of_nat (length l))); [|lia].
  cbn [andb]. now rewrite Nat2Z.id, H.
Qed.

Lemma sum_zeros (d : nat) : Py.sum (repeat 0 d) = 0.
Proof.
  induction d as [|d IH]; [reflexivity|].
  cbn [repeat]. rewrite sum_cons. lia.
Qed.

Lemma rev_zeros (d : nat) : rev (repeat 0 d) = repeat 0 d.
Proof.
  induction d as [|d IH]; [reflexivity|].
  cbn [repeat rev]. rewrite IH. symmetry. apply repeat_cons.
Qed.

(** Among shifts that are all 0 the [while] loop pops one shift per
    level that the bookmark goes up. *)
Lemma pop_zeros (d : nat) :
  forall (k : Z) (up : nat),
    (up <= d)%nat ->
    pop_shifts (repeat 0 d) k (k + Z.of_nat up)
    = Return (repeat 0 (d - up)).
Proof.
  induction d as [|d IH]; intros k up Hup.
  - assert (up = 0%nat) by lia. subst up. cbn [repeat pop_shifts].
    destruct (Z.ltb_spec k (k + Z.of_nat 0)); [lia|reflexivity].
  - cbn [repeat pop_shifts].
    destruct (Z.ltb_spec k (k + Z.of_nat up)) as [Hlt|Hge].
    + destruct up as [|up]; [lia|].
      replace (k + Z.of_nat (S up)) with (k + (1 + 0) + Z.of_nat up) by lia.
      rewrite IH by lia. reflexivity.
    + assert (up = 0%nat) by lia. subst up.
      change (0 :: repeat 0 d) with (repeat 0 (S d)).
      now rewrite rev_zeros, Nat.sub_0_r.
Qed.

(** The loop over [range(level)] returns when [last_by_level] is long
    enough; it changes counts only. *)
Lemma count_up_returns (k : nat) :
  forall (s : nat) (lbl : list nat) (h : heap),
    (s + k <= length lbl)%nat ->
    exists h',
      count_up Label Destination (map Z.of_nat (seq s k)) lbl h = Return h'
      /\ map Parent h' = map Parent h.
Proof.
  induction k as [|k IH]; intros s lbl h Hk.
  - exists h. now split.
  - cbn [seq map count_up].
    destruct (nth_error lbl s) as [r|] eqn:Hr.
    2:{ apply nth_error_None in Hr. lia. }
    unfold ref. rewrite (index_returns _ _ _ Hr). cbn [obind].
    destruct (IH (S s) lbl
                 (modify r (with_Count Label Destination (fun c => c + 1)) h))
      as (h' & -> & Hp);
      [lia|].
    exists h'. split; [reflexivity|].
    rewrite Hp. now apply modify_parents.
Qed.

Lemma last_at_snoc (level l : Z) (levels : list Z) :
  forall number found : Z,
    last_at level (levels ++ [l]) number found
    = if l =? level then number + Z.of_nat (length levels)
      else last_at level levels number found.
Proof.
  induction levels as [|x levels IH]; intros number found.
  - cbn [app last_at length]. destruct (l =? level); [lia|reflexivity].
  - cbn [app last_at length]. rewrite IH.
    destruct (l =? level); [lia|reflexivity].
Qed.

Lemma firstn_seq (k : nat) :
  forall start len : nat,
    (k <= len)%nat -> firstn k (seq start len) = seq start k.
Proof.
  induction k as [|k IH]; intros start len Hk; [reflexivity|].
  destruct len as [|len]; [lia|].
  cbn [seq firstn]. f_equal. apply IH. lia.
Qed.

Lemma last_at_below (level : Z) (levels : list Z) :
  Forall (fun l => 1 <= l) levels ->
  level <= 0 ->
  forall number found, last_at level levels number found = found.
Proof.
  induction 1 as [|l levels Hl _ IH]; intros Hlevel number found;
    [reflexivity|].
  cbn [last_at]. destruct (Z.eqb_spec l level); [lia|]. now apply IH.
Qed.

(** One turn of the loop, for a level that nests. *)
Lemma body_nested (levels : list Z) (st : state Label Destination)
      (level : Z) (lab : Label) (dest : Destination) :
  nested Label Destination levels st ->
  1 <= level <= Z.of_nat (depth levels) + 1 ->
  exists st',
    body Label Destination st (Z.of_nat (S (length levels)))
         (level, lab, dest) = Return st'
    /\ nested Label Destination (levels ++ [level]) st'.
Proof.
  intros [Hpos Hlen Hlist Hsh Hlast Hidx Hpar] Hlevel.
  destruct st as [h bl sh lbl idx].
  cbn [store bookmark_list level_shifts last_by_level indices_by_level] in *.
  subst sh bl.
  set (d := depth levels) in *. set (n := length levels) in *.
  remember (Z.to_nat (level - 1)) as m eqn:Hm.
  assert (HL : level = Z.of_nat (S m)) by lia. subst level.
  assert (Hmd : (m <= d)%nat) by lia.
  unfold body.
  cbn [store bookmark_list level_shifts last_by_level indices_by_level].
  rewrite Hlast, sum_zeros.
  assert (Hshift :
            (if Z.of_nat (S m) >? Z.of_nat (S d) - 1 + 0
             then Return (Py.append (repeat 0 d)
                            (Z.of_nat (S m) - (Z.of_nat (S d) - 1 + 0) - 1))
             else pop_shifts (rev (repeat 0 d)) 0
                             (Z.of_nat (S d) - 1 + 0 - Z.of_nat (S m)))
            = Return (repeat 0 (S m))).
  { destruct (Z.gtb_spec (Z.of_nat (S m)) (Z.of_nat (S d) - 1 + 0)).
    - assert (m = d) by lia. subst m. unfold Py.append.
      replace (Z.of_nat (S d) - (Z.of_nat (S d) - 1 + 0) - 1) with 0 by lia.
      now rewrite <- repeat_cons.
    - rewrite rev_zeros.
      replace (Z.of_nat (S d) - 1 + 0 - Z.of_nat (S m))
        with (0 + Z.of_nat (d - S m)) by lia.
      rewrite pop_zeros by lia. do 2 f_equal. lia. }
  rewrite Hshift. cbn [obind]. rewrite sum_zeros.
  replace (Z.of_nat (S m) - 0 - 1) with (Z.of_nat m) by lia.
  replace (Z.of_nat (S m) - 0) with (Z.of_nat (S m)) by lia.
  assert (Hnth : forall k, (k <= d)%nat ->
                           nth_error idx k
                           = Some (last_at (Z.of_nat k) levels 1 0)).
  { intros k Hk. rewrite Hidx, nth_error_map, nth_error_seq.
    destruct (Nat.ltb_spec k (S d)); [reflexivity|lia]. }
  rewrite (index_returns _ _ _ (Hnth m Hmd)). cbn [obind alloc].
  set (new := {| Count := 0; First := None; Last := None; Prev := None;
                 Next := None;
                 Parent := Some (last_at (Z.of_nat m) levels 1 0);
                 label := Some lab; destination := Some dest |}).
  assert (Hlbl : forall k, (k <= d)%nat -> exists r, nth_error lbl k = Some r).
  { intros k Hk. destruct (nth_error lbl k) as [r|] eqn:Hr; [now exists r|].
    apply nth_error_None in Hr. lia. }
  match goal with
  | |- exists st', obind ?x _ = _ /\ _ =>
      assert (Hbranch :
                exists h2,
                  x = Return (h2, firstn (S m) lbl, firstn (S m) idx)
                  /\ map Parent h2 = map Parent (h ++ [new]))
  end.
  { destruct (Z.gtb_spec (Z.of_nat (S m)) (Z.of_nat (S d) - 1)).
    - assert (m = d) by lia. subst m.
      destruct (Hlbl d (Nat.le_refl d)) as (r & Hr).
      unfold ref in *. rewrite (index_returns _ _ _ Hr). cbn [obind].
      eexists. split.
      + rewrite !firstn_all2; [reflexivity| |lia].
        rewrite Hidx, length_map, length_seq. lia.
      + now apply modify_parents.
    - assert (Hm1 : (S m <= d)%nat) by lia.
      rewrite (index_returns _ _ _ (Hnth (S m) Hm1)). cbn [obind].
      destruct (Hlbl (S m) Hm1) as (r & Hr).
      unfold ref in *. rewrite (index_returns _ _ _ Hr). cbn [obind].
      rewrite !del_from_nat; [| |lia].
      2:{ rewrite Hidx, length_map, length_seq. lia. }
      eexists. split; [reflexivity|].
      now rewrite !modify_parents. }
  destruct Hbranch as (h2 & -> & Hparents2). cbn [obind].
  unfold Py.range. rewrite Nat2Z.id.
  assert (Hfirst : length (firstn (S m) lbl) = S m).
  { rewrite length_firstn. lia. }
  destruct (count_up_returns (S m) 0 (firstn (S m) lbl) h2)
    as (h3 & -> & Hparents3); [unfold ref in *; lia|].
  cbn [obind].
  assert (Hq : exists q, nth_error (firstn (S m) lbl) m = Some q).
  { destruct (nth_error (firstn (S m) lbl) m) as [q|] eqn:Hq;
      [now exists q|].
    apply nth_error_None in Hq. unfold ref in *. lia. }
  destruct Hq as (q & Hq). unfold ref in *.
  rewrite (index_returns _ _ _ Hq). cbn [obind].
  eexists. split; [reflexivity|].
  assert (Hparents4 :
            forall f, (forall b, Parent (f b) = Parent b) ->
                      map Parent (modify q f h3)
                      = map Parent h ++ [Some (last_at (Z.of_nat m) levels 1 0)]).
  { intros f Hf. rewrite modify_parents by exact Hf.
    now rewrite Hparents3, Hparents2, map_app. }
  assert (Hdepth : depth (levels ++ [Z.of_nat (S m)]) = S m).
  { unfold depth. rewrite last_last. lia. }
  split;
    cbn [store bookmark_list level_shifts last_by_level indices_by_level];
    rewrite ?Hdepth, ?length_app; cbn [length]; fold n;
    replace (n + 1)%nat with (S n) by lia.
  - apply Forall_app. split; [exact Hpos|]. repeat constructor. lia.
  - pose proof (f_equal (@length _)
                        (Hparents4 (set_Last Label Destination (Z.of_nat (S n)))
                                   (fun b => eq_refl))) as Hl.
    rewrite !length_map, length_app, length_map in Hl. cbn [length] in Hl.
    rewrite Hl. lia.
  - unfold Py.append. rewrite Hlen. now rewrite seq_S.
  - reflexivity.
  - unfold Py.append. rewrite length_app, Hfirst. cbn [length]. lia.
  - unfold Py.append. rewrite (seq_S (S m) 0), map_app. f_equal.
    + rewrite Hidx, firstn_map, firstn_seq by lia.
      apply map_ext_in. intros k Hk. apply in_seq in Hk.
      rewrite last_at_snoc.
      destruct (Z.eqb_spec (Z.of_nat (S m)) (Z.of_nat k)); [lia|reflexivity].
    + cbn [map]. rewrite last_at_snoc, Z.eqb_refl. fold n. f_equal. lia.
  - rewrite (seq_S n 0), map_app. cbn [map].
    assert (Htl : map Parent (tl (modify q (set_Last Label Destination
                                                     (Z.of_nat (S n))) h3))
                  = map Parent (tl h)
                      ++ [Some (last_at (Z.of_nat m) levels 1 0)]).
    { pose proof (Hparents4 (set_Last Label Destination (Z.of_nat (S n)))
                            (fun b => eq_refl)) as Hp.
      destruct h as [|b0 h]; [discriminate|].
      destruct (modify q _ h3) as [|b4 h4]; [discriminate|].
      cbn [tl map app] in *. now injection Hp. }
    rewrite Htl, Hpar. f_equal.
    + apply map_ext_in. intros j Hj. apply in_seq in Hj. unfold enclosing.
      rewrite app_nth1 by (fold n; lia).
      rewrite firstn_app. fold n.
      replace (j - n)%nat with 0%nat by lia.
      cbn [firstn]. now rewrite app_nil_r.
    + unfold enclosing, n. cbn [Nat.add].
      rewrite app_nth2 by lia.
      rewrite Nat.sub_diag. cbn [nth].
      rewrite firstn_app, Nat.sub_diag, firstn_all.
      cbn [firstn]. rewrite app_nil_r.
      now replace (Z.of_nat (S m) - 1) with (Z.of_nat m) by lia.
Qed.

Lemma initial_nested : nested Label Destination [] (initial Label Destination).
Proof. split; cbn; try reflexivity. constructor. Qed.

Lemma depth_snoc (levels : list Z) (level : Z) :
  0 <= level -> Z.of_nat (depth (levels ++ [level])) = level.
Proof. intros H. unfold depth. rewrite last_last. lia. Qed.

Lemma loop_nested (raws : list (Z * Label * Destination)) :
  forall (levels : list Z) (st : state Label Destination),
    nested Label Destination levels st ->
    nested_from (Z.of_nat (depth levels)) (levels_of raws) ->
    exists st',
      loop Label Destination st
           (Py.enumerate raws (Z.of_nat (S (length levels))))
      = Return st'
      /\ nested Label Destination (levels ++ levels_of raws) st'.
Proof.
  induction raws as [|[[level lab] dest] raws IH]; intros levels st Hst Hnest.
  - exists st. cbn [levels_of map]. rewrite app_nil_r. now split.
  - cbn [levels_of map fst nested_from] in Hnest.
    destruct Hnest as (Hlevel & Hrest).
    destruct (body_nested levels st level lab dest Hst Hlevel)
      as (st1 & Hbody & Hst1).
    cbn [Py.enumerate loop]. rewrite Hbody. cbn [obind].
    replace (Z.of_nat (S (length levels)) + 1)
      with (Z.of_nat (S (length (levels ++ [level]))))
      by (rewrite length_app; cbn [length]; lia).
    destruct (IH (levels ++ [level]) st1 Hst1) as (st' & Hloop & Hst').
    { rewrite depth_snoc by lia. exact Hrest. }
    exists st'. split; [exact Hloop|].
    cbn [levels_of map fst]. rewrite <- app_assoc in Hst'. exact Hst'.
Qed.

(** On levels that nest [process_bookmarks] returns, with one entry per
    bookmark, in order, and the parent of each entry is the bookmark that
    encloses it: the last one before it that is one level up, the root
    for a bookmark of level 1. *)
Theorem nested_levels_build_the_outline :
  forall raw_bookmarks : list (Z * Label * Destination),
    well_nested (levels_of raw_bookmarks) ->
    exists (root : node) (nodes : list node),
      process_bookmarks raw_bookmarks = Return (root, nodes)
      /\ length nodes = length raw_bookmarks
      /\ forall (j : nat) (b : node),
          nth_error nodes j = Some b ->
          Parent b = Some (enclosing (levels_of raw_bookmarks) j).
Proof.
  intros raw Hnest.
  destruct (loop_nested raw [] _ initial_nested Hnest)
    as (st & Hloop & [_ Hlen Hlist _ _ _ Hpar]).
  cbn [app length] in *. change (Z.of_nat 1) with 1 in Hloop.
  unfold process_bookmarks. rewrite Hloop. cbn [obind].
  eexists. eexists. split; [reflexivity|].
  rewrite Hlist, (entries_of_heap _ _ _ _ Hlen).
  assert (Hn : length (levels_of raw) = length raw)
    by apply length_map.
  split.
  - destruct (store _ _ st); [discriminate|]. cbn in *. lia.
  - intros j b Hb.
    pose proof (map_nth_error Parent _ _ Hb) as Hp.
    rewrite Hpar, nth_error_map, nth_error_seq in Hp.
    destruct (Nat.ltb_spec j (length (levels_of raw))); [|discriminate].
    cbn in Hp. now injection Hp as <-.
Qed.

End NestedLevels.

Lemma nested_levels_build_the_outline_witness :
  exists root nodes,
    Bookmarks.process_bookmarks (Outline.with_levels [1; 2; 3; 3; 2; 1; 2])
    = Return (root, nodes)
    /\ map Bookmarks.Parent nodes
       = [Some 0; Some 1; Some 2; Some 2; Some 1; Some 0; Some 6].
Proof.
  destruct (nested_levels_build_the_outline
              unit unit (Outline.with_levels [1; 2; 3; 3; 2; 1; 2]))
    as (root & nodes & Hreturn & _ & _).
  { vm_compute. repeat split; discriminate. }
  exists root, nodes. split; [exact Hreturn|].
  vm_compute in Hreturn. injection Hreturn as _ <-. reflexivity.
Defined.

(** ** What every outline keeps of its bookmarks *)

Section Entries.

Import Bookmarks Outline.
Variables Label Destination : Type.

Local Abbreviation node := (node Label Destination).
Local Abbreviation heap := (heap Label Destination).
Local Abbreviation modify := (modify Label Destination).

Lemma modify_map {B} (g : node -> B) (r : nat) (f : node -> node)
      (h : heap) :
  (forall b, g (f b) = g b) -> map g (modify r f h) = map g h.
Proof.
  intros Hf. revert r. induction h as [|b h IH]; intros r; [now destruct r|].
  destruct r; cbn; [now rewrite Hf|]. now rewrite IH.
Qed.

Lemma count_up_map {B} (g : node -> B) (levels : list Z) :
  (forall f b, g (with_Count Label Destination f b) = g b) ->
  forall (lbl : list nat) (h h' : heap),
    count_up Label Destination levels lbl h = Return h' ->
    map g h' = map g h.
Proof.
  intros Hg. induction levels as [|level levels IH]; intros lbl h h' H;
    cbn [count_up] in H.
  - now injection H as <-.
  - match type of H with
    | obind ?x _ = _ => destruct x as [r|]
    end; cbn [obind] in H; [|discriminate].
    rewrite (IH _ _ _ H). apply modify_map. intros b. apply Hg.
Qed.

(** One turn of the loop allocates one dictionary, for the bookmark,
    and leaves the labels and the destinations of the others as they
    are. *)
Lemma body_entries (st st' : state Label Destination) (i level : Z)
      (lab : Label) (dest : Destination) :
  body Label Destination st i (level, lab, dest) = Return st' ->
  map label (store _ _ st') = map label (store _ _ st) ++ [Some lab]
  /\ map destination (store _ _ st')
     = map destination (store _ _ st) ++ [Some dest]
  /\ bookmark_list _ _ st'
     = bookmark_list _ _ st ++ [length (store _ _ st)].
Proof.
  destruct st as [h bl sh lbl idx]. unfold body.
  cbn [store bookmark_list level_shifts last_by_level indices_by_level].
  intros H.
  match type of H with
  | obind ?x _ = _ => destruct x as [sh'|]
  end; cbn [obind] in H; [|discriminate].
  match type of H with
  | obind ?x _ = _ => destruct x as [parent|]
  end; cbn [obind] in H; [|discriminate].
  cbn [alloc] in H.
  match type of H with
  | obind ?x _ = _ => destruct x as [[[h2 lbl2] idx2]|] eqn:Hbranch
  end; cbn [obind] in H; [|discriminate].
  match type of H with
  | obind ?x _ = _ => destruct x as [h3|] eqn:Hcount
  end; cbn [obind] in H; [|discriminate].
  match type of H with
  | obind ?x _ = _ => destruct x as [r|]
  end; cbn [obind] in H; [|discriminate].
  injection H as <-.
  cbn [store bookmark_list level_shifts last_by_level indices_by_level].
  assert (Hlabel2 : map label h2 = map label h ++ [Some lab]
                    /\ map destination h2
                       = map destination h ++ [Some dest]).
  { destruct (_ >? _) in Hbranch.
    - match type of Hbranch with
      | obind ?x _ = _ => destruct x as [r'|]
      end; cbn [obind] in Hbranch; [|discriminate].
      injection Hbranch as <- _ _.
      rewrite !modify_map, !map_app by reflexivity. now split.
    - match type of Hbranch with
      | obind ?x _ = _ => destruct x as [prev|]
      end; cbn [obind] in Hbranch; [|discriminate].
      match type of Hbranch with
      | obind ?x _ = _ => destruct x as [r'|]
      end; cbn [obind] in Hbranch; [|discriminate].
      injection Hbranch as <- _ _.
      rewrite !modify_map, !map_app by reflexivity. now split. }
  destruct Hlabel2 as (Hlabel2 & Hdest2).
  rewrite !modify_map by reflexivity.
  rewrite (count_up_map label _ (fun _ _ => eq_refl) _ _ _ Hcount).
  rewrite (count_up_map destination _ (fun _ _ => eq_refl) _ _ _ Hcount).
  now rewrite Hlabel2, Hdest2.
Qed.

Lemma loop_entries (raws : list (Z * Label * Destination)) :
  forall (st st' : state Label Destination) (start : Z),
    loop Label Destination st (Py.enumerate raws start) = Return st' ->
    map label (store _ _ st')
    = map label (store _ _ st) ++ map (fun raw => Some (snd (fst raw))) raws
    /\ map destination (store _ _ st')
       = map destination (store _ _ st) ++ map (fun raw => Some (snd raw)) raws
    /\ bookmark_list _ _ st'
       = bookmark_list _ _ st
           ++ seq (length (store _ _ st)) (length raws).
Proof.
  induction raws as [|[[level lab] dest] raws IH]; intros st st' start H.
  - cbn in H. injection H as <-. cbn. now rewrite !app_nil_r.
  - cbn [Py.enumerate loop] in H.
    match type of H with
    | obind ?x _ = _ => destruct x as [st1|] eqn:Hbody
    end; cbn [obind] in H; [|discriminate].
    apply body_entries in Hbody as (Hl1 & Hd1 & Hb1).
    apply IH in H as (Hl & Hd & Hb).
    rewrite Hl, Hd, Hb, Hl1, Hd1, Hb1, <- !app_assoc.
    cbn [map fst snd app length seq]. repeat split.
    do 2 f_equal.
    pose proof (f_equal (@length _) Hl1) as Hlen.
    rewrite length_app, !length_map in Hlen. cbn [length] in Hlen.
    rewrite Hlen. f_equal. lia.
Qed.

(** Whatever the levels, when [process_bookmarks] returns it returns
    one entry per bookmark, in the order of the bookmarks, each with the
    label and the destination of its bookmark; the root has neither. *)
Theorem every_bookmark_is_returned_in_order :
  forall (raw_bookmarks : list (Z * Label * Destination))
         (root : node) (nodes : list node),
    process_bookmarks raw_bookmarks = Return (root, nodes) ->
    map label nodes = map (fun raw => Some (snd (fst raw))) raw_bookmarks
    /\ map destination nodes = map (fun raw => Some (snd raw)) raw_bookmarks
    /\ length nodes = length raw_bookmarks
    /\ label root = None /\ destination root = None.
Proof.
  intros raw root nodes H. unfold process_bookmarks in H.
  match type of H with
  | obind ?x _ = _ => destruct x as [st|] eqn:Hloop
  end; cbn [obind] in H; [|discriminate].
  apply loop_entries in Hloop as (Hl & Hd & Hb).
  cbn [initial alloc store bookmark_list length app map] in Hl, Hd, Hb.
  injection H as <- <-.
  assert (Hlen : length (store _ _ st) = S (length raw)).
  { pose proof (f_equal (@length _) Hl) as Hlen.
    rewrite !length_map in Hlen. cbn [length] in Hlen.
    now rewrite length_map in Hlen. }
  rewrite Hb, (entries_of_heap _ _ _ _ Hlen).
  destruct (store _ _ st) as [|b0 h]; [discriminate|].
  cbn [map tl deref nth] in *.
  injection Hl as Hl0 Hl. injection Hd as Hd0 Hd.
  repeat split; try assumption.
  cbn [length] in Hlen. lia.
Qed.

(** A first bookmark whose level is below 1 makes [process_bookmarks]
    raise [IndexError], whatever follows it: below 0 the loop pops from
    the empty [level_shifts]; at 0 everything is deleted from
    [last_by_level], which is then indexed. *)
Theorem a_first_level_below_1_raises :
  forall (level : Z) (lab : Label) (dest : Destination)
         (rest : list (Z * Label * Destination)),
    level <= 0 ->
    process_bookmarks ((level, lab, dest) :: rest) = Raise IndexError.
Proof.
  intros level lab dest rest Hlevel. unfold process_bookmarks.
  cbn [Py.enumerate loop]. unfold body.
  cbn [initial alloc store bookmark_list level_shifts last_by_level
       indices_by_level length app rev].
  change (Py.sum []) with 0.
  destruct (Z.gtb_spec level (Z.of_nat 1 - 1 + 0)) as [|_]; [lia|].
  cbn [pop_shifts].
  destruct (Z.ltb_spec 0 (Z.of_nat 1 - 1 + 0 - level)) as [Hneg|Hzero];
    [reflexivity|].
  assert (level = 0) by lia. subst level. reflexivity.
Qed.

End Entries.

Lemma every_bookmark_is_returned_in_order_witness :
  exists root nodes,
    Bookmarks.process_bookmarks
      [(2, "Preface", 10%nat); (1, "Part one", 20%nat);
       (5, "Notes", 30%nat)]%string
    = Return (root, nodes)
    /\ map Bookmarks.label nodes
       = [Some "Preface"; Some "Part one"; Some "Notes"]%string
    /\ map Bookmarks.destination nodes
       = [Some 10; Some 20; Some 30]%nat.
Proof.
  eexists. eexists.
  assert (H : Bookmarks.process_bookmarks
                [(2, "Preface", 10%nat); (1, "Part one", 20%nat);
                 (5, "Notes", 30%nat)]%string
              = Return (_, _)) by reflexivity.
  split; [exact H|].
  destruct (every_bookmark_is_returned_in_order _ _ _ _ _ H)
    as (Hl & Hd & _).
  now split.
Defined.

Lemma a_first_level_below_1_raises_witness :
  Bookmarks.process_bookmarks (Outline.with_levels [0; 1; 2])
  = Raise IndexError.
Proof.
  apply (a_first_level_below_1_raises unit unit 0 tt tt). lia.
Defined.

Lemma counts_hold_where_it_returns_witness :
  exists root nodes,
    Bookmarks.process_bookmarks (Outline.with_levels [1; 2; 2; 4; 1])
    = Return (root, nodes)
    /\ length nodes = length (Outline.with_levels [1; 2; 2; 4; 1])
    /\ Outline.counts_hold (root, nodes) = true.
Proof.
  eexists. eexists.
  assert (H : Bookmarks.process_bookmarks
                (Outline.with_levels [1; 2; 2; 4; 1])
              = Return (_, _)) by (vm_compute; reflexivity).
  split; [exact H|].
  apply (counts_hold_where_it_returns unit unit _ _ _); [|exact H].
  repeat constructor; discriminate.
Defined.

(** ** The offsets that [finish] writes *)

Section CrossReferences.

Import File PDFFile Layout Literal Session CrossReference.

Lemma occurs_at_app (p d tail : bytes) (i : nat) :
  occurs_at p d i -> occurs_at p (d ++ tail) i.
Proof.
  unfold occurs_at. intros H.
  assert (Hlen : (length p <= length (skipn i d))%nat).
  { rewrite <- H at 1. rewrite length_firstn. lia. }
  rewrite skipn_app, firstn_app, H.
  replace (length p - length (skipn i d))%nat with 0%nat by lia.
  cbn [firstn]. apply app_nil_r.
Qed.

Lemma object_at_appended (s : t) (b : bytes) (n : option Z) (offset : Z)
      (f : t -> t) :
  (forall s0, fileobj (f s0) = fileobj s0) ->
  object_at s n offset -> object_at (f (appended b s)) n offset.
Proof.
  intros Hf (Hpos & content & Hocc). split; [exact Hpos|].
  exists content. rewrite Hf. cbn [appended fileobj set_fileobj data].
  now apply occurs_at_app.
Qed.

Lemma object_at_end (s : t) (b : bytes) (n : option Z) (f : t -> t) :
  (forall s0, fileobj (f s0) = fileobj s0) ->
  object_at (f (appended (object_bytes n b) s)) n (end_offset s).
Proof.
  intros Hf. unfold end_offset. split; [lia|].
  exists b. rewrite Hf, Nat2Z.id. cbn [appended fileobj set_fileobj data].
  apply (occurs_at_prefix _ []).
  rewrite skipn_app, skipn_all, Nat.sub_diag. cbn [skipn app].
  now rewrite app_nil_r.
Qed.

Lemma In_dict_set (d : list (option Z * Z)) (n k : option Z) (x v : Z) :
  In (k, v) (dict_set d n x) -> In (k, v) d \/ (k = n /\ v = x).
Proof.
  induction d as [|[k0 v0] d IH]; cbn [dict_set]; intros H.
  - destruct H as [H|[]]. injection H as <- <-. now right.
  - destruct (objnum_eqb k0 n) eqn:Heq.
    + destruct H as [H|H].
      * injection H as <- <-. right. split; [|reflexivity].
        now apply objnum_eqb_eq.
      * left. now right.
    + destruct H as [H|H]; [left; now left|].
      destruct (IH H) as [Hin|Hnew]; [left; now right|now right].
Qed.

Lemma overwrite_points (n : option Z) (b : bytes) (s s' : t) :
  finished s = false ->
  overwrite_object n b s = (Return tt, s') ->
  offsets_point_at_objects s ->
  finished s' = false /\ offsets_point_at_objects s'.
Proof.
  intros Hopen H (Hover & Hnew).
  rewrite (overwrite_object_open n b s Hopen) in H. injection H as <-.
  split; [exact Hopen|]. split.
  - intros k v Hin.
    cbn [overwritten_objects_offsets set_overwritten_objects_offsets] in Hin.
    apply In_dict_set in Hin as [Hin|(-> & ->)].
    + apply object_at_appended; [reflexivity|]. now apply Hover.
    + apply object_at_end. reflexivity.
  - intros k v Hk. apply object_at_appended; [reflexivity|].
    now apply Hnew.
Qed.

Lemma run_points (calls : list call) :
  forall (s s' : t) (ns : list Z),
    finished s = false ->
    run calls s = (Return ns, s') ->
    offsets_point_at_objects s ->
    offsets_point_at_objects s'.
Proof.
  induction calls as [|c calls IH]; intros s s' ns Hopen H Hs.
  - cbn in H. apply lift_inv in H as (_ & ->). exact Hs.
  - destruct c as [n b|d c|b]; cbn [run] in H.
    + apply sbind_inv in H as ([] & s1 & Hcall & H).
      destruct (overwrite_points _ _ _ _ Hopen Hcall Hs) as (Hopen1 & Hs1).
      exact (IH _ _ _ Hopen1 H Hs1).
    + apply sbind_inv in H as ([] & s1 & Hcall & H).
      apply extend_dict_returns in Hcall as (n & b & _ & Hcall).
      destruct (overwrite_points _ _ _ _ Hopen Hcall Hs) as (Hopen1 & Hs1).
      exact (IH _ _ _ Hopen1 H Hs1).
    + apply sbind_inv in H as (n & s1 & Hcall & H).
      apply sbind_inv in H as (ns' & s2 & H & Hreturn).
      apply lift_inv in Hreturn as (_ & ->).
      pose proof (write_new_object_open b s Hopen) as Hw.
      cbn zeta in Hw. rewrite Hw in Hcall. injection Hcall as <- <-.
      refine (IH _ _ _ _ H _); [exact Hopen|].
      destruct Hs as (Hover & Hnew). split.
      * intros k v Hin. apply object_at_appended; [reflexivity|].
        now apply Hover.
      * intros k v Hk.
        cbn [new_objects_offsets set_new_objects_offsets objects_offsets
             appended set_fileobj] in Hk |- *.
        destruct (Nat.lt_ge_cases k (length (new_objects_offsets s)))
          as [Hlt|Hge].
        -- rewrite nth_error_app1 in Hk by exact Hlt.
           apply (object_at_appended _ _ _ _
                    (set_new_objects_offsets
                       (new_objects_offsets s ++ [end_offset s])));
             [reflexivity|].
           now apply Hnew.
        -- rewrite nth_error_app2 in Hk by exact Hge.
           destruct (k - length (new_objects_offsets s))%nat as [|k']
             eqn:Hk'; [|destruct k'; discriminate].
           injection Hk as <-.
           assert (k = length (new_objects_offsets s)) by lia. subst k.
           apply (object_at_end s b _
                    (set_new_objects_offsets
                       (new_objects_offsets s ++ [end_offset s]))).
           reflexivity.
Qed.

(** The offsets that [finish] will write are right.  After any calls
    that returned on a store as the constructor leaves it, every offset
    recorded for an overwritten object is where a copy of that object
    stands in the file ([<number> 0 obj], a content, [endobj]), and the
    [k]-th offset recorded for a new object is where the object numbered
    [k] after the original ones stands. *)
Theorem recorded_offsets_point_at_the_objects :
  forall (calls : list call) (s0 s1 : t) (ns : list Z),
    fresh s0 ->
    run calls s0 = (Return ns, s1) ->
    objects_offsets s1 = objects_offsets s0
    /\ offsets_point_at_objects s1.
Proof.
  intros calls s0 s1 ns (Hopen & Hover & Hnew) H. split.
  - exact (same_offsets _ _ _ _ (run_effect _ _ _ _ Hopen H)).
  - apply (run_points _ _ _ _ Hopen H). split.
    + intros n offset Hin. rewrite Hover in Hin. destruct Hin.
    + intros k offset Hk. rewrite Hnew in Hk. destruct k; discriminate.
Qed.

Lemma recorded_offsets_point_at_the_objects_witness :
  fresh Samples.cairo_store
  /\ overwritten_objects_offsets sample_result <> []
  /\ length (new_objects_offsets sample_result) = 2%nat
  /\ offsets_point_at_objects sample_result.
Proof.
  split; [repeat split|]. split; [discriminate|]. split; [reflexivity|].
  assert (Hrun : run sample_calls Samples.cairo_store
                 = (Return [5; 6], sample_result))
    by (vm_compute; reflexivity).
  refine (proj2 (recorded_offsets_point_at_the_objects _ _ _ _ _ Hrun)).
  repeat split.
Defined.

End CrossReferences.

(** ** Decimal numbers, written and read *)

Section Decimals.

(** The digits of [d], as [str] writes them. *)
Local Abbreviation chars d :=
  (list_ascii_of_string (NilEmpty.string_of_uint d)).

(** The number that the digits of [d] stand for. *)
Local Abbreviation val d :=
  (Z.of_N (DecimalPos.Unsigned.of_lu (Decimal.rev d))).

Lemma pow_usize (d : uint) :
  Z.of_N (10 ^ DecimalPos.Unsigned.usize d)
  = 10 ^ Z.of_nat (Decimal.nb_digits d).
Proof.
  rewrite N2Z.inj_pow. f_equal.
  induction d; cbn [DecimalPos.Unsigned.usize Decimal.nb_digits];
    rewrite ?N2Z.inj_succ, ?Nat2Z.inj_succ, ?IHd; reflexivity.
Qed.

Lemma val_digit (d : uint) (front : uint -> uint) (k : N) :
  (forall d', Decimal.rev (front d') = Decimal.revapp d' (front Nil)) ->
  DecimalPos.Unsigned.of_lu (front Nil) = k ->
  val (front d) = Z.of_N k * 10 ^ Z.of_nat (Decimal.nb_digits d) + val d.
Proof.
  intros Hrev Hk.
  rewrite Hrev, DecimalPos.Unsigned.of_lu_revapp, Hk.
  rewrite N2Z.inj_add, N2Z.inj_mul, pow_usize. lia.
Qed.

Ltac leading_digit :=
  match goal with
  | |- context [Decimal.rev (?front ?d)] =>
      rewrite (val_digit d front _ (fun _ => eq_refl) eq_refl)
  end.

Ltac digit_constants :=
  repeat match goal with
         | |- context [Py.digit_value ?c] =>
             let v := eval vm_compute in (Py.digit_value c) in
             change (Py.digit_value c) with v
         | |- context [Z.of_N (DecimalPos.Unsigned.of_lu (?front Nil))] =>
             let v := eval vm_compute in
                        (Z.of_N (DecimalPos.Unsigned.of_lu (front Nil))) in
             change (Z.of_N (DecimalPos.Unsigned.of_lu (front Nil))) with v
         end.

Lemma val_range (d : uint) : 0 <= val d < 10 ^ Z.of_nat (Decimal.nb_digits d).
Proof.
  induction d;
    [cbn; lia
    |leading_digit;
     cbn [Decimal.nb_digits]; rewrite Nat2Z.inj_succ, Z.pow_succ_r by lia;
     cbn [DecimalPos.Unsigned.of_lu Z.of_N]; lia..].
Qed.

Lemma chars_digits (d : uint) :
  forallb Py.is_digit (chars d) = true
  /\ length (chars d) = Decimal.nb_digits d.
Proof.
  induction d as [|d [IH1 IH2]|d [IH1 IH2]|d [IH1 IH2]|d [IH1 IH2]
                  |d [IH1 IH2]|d [IH1 IH2]|d [IH1 IH2]|d [IH1 IH2]
                  |d [IH1 IH2]|d [IH1 IH2]];
    [now split
    |cbn [NilEmpty.string_of_uint list_ascii_of_string forallb length
          Decimal.nb_digits];
     rewrite IH1, IH2; now split..].
Qed.

(** Reading the digits of [d] after [acc]. *)
Lemma digits_value_chars (d : uint) :
  forall (acc : Z) (after_digit : bool),
    Py.digits_value (chars d) acc after_digit
    = match d with
      | Nil => if after_digit then Some acc else None
      | _ => Some (acc * 10 ^ Z.of_nat (Decimal.nb_digits d) + val d)
      end.
Proof.
  induction d; intros acc after_digit;
    [reflexivity
    |cbn [NilEmpty.string_of_uint list_ascii_of_string Py.digits_value];
     change (Py.is_digit _) with true; cbv iota;
     rewrite IHd; leading_digit;
     cbn [Decimal.nb_digits]; rewrite Nat2Z.inj_succ, Z.pow_succ_r by lia;
     destruct d; cbn [Decimal.nb_digits]; f_equal; digit_constants;
     try change (10 ^ Z.of_nat 0) with 1;
     try (match goal with
          | |- context [10 ^ ?e] => generalize (10 ^ e)
          end; intros power);
     lia..].
Qed.

Lemma val_to_uint (p : positive) : val (Pos.to_uint p) = Z.pos p.
Proof.
  rewrite <- DecimalPos.Unsigned.of_uint_alt, DecimalPos.Unsigned.of_to.
  reflexivity.
Qed.

(** The digits of a positive number start with a digit that is not 0. *)
Lemma to_uint_leading (p : positive) :
  forall d, Pos.to_uint p <> D0 d.
Proof.
  intros d Hd.
  pose proof (DecimalPos.Unsigned.to_of (Pos.to_uint p)) as Hnorm.
  rewrite DecimalPos.Unsigned.of_to in Hnorm. cbn [N.to_uint] in Hnorm.
  rewrite Hd, DecimalFacts.unorm_D0 in Hnorm.
  assert (Hcases : d = Nil \/ d <> Nil)
    by (destruct d; [now left | right; discriminate..]).
  destruct Hcases as [->|Hne].
  - exact (DecimalPos.Unsigned.to_uint_nonzero p Hd).
  - pose proof (DecimalFacts.nb_digits_unorm d Hne) as Hle.
    rewrite <- Hnorm in Hle. cbn [nb_digits] in Hle. lia.
Qed.

Lemma str_int_positive (p : positive) :
  Py.str_int (Z.pos p) = chars (Pos.to_uint p)
  /\ Pos.to_uint p <> Nil.
Proof.
  pose proof (DecimalPos.Unsigned.to_uint_nonnil p) as Hnil.
  split; [|exact Hnil].
  unfold Py.str_int. cbn [Z.to_int NilZero.string_of_int].
  unfold NilZero.string_of_uint. now destruct (Pos.to_uint p).
Qed.

(** The digits of a number that is not negative: as many as its size
    asks for. *)
Lemma str_int_digits (z : Z) :
  0 <= z ->
  forallb Py.is_digit (Py.str_int z) = true
  /\ (1 <= length (Py.str_int z))%nat
  /\ z < 10 ^ Z.of_nat (length (Py.str_int z))
  /\ (0 < z -> 10 ^ (Z.of_nat (length (Py.str_int z)) - 1) <= z)
  /\ Py.digits_value (Py.str_int z) 0 false = Some z.
Proof.
  intros Hz. destruct z as [|p|p]; [now vm_compute| |lia].
  destruct (str_int_positive p) as (-> & Hnil).
  destruct (chars_digits (Pos.to_uint p)) as (Hdigits & ->).
  pose proof (val_range (Pos.to_uint p)) as Hrange.
  pose proof (val_to_uint p) as Hval.
  pose proof (to_uint_leading p) as Hlead.
  rewrite digits_value_chars.
  split; [exact Hdigits|]. split.
  { destruct (Pos.to_uint p); cbn [nb_digits]; [contradiction|lia..]. }
  split; [lia|]. split.
  - intros _. rewrite <- Hval.
    destruct (Pos.to_uint p) as [|d|d|d|d|d|d|d|d|d|d];
      [contradiction
      |now destruct (Hlead d)
      |leading_digit; digit_constants; cbn [nb_digits];
       replace (Z.of_nat (S (nb_digits d)) - 1)
         with (Z.of_nat (nb_digits d)) by lia;
       pose proof (val_range d);
       generalize dependent (10 ^ Z.of_nat (nb_digits d)); intros; lia..].
  - rewrite Hval. destruct (Pos.to_uint p); [contradiction|f_equal; lia..].
Qed.

End Decimals.

(** ** The width of a cross-reference entry *)

Section EntryWidth.

Import PDFFile PDFFormatter Layout.

Lemma zero_padded_length (offset : Z) :
  0 <= offset ->
  length (zero_padded offset)
  = Nat.max 10 (length (Py.str_int offset)).
Proof.
  intros Hpos. unfold zero_padded.
  destruct (Z.ltb_spec offset 0); [lia|].
  rewrite Z.abs_eq by lia. cbn [app length].
  rewrite length_app, repeat_length. lia.
Qed.

(** An offset below 10^10 makes an entry of exactly 20 bytes, as the
    cross-reference table of a PDF file asks for; from 10^10 on the
    entry is longer.  The same entry ends the subsection of an
    overwritten object. *)
Theorem an_entry_is_20_bytes_long :
  forall offset : Z,
    0 <= offset ->
    exists entry : bytes,
      pdf_format "{0:010} 00000 n \n" [Int offset] [] = Return entry
      /\ (forall n : option Z,
             pdf_format "{0} 1\n{1:010} 00000 n \n"
                        [value_of n; Int offset] []
             = Return (decimal n ++ bs " 1\n" ++ entry))
      /\ (length entry = 20%nat <-> offset < 10 ^ 10).
Proof.
  intros offset Hpos. exists (new_entry offset).
  split; [apply format_new|]. split; [intros n; apply format_overwritten|].
  unfold new_entry. rewrite length_app, zero_padded_length by exact Hpos.
  change (length (bs " 00000 n \n")) with 10%nat.
  destruct (str_int_digits offset Hpos) as (_ & Hone & Hupper & Hlower & _).
  set (digits := length (Py.str_int offset)) in *.
  split.
  - intros Hlen. assert (Hle : (digits <= 10)%nat) by lia.
    apply (Z.lt_le_trans _ _ _ Hupper).
    apply Z.pow_le_mono_r; lia.
  - intros Hsmall.
    destruct (Nat.le_gt_cases digits 10) as [Hle|Hgt]; [lia|exfalso].
    assert (Hz : 0 < offset).
    { destruct (Z.eq_dec offset 0) as [->|]; [|lia].
      vm_compute in Hgt. lia. }
    specialize (Hlower Hz).
    assert (10 ^ 10 <= 10 ^ (Z.of_nat digits - 1))
      by (apply Z.pow_le_mono_r; lia).
    lia.
Qed.

Lemma an_entry_is_20_bytes_long_witness :
  exists entry : bytes,
    pdf_format "{0:010} 00000 n \n" [Int 430] [] = Return entry
    /\ entry = bs "0000000430 00000 n \n"
    /\ length entry = 20%nat.
Proof.
  destruct (an_entry_is_20_bytes_long 430 ltac:(lia))
    as (entry & Hformat & _ & Hlength).
  exists entry. split; [exact Hformat|]. split.
  - vm_compute in Hformat. now injection Hformat as <-.
  - apply Hlength. reflexivity.
Defined.

End EntryWidth.

(** ** A file that has been finished *)

Section Reopening.

Import File PDFFile PDFFormatter Layout Literal.

(** *** What a match of the trailer pattern has read *)

Lemma search_inv (p : Re.pattern) (s : bytes) (groups : list bytes) :
  Re.search p s = Some groups ->
  exists i, Re.match_here p (skipn i s) None [] = Some groups.
Proof.
  induction s as [|c s IH]; cbn [Re.search]; intros H.
  - destruct (Re.match_here p [] None []) as [g|] eqn:Hm; [|discriminate].
    exists 0%nat. now rewrite <- H.
  - destruct (Re.match_here p (c :: s) None []) as [g|] eqn:Hm.
    + exists 0%nat. now rewrite <- H.
    + destruct (IH H) as (i & Hi). now exists (S i).
Qed.

(** [c+]: what it consumed is in the class, is not empty, and has been
    added to the open group. *)
Lemma plus_inv (greedy : bool) (class : ascii -> bool) (p : Re.pattern)
      (groups result : list bytes) (s : bytes) :
  forall group : option bytes,
    Re.match_here (Re.Plus greedy class :: p) s group groups = Some result ->
    exists (consumed rest : bytes),
      s = consumed ++ rest
      /\ consumed <> []
      /\ forallb class consumed = true
      /\ Re.match_here p rest (option_map (app (rev consumed)) group) groups
         = Some result.
Proof.
  induction s as [|c s IH]; intros group H; [discriminate|].
  cbn [Re.match_here] in H.
  destruct (class c) eqn:Hc; [|discriminate].
  assert (Hone : Re.match_here p s (option_map (cons c) group) groups
                 = Some result ->
                 exists consumed rest,
                   c :: s = consumed ++ rest
                   /\ consumed <> []
                   /\ forallb class consumed = true
                   /\ Re.match_here p rest
                        (option_map (app (rev consumed)) group) groups
                      = Some result).
  { intros Hm. exists [c], s. cbn [app forallb rev]. rewrite Hc.
    repeat split; [discriminate|].
    now destruct group. }
  assert (Hmore : Re.match_here (Re.Plus greedy class :: p) s
                                (option_map (cons c) group) groups
                  = Some result ->
                  exists consumed rest,
                    c :: s = consumed ++ rest
                    /\ consumed <> []
                    /\ forallb class consumed = true
                    /\ Re.match_here p rest
                         (option_map (app (rev consumed)) group) groups
                       = Some result).
  { intros Hm. destruct (IH _ Hm) as (consumed & rest & -> & _ & Hall & Hrest).
    exists (c :: consumed), rest. cbn [app forallb rev]. rewrite Hc, Hall.
    repeat split; [discriminate|].
    destruct group as [g|]; cbn [option_map] in Hrest |- *; [|exact Hrest].
    now rewrite <- app_assoc. }
  change ((fix more (s0 : bytes) (group0 : option bytes) {struct s0} :
             option (list bytes) := _) s (option_map (cons c) group))
    with (Re.match_here (Re.Plus greedy class :: p) s
                        (option_map (cons c) group) groups) in H.
  destruct greedy.
  - destruct (Re.match_here (Re.Plus true class :: p) s _ groups) as [g|]
      eqn:Hm.
    + injection H as ->. now apply Hmore.
    + now apply Hone.
  - destruct (Re.match_here p s _ groups) as [g|] eqn:Hm.
    + injection H as ->. now apply Hone.
    + now apply Hmore.
Qed.

Lemma match_lit (b : bytes) (p : Re.pattern) (s : bytes)
      (group : option bytes) (groups : list bytes) :
  Re.match_here (Re.Lit b :: p) s group groups
  = match strip_prefix b s with
    | Some s' => Re.match_here p s' (option_map (app (rev b)) group) groups
    | None => None
    end.
Proof. reflexivity. Qed.

Lemma match_open (p : Re.pattern) (s : bytes) (group : option bytes)
      (groups : list bytes) :
  Re.match_here (Re.Open :: p) s group groups
  = Re.match_here p s (Some []) groups.
Proof. reflexivity. Qed.

Lemma match_close (p : Re.pattern) (s g : bytes) (groups : list bytes) :
  Re.match_here (Re.Close :: p) s (Some g) groups
  = Re.match_here p s None (rev g :: groups).
Proof. reflexivity. Qed.

Lemma match_dollar (s : bytes) (group : option bytes)
      (groups : list bytes) :
  Re.match_here [Re.Dollar] s group groups
  = if Re.at_end s then Some (rev groups) else None.
Proof. reflexivity. Qed.

Lemma trailer_match (s : bytes) (groups : list bytes) :
  Re.match_here trailer_re s None [] = Some groups ->
  exists (trailer digits rest : bytes),
    groups = [trailer; digits]
    /\ s = bs "\ntrailer\n" ++ trailer ++ bs "\nstartxref\n" ++ digits
            ++ bs "\n%%EOF\n" ++ rest
    /\ digits <> []
    /\ forallb Re.digit digits = true
    /\ Re.at_end rest = true.
Proof.
  unfold trailer_re. intros H. rewrite match_lit in H.
  destruct (strip_prefix (bs "\ntrailer\n") s) as [s1|] eqn:H1;
    [|discriminate].
  apply strip_prefix_app in H1. subst s.
  cbn [option_map] in H. rewrite match_open in H.
  apply plus_inv in H as (trailer & s2 & -> & _ & _ & H).
  cbn [option_map] in H. rewrite match_close, match_lit in H.
  destruct (strip_prefix (bs "\nstartxref\n") s2) as [s3|] eqn:H3;
    [|discriminate].
  apply strip_prefix_app in H3. subst s2.
  cbn [option_map] in H. rewrite match_open in H.
  apply plus_inv in H as (digits & s4 & -> & Hne & Hdigits & H).
  cbn [option_map] in H. rewrite match_close, match_lit in H.
  destruct (strip_prefix (bs "\n%%EOF\n") s4) as [rest|] eqn:H4;
    [|discriminate].
  apply strip_prefix_app in H4. subst s4.
  cbn [option_map] in H. rewrite match_dollar in H.
  destruct (Re.at_end rest) eqn:Hend; [|discriminate].
  injection H as <-.
  exists trailer, digits, rest. cbn [rev app].
  rewrite !app_nil_r, !rev_involutive. repeat split; assumption.
Qed.

(** *** Bytes without white space *)

Lemma lstrip_plain (c : ascii) (b : bytes) :
  Py.is_space c = false -> Py.lstrip (c :: b) = c :: b.
Proof. intros H. cbn [Py.lstrip]. now rewrite H. Qed.

Lemma strip_plain (b : bytes) :
  forallb (fun c => negb (Py.is_space c)) b = true -> Py.strip b = b.
Proof.
  intros H. unfold Py.strip. destruct b as [|c b]; [reflexivity|].
  assert (Hc : Py.is_space c = false).
  { cbn [forallb] in H. apply andb_prop in H as [H _].
    now apply negb_true_iff in H. }
  rewrite (lstrip_plain _ _ Hc).
  destruct (rev (c :: b)) as [|x r] eqn:Hrev.
  - apply (f_equal (@length _)) in Hrev. rewrite length_rev in Hrev.
    discriminate.
  - assert (Hx : Py.is_space x = false).
    { rewrite forallb_forall in H. apply negb_true_iff, H.
      apply in_rev. rewrite Hrev. now left. }
    now rewrite (lstrip_plain _ _ Hx), <- Hrev, rev_involutive.
Qed.

Lemma digits_plain (b : bytes) :
  forallb Py.is_digit b = true ->
  forallb (fun c => negb (Py.is_space c)) b = true.
Proof.
  intros H. rewrite forallb_forall in H |- *. intros c Hc.
  specialize (H c Hc). clear - H.
  unfold Py.is_digit, Py.is_space in *.
  destruct (Nat.leb_spec 48 (nat_of_ascii c)); [|discriminate].
  destruct (Nat.leb_spec (nat_of_ascii c) 13); [lia|].
  destruct (Nat.eqb_spec (nat_of_ascii c) 32); [lia|].
  now rewrite andb_false_r.
Qed.

Lemma plain_no_LF (b : bytes) :
  forallb (fun c => negb (Py.is_space c)) b = true -> ~ In LF b.
Proof.
  intros H Hin. rewrite forallb_forall in H. now specialize (H _ Hin).
Qed.

(** [int(str(z))] is [z], for a number that is not negative. *)
Lemma int_str (z : Z) : 0 <= z -> Py.int (Py.str_int z) = Return z.
Proof.
  intros Hz.
  destruct (str_int_digits z Hz) as (Hdigits & Hone & _ & _ & Hvalue).
  unfold Py.int. rewrite (strip_plain _ (digits_plain _ Hdigits)).
  destruct (Py.str_int z) as [|c b] eqn:Hb; [cbn in Hone; lia|].
  assert (Hc : Py.is_digit c = true).
  { cbn [forallb] in Hdigits. now apply andb_prop in Hdigits as [H _]. }
  destruct c as [[] [] [] [] [] [] [] []]; try discriminate Hc;
    cbv beta iota zeta; rewrite Hvalue; f_equal; lia.
Qed.

Local Abbreviation plain b :=
  (forallb (fun c => negb (Py.is_space c)) b = true).

Lemma str_int_plain (z : Z) : plain (Py.str_int z) /\ Py.str_int z <> [].
Proof.
  destruct z as [|p|p].
  - split; [reflexivity|discriminate].
  - destruct (str_int_digits (Z.pos p) ltac:(lia)) as (Hd & Hone & _).
    split; [now apply digits_plain|].
    intros Hnil. rewrite Hnil in Hone. cbn in Hone. lia.
  - destruct (str_int_digits (Z.pos p) ltac:(lia)) as (Hd & _).
    apply digits_plain in Hd.
    assert (Hneg : Py.str_int (Z.neg p) = "-"%char :: Py.str_int (Z.pos p))
      by reflexivity.
    rewrite Hneg. split; [|discriminate].
    cbn [forallb]. now rewrite Hd.
Qed.

Lemma decimal_plain (n : option Z) : plain (decimal n) /\ decimal n <> [].
Proof.
  destruct n as [z|]; [apply str_int_plain|].
  split; [reflexivity|discriminate].
Qed.

Lemma zero_padded_plain (z : Z) : plain (zero_padded z).
Proof.
  unfold zero_padded. rewrite !forallb_app.
  destruct (str_int_plain (Z.abs z)) as (-> & _).
  rewrite andb_true_r. apply andb_true_intro. split.
  - now destruct (z <? 0).
  - apply forallb_forall. intros c Hc. apply repeat_spec in Hc. now subst c.
Qed.

(** [split()] on two words, a space between them and a line feed
    after. *)
Lemma split_word (a rest : bytes) :
  plain a ->
  forall w, Py.split_from (a ++ rest) (Some w)
            = Py.split_from rest (Some (rev a ++ w)).
Proof.
  induction a as [|c a IH]; intros Ha w; [reflexivity|].
  cbn [forallb] in Ha. apply andb_prop in Ha as [Hc Ha].
  apply negb_true_iff in Hc.
  cbn [app Py.split_from rev]. rewrite Hc, (IH Ha), <- app_assoc.
  reflexivity.
Qed.

Lemma split_two_words (a b : bytes) :
  plain a -> a <> [] -> plain b -> b <> [] ->
  Py.split (a ++ bs " " ++ b ++ bs "\n") = [a; b].
Proof.
  intros Ha Hna Hb Hnb. unfold Py.split.
  change (bs " ") with [" "%char]. change (bs "\n") with [LF].
  destruct a as [|c a]; [contradiction|].
  destruct b as [|c' b]; [contradiction|].
  cbn [forallb] in Ha, Hb.
  apply andb_prop in Ha as [Hc Ha]. apply negb_true_iff in Hc.
  apply andb_prop in Hb as [Hc' Hb]. apply negb_true_iff in Hc'.
  cbn [app Py.split_from]. rewrite Hc.
  rewrite (split_word _ _ Ha). cbn [app Py.split_from].
  change (Py.is_space " ") with true. cbv iota.
  rewrite Hc'. rewrite (split_word _ _ Hb).
  cbn [Py.split_from]. change (Py.is_space LF) with true. cbv iota.
  cbn [rev]. now rewrite !rev_app_distr, !rev_involutive.
Qed.

(** An entry for an object in use is not the entry of the free
    object 0. *)
Lemma entry_is_not_free (padded : bytes) :
  padded ++ bs " 00000 n \n" <> bs "0000000000 65535 f \n".
Proof.
  intros H. apply (f_equal (@rev _)) in H. rewrite rev_app_distr in H.
  cbn in H. discriminate H.
Qed.

(** [next] reads a line that a line feed ends. *)
Lemma next_line (d l0 rest : bytes) (p : nat) :
  skipn p d = l0 ++ [LF] ++ rest ->
  ~ In LF l0 ->
  next {| data := d; pos := p |}
  = (Return (l0 ++ [LF]),
     {| data := d; pos := p + length (l0 ++ [LF]) |})
  /\ skipn (p + length (l0 ++ [LF])) d = rest.
Proof.
  intros Hskip Hno. split.
  - unfold next. cbn [data pos]. rewrite Hskip, app_assoc.
    now rewrite lines_complete.
  - rewrite app_assoc in Hskip.
    apply (skipn_line d (l0 ++ [LF]) rest [] p Hskip).
    now destruct l0.
Qed.

(** *** The number after the last [startxref] *)

Lemma same_up_to (x : ascii) (a : bytes) :
  forall b X Y : bytes,
    a ++ x :: X = b ++ x :: Y -> ~ In x a -> ~ In x b -> a = b.
Proof.
  induction a as [|c a IH]; intros [|c' b] X Y H Ha Hb.
  - reflexivity.
  - cbn in H. injection H as -> _. exfalso. apply Hb. now left.
  - cbn in H. injection H as -> _. exfalso. apply Ha. now left.
  - cbn in H. injection H as -> H. f_equal.
    apply (IH b X Y H); intros Hin; [apply Ha|apply Hb]; now right.
Qed.

Lemma last_startxref (before digits rest before' digits' : bytes) :
  before ++ bs "\nstartxref\n" ++ digits ++ bs "\n%%EOF\n" ++ rest
  = before' ++ bs "\nstartxref\n" ++ digits' ++ bs "\n%%EOF\n" ->
  Re.at_end rest = true ->
  ~ In LF digits -> ~ In LF digits' ->
  digits = digits'.
Proof.
  intros H Hend Hd Hd'.
  apply (f_equal (@rev _)) in H.
  rewrite !rev_app_distr in H.
  change (rev (bs "\n%%EOF\n")) with (LF :: bs "FOE%%" ++ [LF]) in H.
  change (rev (bs "\nstartxref\n")) with (LF :: rev (bs "\nstartxref")) in H.
  destruct rest as [|c [|c' rest]]; [| |discriminate Hend].
  - cbn [rev app] in H. injection H as H.
    rewrite <- !app_assoc in H. cbn [app] in H.
    apply same_up_to in H;
      [|intros Hin; apply in_rev in Hin; contradiction..].
    now rewrite <- (rev_involutive digits), H, rev_involutive.
  - cbn in Hend. apply Ascii.eqb_eq in Hend. subst c.
    cbn [rev app] in H. discriminate H.
Qed.

(** *** Opening what [finish] has written *)

Lemma update_section_shape (s : t) :
  exists before : bytes,
    update_section s
    = bs "xref" ++ [LF]
        ++ concat (map overwritten_subsection (overwritten_objects_offsets s))
        ++ new_subsection (Z.of_nat (length (objects_offsets s)))
                          (new_objects_offsets s)
        ++ bs "trailer" ++ [LF] ++ before
    /\ exists before' : bytes,
        update_section s
        = before' ++ bs "\nstartxref\n" ++ Py.str_int (end_offset s)
            ++ bs "\n%%EOF\n".
Proof.
  unfold update_section, trailer_bytes.
  eexists. split.
  - change (bs "xref\n") with (bs "xref" ++ [LF]).
    change (bs "trailer\n<< /Size ")
      with (bs "trailer" ++ [LF] ++ bs "<< /Size ").
    rewrite <- !app_assoc. reflexivity.
  - exists (bs "xref\n"
              ++ concat (map overwritten_subsection
                             (overwritten_objects_offsets s))
              ++ new_subsection (Z.of_nat (length (objects_offsets s)))
                                (new_objects_offsets s)
              ++ bs "trailer\n<< /Size "
              ++ Py.str_int (Z.of_nat (length (objects_offsets s))
                             + Z.of_nat (length (new_objects_offsets s)))
              ++ bs " /Root "
              ++ decimal (PDFDictionary.object_number (catalog s))
              ++ bs " 0 R /Info "
              ++ decimal (PDFDictionary.object_number (info s))
              ++ bs " 0 R /Prev " ++ Py.str_int (startxref s) ++ bs " >>").
    change (bs " >>\nstartxref\n") with (bs " >>" ++ bs "\nstartxref\n").
    rewrite <- !app_assoc.
    reflexivity.
Qed.

(** What follows the line [xref]: the trailer at once, or a subsection
    header of two words and an entry for an object in use. *)
Lemma after_xref (s : t) (after : bytes) :
  let section :=
    concat (map overwritten_subsection (overwritten_objects_offsets s))
      ++ new_subsection (Z.of_nat (length (objects_offsets s)))
                        (new_objects_offsets s)
      ++ bs "trailer" ++ [LF] ++ after in
  section = bs "trailer" ++ [LF] ++ after
  \/ exists (a b padded more : bytes),
      section = (a ++ bs " " ++ b) ++ [LF]
                  ++ (padded ++ bs " 00000 n ") ++ [LF] ++ more
      /\ plain a /\ a <> [] /\ plain b /\ b <> [] /\ plain padded.
Proof.
  cbv zeta.
  destruct (overwritten_objects_offsets s) as [|[n offset] items].
  - destruct (new_objects_offsets s) as [|offset offsets]; [now left|].
    right. unfold new_subsection.
    set (count := Z.of_nat (length (offset :: offsets))).
    exists (Py.str_int (Z.of_nat (length (objects_offsets s)))),
           (Py.str_int count), (zero_padded offset).
    eexists. split.
    + cbn [map concat app]. unfold new_entry.
      change (bs "\n") with [LF].
      change (bs " 00000 n \n") with (bs " 00000 n " ++ [LF]).
      rewrite <- !app_assoc. reflexivity.
    + destruct (str_int_plain (Z.of_nat (length (objects_offsets s)))).
      destruct (str_int_plain count).
      pose proof (zero_padded_plain offset). now repeat split.
  - right. exists (decimal n), (bs "1"), (zero_padded offset).
    eexists. split.
    + cbn [map concat app]. unfold overwritten_subsection. cbn [fst snd].
      change (bs " 1\n") with (bs " " ++ bs "1" ++ [LF]).
      change (bs " 00000 n \n") with (bs " 00000 n " ++ [LF]).
      rewrite <- !app_assoc. reflexivity.
    + destruct (decimal_plain n).
      pose proof (zero_padded_plain offset).
      repeat split; try assumption; discriminate.
Qed.

(** The store cannot open a file that it has finished.  The trailer
    pattern finds the [startxref] that [finish] wrote, which points at
    the new cross-reference section; that section does not start with
    the subsection [0 <count>] and the entry of the free object 0 that
    the constructor asks for, so the constructor raises. *)
Theorem a_finished_file_cannot_be_opened_again :
  forall (s s' : t) (position : nat),
    finished s = false ->
    finish s = (Return tt, s') ->
    exists (e : exn) (f' : File.fileobj),
      __init__ {| data := data (fileobj s'); pos := position |}
      = (Raise e, f').
Proof.
  intros s s' position Hopen Hfinish.
  rewrite (finish_open s Hopen) in Hfinish. injection Hfinish as <-.
  cbn [set_finished appended set_fileobj fileobj data].
  set (d := data (fileobj s)).
  destruct (update_section_shape s) as (after & HU & before' & HU').
  set (U := update_section s) in *.
  destruct (__init__ {| data := d ++ U; pos := position |})
    as [[s2|e] f'] eqn:H; [exfalso|now exists e, f'].
  unfold __init__ in H.
  apply sbind_inv in H as (u & f0 & Hseek & H).
  unfold seek in Hseek. cbn [data pos] in Hseek.
  destruct (_ <? 0) in Hseek; [discriminate|]. injection Hseek as _ <-.
  apply sbind_inv in H as (tail & f1 & Hread & H).
  unfold read in Hread. cbn [data pos] in Hread. injection Hread as <- <-.
  destruct (Re.search trailer_re _) as [groups|] eqn:Hsearch;
    [|discriminate H].
  apply search_inv in Hsearch as (i & Hmatch).
  apply trailer_match in Hmatch
    as (trailer & digits & rest & -> & Hskip & Hne & Hdigits & Hend).
  rewrite skipn_skipn in Hskip.
  assert (Hsx : digits = Py.str_int (end_offset s)).
  { destruct (str_int_digits (end_offset s)) as (Hd & _);
      [unfold end_offset; lia|].
    pose proof (firstn_skipn
                  (i + Z.to_nat (Z.of_nat (length (d ++ U)) + -200))
                  (d ++ U)) as Hsplit.
    rewrite Hskip, HU' in Hsplit.
    rewrite !app_assoc in Hsplit.
    rewrite <- (app_assoc _ digits), <- (app_assoc _ (digits ++ _)) in Hsplit.
    rewrite <- (app_assoc _ (Py.str_int _)) in Hsplit.
    rewrite <- (app_assoc _ (bs "\nstartxref\n") (_ ++ _)) in Hsplit.
    rewrite <- (app_assoc _ (bs "\nstartxref\n") (Py.str_int _ ++ _))
      in Hsplit.
    rewrite <- (app_assoc digits) in Hsplit.
    apply last_startxref in Hsplit; [exact Hsplit|exact Hend| |].
    - apply plain_no_LF, digits_plain. exact Hdigits.
    - apply plain_no_LF, digits_plain. exact Hd. }
  subst digits.
  apply sbind_inv in H as (sxn & f2 & Hint & H).
  apply lift_inv in Hint as (Hint & ->).
  rewrite int_str in Hint by (unfold end_offset; lia).
  injection Hint as <-.
  apply sbind_inv in H as (u2 & f3 & Hseek2 & H).
  unfold seek, end_offset in Hseek2. cbn [data pos] in Hseek2.
  destruct (_ <? 0) in Hseek2; [discriminate|].
  rewrite Nat2Z.id in Hseek2. injection Hseek2 as _ <-.
  fold d in H.
  match type of HU with
  | _ = ?expansion =>
      assert (Hat : skipn (length d) (d ++ U) = expansion)
        by (rewrite skipn_app, skipn_all, Nat.sub_diag; exact HU)
  end.
  destruct (next_line _ _ _ _ Hat) as (Hnext & Hat1).
  { intros [Hin|[Hin|[Hin|[Hin|[]]]]]; discriminate. }
  apply sbind_inv in H as (line & f4 & Hline & H).
  rewrite Hnext in Hline. injection Hline as <- <-.
  apply sbind_inv in H as (u3 & f5 & Hassert & H).
  apply lift_inv in Hassert as (_ & ->).
  apply sbind_inv in H as (line2 & f6 & Hline2 & H).
  destruct (after_xref s after)
    as [Hsection|(a & b & padded & more & Hsection & Ha & Hna & Hb & Hnb
                  & Hpadded)];
    rewrite Hsection in Hat1.
  - destruct (next_line _ _ _ _ Hat1) as (Hnext2 & _).
    { intros [Hin|[Hin|[Hin|[Hin|[Hin|[Hin|[Hin|[]]]]]]]]; discriminate. }
    pose proof (eq_trans (eq_sym Hnext2) Hline2) as Hsame.
    injection Hsame as <- <-. discriminate H.
  - assert (Hno : forall x y : bytes,
               plain x -> ~ In LF (x ++ bs " " ++ y) \/ In LF y).
    { intros x y Hx. destruct (in_dec ascii_dec LF y) as [Hin|Hout];
        [now right|left].
      intros Hin. apply in_app_or in Hin as [Hin|[Hin|Hin]];
        [now apply (plain_no_LF x)|discriminate|contradiction]. }
    destruct (next_line _ _ _ _ Hat1) as (Hnext2 & Hat2).
    { destruct (Hno a b Ha) as [Hok|Hin]; [exact Hok|].
      now apply plain_no_LF in Hin. }
    pose proof (eq_trans (eq_sym Hnext2) Hline2) as Hsame.
    injection Hsame as <- <-.
    assert (Hsplit : Py.split ((a ++ bs " " ++ b) ++ [LF]) = [a; b]).
    { rewrite <- app_assoc.
      exact (split_two_words a b Ha Hna Hb Hnb). }
    change (Py.split _) with (Py.split ((a ++ bs " " ++ b) ++ [LF])) in H.
    rewrite Hsplit in H.
    apply sbind_inv in H as (u4 & f7 & Hfirst & H).
    apply lift_inv in Hfirst as (_ & ->).
    apply sbind_inv in H as (total & f8 & Htotal & H).
    apply lift_inv in Htotal as (_ & ->).
    apply sbind_inv in H as (line3 & f9 & Hline3 & H).
    destruct (next_line _ _ _ _ Hat2) as (Hnext3 & _).
    { intros Hin. apply in_app_or in Hin as [Hin|Hin].
      - now apply (plain_no_LF padded).
      - repeat (destruct Hin as [Hin|Hin]; [discriminate|]). destruct Hin. }
    pose proof (eq_trans (eq_sym Hnext3) Hline3) as Hsame.
    injection Hsame as <- <-.
    apply sbind_inv in H as (u5 & f10 & Hfree & _).
    apply lift_inv in Hfree as (Hfree & _).
    destruct (bytes_eqb _ (bs "0000000000 65535 f \n")) eqn:Heq;
      [|discriminate].
    apply bytes_eqb_eq in Heq. rewrite <- app_assoc in Heq.
    exact (entry_is_not_free _ Heq).
Qed.

Lemma a_finished_file_cannot_be_opened_again_witness :
  exists (e : exn) (f' : File.fileobj),
    __init__ {| data := data (fileobj Session.sample_result)
                          ++ update_section Session.sample_result;
                pos := 0 |}
    = (Raise e, f').
Proof.
  exact (a_finished_file_cannot_be_opened_again
           Session.sample_result
           (set_finished true
              (appended (update_section Session.sample_result)
                        Session.sample_result))
           0%nat eq_refl
           (finish_open Session.sample_result eq_refl)).
Defined.

End Reopening.

(** ** The dictionaries that the constructor holds *)

Section HeldDictionaries.

Import File PDFFile Literal.

Lemma digits_value_bound (b : bytes) :
  forall (acc : Z) (after_digit : bool) (v : Z),
    Py.digits_value b acc after_digit = Some v -> 0 <= acc -> 0 <= v.
Proof.
  induction b as [|c b IH]; intros acc after_digit v H Hacc;
    cbn [Py.digits_value] in H.
  - destruct after_digit; [|discriminate]. injection H as <-. exact Hacc.
  - destruct (Py.is_digit c) eqn:Hc.
    + apply (IH _ _ _ H). unfold Py.digit_value.
      unfold Py.is_digit in Hc. apply andb_prop in Hc as [Hlow _].
      apply Nat.leb_le in Hlow. lia.
    + destruct (_ && _); [|discriminate]. exact (IH _ _ _ H Hacc).
Qed.

(** [int] of digits is not negative. *)
Lemma int_of_digits (b : bytes) (n : Z) :
  forallb Re.digit b = true -> Py.int b = Return n -> 0 <= n.
Proof.
  intros Hdigits H. unfold Py.int in H.
  rewrite (strip_plain _ (digits_plain _ Hdigits)) in H.
  destruct b as [|c b].
  - discriminate H.
  - assert (Hc : Py.is_digit c = true).
    { cbn [forallb] in Hdigits. now apply andb_prop in Hdigits as [Hc _]. }
    revert H.
    destruct c as [[] [] [] [] [] [] [] []]; try discriminate Hc;
      cbv beta iota zeta;
      (destruct (Py.digits_value _ 0 false) as [v|] eqn:Hv;
       [|discriminate]);
      intros H; injection H as <-;
      (apply digits_value_bound in Hv; [destruct v; lia|lia]).
Qed.

(** The number that [get_indirect_dict] follows is written in digits. *)
Lemma reference_digits (d : PDFDictionary.t) (key : string) (v : bytes) :
  PDFDictionary.get_value d key
    [Re.Open; Re.Plus true Re.digit; Re.Close; Re.Lit (bs " 0 R")]
  = Return v ->
  forallb Re.digit v = true.
Proof.
  unfold PDFDictionary.get_value.
  destruct (PDFDictionary.byte_string d) as [b|]; [|discriminate].
  destruct (Re.search _ b) as [[|group1 groups]|] eqn:Hsearch;
    try discriminate.
  intros H. injection H as <-.
  apply search_inv in Hsearch as (i & Hmatch).
  rewrite match_lit in Hmatch.
  destruct (strip_prefix _ (skipn i b)) as [s1|]; [|discriminate].
  cbn [option_map] in Hmatch. rewrite match_open in Hmatch.
  apply plus_inv in Hmatch as (digits & s2 & _ & _ & Hdigits & Hmatch).
  cbn [option_map] in Hmatch. rewrite match_close, match_lit in Hmatch.
  destruct (strip_prefix _ s2) as [s3|]; [|discriminate].
  cbn [option_map Re.match_here rev app] in Hmatch.
  injection Hmatch as <-.
  now rewrite app_nil_r, rev_involutive.
Qed.

(** A dictionary that [get_indirect_dict] returned, reading through a
    table whose entry 0 is [None], has a number from 1 up to the length
    of the table, not included. *)
Lemma followed_number (table : list (option Z)) (d d' : PDFDictionary.t)
      (key : string) (f f' : File.fileobj) :
  nth_error table 0 = Some None ->
  PDFDictionary.get_indirect_dict (read_object_at table) d key f
  = (Return d', f') ->
  exists n : Z,
    PDFDictionary.object_number d' = Some n
    /\ 1 <= n < Z.of_nat (length table).
Proof.
  intros Hfree H. unfold PDFDictionary.get_indirect_dict in H.
  apply sbind_inv in H as (n & f1 & Hn & H).
  apply lift_inv in Hn as (Hn & ->).
  destruct (PDFDictionary.get_value d key _) as [v|] eqn:Hv;
    [|discriminate].
  cbn [obind] in Hn.
  apply reference_digits in Hv. apply (int_of_digits _ _ Hv) in Hn.
  apply sbind_inv in H as (body & f2 & Hread & H).
  apply lift_inv in H as (H & _). injection H as <-.
  exists n. split; [reflexivity|].
  unfold read_object_at in Hread.
  apply sbind_inv in Hread as (o & f3 & Hindex & Hread).
  apply lift_inv in Hindex as (Hindex & ->).
  destruct o as [offset|]; [|discriminate].
  apply index_some in Hindex as (Hnth & Hlt); [|exact Hn].
  split; [|exact Hlt].
  destruct (Z.eq_dec n 0) as [->|]; [|lia].
  change (Z.to_nat 0) with 0%nat in Hnth. congruence.
Qed.

(** The dictionaries that a store holds after construction, the
    information dictionary, the catalog and the page tree, have numbers
    that [overwrite_object] and [read_object] document as theirs: from 1
    up to the length of the table of offsets, not included. *)
Theorem held_dictionaries_are_in_the_table :
  forall (f f' : File.fileobj) (s : t),
    __init__ f = (Return s, f') ->
    Forall (fun d : PDFDictionary.t =>
              exists n : Z,
                PDFDictionary.object_number d = Some n
                /\ 1 <= n < Z.of_nat (length (objects_offsets s)))
           [info s; catalog s; page_tree s].
Proof.
  intros f f' s H. unfold __init__ in H.
  apply sbind_inv in H as (u & f0 & _ & H).
  apply sbind_inv in H as (tail & f1 & _ & H).
  destruct (Re.search trailer_re tail) as [[|trailer [|sx [|? ?]]]|];
    try discriminate.
  apply sbind_inv in H as (sxn & f2 & _ & H).
  apply sbind_inv in H as (u2 & f3 & _ & H).
  apply sbind_inv in H as (line & f4 & _ & H).
  apply sbind_inv in H as (u3 & f5 & _ & H).
  apply sbind_inv in H as (line2 & f6 & _ & H).
  destruct (Py.split line2) as [|first [|total [|? ?]]]; try discriminate.
  apply sbind_inv in H as (u4 & f7 & _ & H).
  apply sbind_inv in H as (totaln & f8 & _ & H).
  apply sbind_inv in H as (line3 & f9 & _ & H).
  apply sbind_inv in H as (u5 & f10 & _ & H).
  apply sbind_inv in H as (offsets & f11 & Hoffsets & H).
  apply read_offsets_shape in Hoffsets as (l & -> & _).
  apply sbind_inv in H as (i & f12 & Hinfo & H).
  apply sbind_inv in H as (c & f13 & Hcatalog & H).
  apply sbind_inv in H as (pt & f14 & Htree & H).
  apply sbind_inv in H as (ps & f15 & _ & H).
  apply sbind_inv in H as (flat & f16 & _ & H).
  apply sbind_inv in H as (u6 & f17 & _ & H).
  injection H as <- <-. cbn [info catalog page_tree objects_offsets].
  repeat constructor;
    eapply followed_number; try eassumption; reflexivity.
Qed.

Lemma held_dictionaries_are_in_the_table_witness :
  map PDFDictionary.object_number
      [info Samples.cairo_store; catalog Samples.cairo_store;
       page_tree Samples.cairo_store]
  = [Some 4; Some 1; Some 2]
  /\ length (objects_offsets Samples.cairo_store) = 5%nat
  /\ Forall (fun d : PDFDictionary.t =>
               exists n : Z,
                 PDFDictionary.object_number d = Some n
                 /\ 1 <= n < 5)
            [info Samples.cairo_store; catalog Samples.cairo_store;
             page_tree Samples.cairo_store].
Proof.
  split; [reflexivity|]. split; [reflexivity|].
  exact (held_dictionaries_are_in_the_table
           (Samples.opened Samples.cairo_pdf)
           (snd (__init__ (Samples.opened Samples.cairo_pdf)))
           Samples.cairo_store
           ltac:(vm_compute; reflexivity)).
Defined.

End HeldDictionaries.

(** ** A string that [!P] wrote, read back *)

Section StringsReadBack.

Import PDFFormatter Literal Reader.
Local Open Scope N_scope.

Lemma unescape_escaped (e : bytes) : unescape (escaped e) = e.
Proof.
  unfold escaped. induction e as [|c e IH]; [reflexivity|].
  change (flat_map escape_byte (c :: e))
    with (escape_byte c ++ flat_map escape_byte e).
  assert (Hc : (escape_byte c = [backslash; c])
               \/ (escape_byte c = [c] /\ Ascii.eqb c backslash = false)).
  { unfold escape_byte.
    destruct (Ascii.eqb c "(" || Ascii.eqb c ")" || Ascii.eqb c backslash)
      eqn:Hspecial; [now left|right].
    now apply orb_false_elim in Hspecial as [_ Hback]. }
  destruct Hc as [->|(-> & Hback)].
  - change (unescape ([backslash; c] ++ flat_map escape_byte e))
      with (c :: unescape (flat_map escape_byte e)).
    now rewrite IH.
  - change (unescape ([c] ++ flat_map escape_byte e))
      with (if Ascii.eqb c backslash
            then match flat_map escape_byte e with
                 | c' :: rest' => c' :: unescape rest'
                 | [] => []
                 end
            else c :: unescape (flat_map escape_byte e)).
    now rewrite Hback, IH.
Qed.

(** The string that [!P] writes can be read back.  For a text string
    [s] of Unicode scalar values the formatter produces an opening
    parenthesis, some bytes and a closing parenthesis; taking the
    backslashes off those bytes and decoding them as UTF-16BE gives the
    byte-order mark U+FEFF followed by [s]. *)
Theorem a_P_string_reads_back :
  forall s : text,
    Forall scalar s ->
    exists literal : bytes,
      pdf_format "{0!P}" [Str s] [] = Return (bs "(" ++ literal ++ bs ")")
      /\ decode_utf_16_be (unescape literal) = Some (0xFEFF :: s).
Proof.
  intros s Hs.
  assert (Hbom : Forall scalar (0xFEFF :: s)).
  { constructor; [|exact Hs]. unfold scalar. lia. }
  destruct (scalars_encode _ Hbom) as (e & He).
  exists (escaped e). split.
  - unfold pdf_format. eapply vformat_bytes; [vm_compute; reflexivity|].
    cbn [format_pieces get_value nth_error obind].
    unfold convert_field. rewrite He. cbn [obind format_field].
    rewrite translate_escapes, app_nil_r, !text_of_bytes_app. reflexivity.
  - rewrite unescape_escaped. now apply decode_encoded.
Qed.

Lemma a_P_string_reads_back_witness :
  exists literal : bytes,
    pdf_format "{0!P}" [Str [0x41; 0x28; 0x1F600; 0x5C29]] []
    = Return (bs "(" ++ literal ++ bs ")")
    /\ decode_utf_16_be (unescape literal)
       = Some [0xFEFF; 0x41; 0x28; 0x1F600; 0x5C29].
Proof.
  apply a_P_string_reads_back.
  repeat constructor; unfold scalar; lia.
Defined.

End StringsReadBack.
